(** * bookgen / Fairy-Stockfish [apiutil.h]: notation, FEN validation and
    insufficient-material rules, embedded in Rocq.

    The development follows [src/apiutil.h].  Functions keep the names of the
    source.  Conventions of the embedding:

    - C++ [int] values are integers of [Z]; an arithmetic step whose result
      leaves the 32-bit range, an out-of-range [std::vector] or
      [std::string] access, and a failed [assert] are undefined behaviour
      and are rendered as [None] in the [option] monad.  An [unsigned int]
      is reduced modulo [2^32].
    - [std::string] is [string], [char] is [ascii]; the [<cctype>]
      predicates are those of the "C" locale.
    - The diagnostics written to [std::cerr] are not part of the model.
    - [Variant] (variant.h), the enumerations of types.h, the bitboard
      helpers of bitboard.h and [Position] (position.h) are not part of the
      translated file; they are interfaces the embedding is parametric in. *)

From Stdlib Require Import ZArith Lia Bool List Ascii String.
From Stdlib Require Import Numbers.DecimalString.
From Stdlib Require DecimalZ DecimalPos.
From stdpp Require Import base option list list_numbers gmap strings.

#[local] Set Warnings "-clear-no-such-hyp".

Local Open Scope string_scope.
Local Open Scope Z_scope.

(** ** Machine integers *)

Definition INT_MAX : Z := 2147483647.
Definition INT_MIN : Z := -2147483648.

Definition in_int (z : Z) : bool := (INT_MIN <=? z) && (z <=? INT_MAX).

(** A signed [int] result: overflow is undefined. *)
Definition int_of (z : Z) : option Z := if in_int z then Some z else None.

(** Conversion to [unsigned int]. *)
Definition to_unsigned (z : Z) : Z := z mod 2 ^ 32.

(** Narrowing of a [ptrdiff_t] count to [int] (two's complement). *)
Definition to_int (z : Z) : Z := (z + 2 ^ 31) mod 2 ^ 32 - 2 ^ 31.

(** ** Characters and strings *)

Definition code (c : ascii) : Z := Z.of_N (N_of_ascii c).
Definition char_of (z : Z) : ascii := ascii_of_N (Z.to_N (z mod 256)).

Definition isdigit (c : ascii) : bool := (48 <=? code c) && (code c <=? 57).
Definition isupper (c : ascii) : bool := (65 <=? code c) && (code c <=? 90).
Definition islower (c : ascii) : bool := (97 <=? code c) && (code c <=? 122).
Definition isalpha (c : ascii) : bool := isupper c || islower c.
Definition tolower (c : ascii) : ascii :=
  if isupper c then char_of (code c + 32) else c.
Definition toupper (c : ascii) : ascii :=
  if islower c then char_of (code c - 32) else c.

(** [c - '0'] *)
Definition digit_value (c : ascii) : Z := code c - 48.

Definition chars (s : string) : list ascii := list_ascii_of_string s.
Definition size (s : string) : Z := Z.of_nat (String.length s).

(** [s.find(c) != std::string::npos] *)
Definition contains (c : ascii) (s : string) : bool :=
  existsb (Ascii.eqb c) (chars s).

(** [std::count(s.begin(), s.end(), c)] *)
Definition count_char (c : ascii) (s : string) : Z :=
  Z.of_nat (List.length (List.filter (Ascii.eqb c) (chars s))).

(** [s[i]]: the terminating null at [i = size], undefined beyond. *)
Definition string_at (s : string) (i : Z) : option ascii :=
  if (0 <=? i) && (i <? size s) then chars s !! Z.to_nat i
  else if i =? size s then Some zero
  else None.

(** [s += c] *)
Definition push_back (s : string) (c : ascii) : string := s ++ String c "".

(** [std::to_string(int)] *)
Definition to_string (z : Z) : string := NilZero.string_of_int (Z.to_int z).

(** ** Enumerations of types.h used by the translated code *)

Inductive Color := WHITE | BLACK.

Definition flip (c : Color) : Color :=
  match c with WHITE => BLACK | BLACK => WHITE end.

(** [std::array<T, 2>] indexed by a [Color]. *)
Definition per_color (A : Type) : Type := (A * A)%type.

Definition at_color {A} (a : per_color A) (c : Color) : A :=
  match c with WHITE => fst a | BLACK => snd a end.

Definition set_color {A} (a : per_color A) (c : Color) (x : A) : per_color A :=
  match c with WHITE => (x, snd a) | BLACK => (fst a, x) end.

(** Piece types and pieces are enumerators, hence integers. *)
Definition PieceType := nat.
Definition Piece := nat.

Inductive CastlingRights := KING_SIDE | QUEEN_SIDE.

(** The piece-type enumerators of types.h that apiutil.h names. *)
Class Enumerators := {
  ALL_PIECES : PieceType;
  PAWN : PieceType;
  BISHOP : PieceType;
  ROOK : PieceType;
  QUEEN : PieceType;
  FERS : PieceType;
  ALFIL : PieceType;
  FERS_ALFIL : PieceType;
  SILVER : PieceType;
  ARCHBISHOP : PieceType;
  CHANCELLOR : PieceType;
  GOLD : PieceType;
  ELEPHANT : PieceType;
  COMMONER : PieceType;
  CENTAUR : PieceType;
  KING : PieceType
}.

(** ** The variant descriptor (variant.h): the fields read by apiutil.h. *)

Record Variant := {
  variantTemplate : string;
  pieceToChar : string;
  pieceTypes : gset PieceType;
  extinctionPieceTypes : gset PieceType;
  maxRank : Z;
  maxFile : Z;
  startFen : string;
  pieceDrops : bool;
  castling : bool;
  chess960 : bool;
  doubleStep : bool
}.

(** ** Bitboards

    A [Bitboard] is a non-negative integer whose bit [s] stands for the
    square [s]; [b & s], [b | s] and [b ^ s] with a square go through
    [square_bb].  Every complement [~b] of the source is at once
    intersected with a bitboard, so [Z.lnot] is exact whatever the width. *)

Definition Square := Z.
Definition Bitboard := Z.

Definition square_bb (s : Square) : Bitboard := Z.shiftl 1 s.

(** The squares of a bitboard, lowest first: the order of [pop_lsb]. *)
Fixpoint pos_squares (p : positive) (i : Z) : list Square :=
  match p with
  | xH => [i]
  | xO q => pos_squares q (i + 1)
  | xI q => i :: pos_squares q (i + 1)
  end.

Definition squares_of (b : Bitboard) : list Square :=
  match b with
  | Zpos p => pos_squares p 0
  | _ => []
  end.

Definition popcount (b : Bitboard) : Z := Z.of_nat (List.length (squares_of b)).

(** [lsb(b)]; the source asserts [b != 0]. *)
Definition lsb (b : Bitboard) : Square := List.hd 0 (squares_of b).

(** [b & s] as a truth value. *)
Definition bb_has (b : Bitboard) (s : Square) : bool :=
  negb (Z.land b (square_bb s) =? 0).

(** ** Notation *)

Inductive Notation :=
| NOTATION_DEFAULT
| NOTATION_SAN
| NOTATION_LAN
| NOTATION_SHOGI_HOSKING
| NOTATION_SHOGI_HODGES
| NOTATION_SHOGI_HODGES_NUMBER
| NOTATION_JANGGI
| NOTATION_XIANGQI_WXF.

Inductive Disambiguation :=
| NO_DISAMBIGUATION
| FILE_DISAMBIGUATION
| RANK_DISAMBIGUATION
| SQUARE_DISAMBIGUATION.

(** Modelled from the spec: the tags of a [Move] (types.h is not part of the
    translated file): Normal, Drop, Castling, Promotion, PiecePromotion,
    PieceDemotion. *)
Inductive MoveType :=
| NORMAL
| DROP
| CASTLING
| PROMOTION
| PIECE_PROMOTION
| PIECE_DEMOTION.

Definition Value := Z.

Definition Notation_eqb (a b : Notation) : bool :=
  match a, b with
  | NOTATION_DEFAULT, NOTATION_DEFAULT
  | NOTATION_SAN, NOTATION_SAN
  | NOTATION_LAN, NOTATION_LAN
  | NOTATION_SHOGI_HOSKING, NOTATION_SHOGI_HOSKING
  | NOTATION_SHOGI_HODGES, NOTATION_SHOGI_HODGES
  | NOTATION_SHOGI_HODGES_NUMBER, NOTATION_SHOGI_HODGES_NUMBER
  | NOTATION_JANGGI, NOTATION_JANGGI
  | NOTATION_XIANGQI_WXF, NOTATION_XIANGQI_WXF => true
  | _, _ => false
  end.

Definition MoveType_eqb (a b : MoveType) : bool :=
  match a, b with
  | NORMAL, NORMAL | DROP, DROP | CASTLING, CASTLING | PROMOTION, PROMOTION
  | PIECE_PROMOTION, PIECE_PROMOTION | PIECE_DEMOTION, PIECE_DEMOTION => true
  | _, _ => false
  end.

Definition Disambiguation_eqb (a b : Disambiguation) : bool :=
  match a, b with
  | NO_DISAMBIGUATION, NO_DISAMBIGUATION
  | FILE_DISAMBIGUATION, FILE_DISAMBIGUATION
  | RANK_DISAMBIGUATION, RANK_DISAMBIGUATION
  | SQUARE_DISAMBIGUATION, SQUARE_DISAMBIGUATION => true
  | _, _ => false
  end.

Definition Color_eqb (a b : Color) : bool :=
  match a, b with
  | WHITE, WHITE | BLACK, BLACK => true
  | _, _ => false
  end.

(** ** The engine interface

    What apiutil.h consumes from types.h, bitboard.h and position.h.
    [piece_to_char pos pc] is [pos.piece_to_char()[pc]].
    [legal_moves_size pos] is [MoveList<LEGAL>(pos).size()]; [None] stands
    for an abnormal exit of that call (an exception leaving it).
    [do_move] and [undo_move] return the position they leave behind. *)

Class Engine := {
  Move : Type;
  Position : Type;
  (* types.h *)
  VALUE_NONE : Value;
  VALUE_DRAW : Value;
  move_type : Move -> MoveType;
  from_sq : Move -> Square;
  to_sq : Move -> Square;
  is_gating : Move -> bool;
  gating_type : Move -> PieceType;
  gating_square : Move -> Square;
  promotion_type : Move -> PieceType;
  dropped_piece_type : Move -> PieceType;
  in_hand_piece_type : Move -> PieceType;
  make_move : Square -> Square -> Move;
  make_piece_promotion : Square -> Square -> Move;
  type_of : Piece -> PieceType;
  make_piece : Color -> PieceType -> Piece;
  file_of : Square -> Z;
  rank_of : Square -> Z;
  relative_rank : Color -> Square -> Z -> Z;
  is_ok : Square -> bool;
  (* bitboard.h *)
  file_bb : Square -> Bitboard;
  rank_bb : Square -> Bitboard;
  forward_file_bb : Color -> Square -> Bitboard;
  DarkSquares : Bitboard;
  (* position.h *)
  side_to_move : Position -> Color;
  moved_piece : Position -> Move -> Piece;
  piece_on : Position -> Square -> Piece;
  unpromoted_piece_on : Position -> Square -> Piece;
  empty : Position -> Square -> bool;
  pieces : Position -> Bitboard;
  pieces_pt : Position -> PieceType -> Bitboard;
  pieces_c : Position -> Color -> Bitboard;
  pieces_cpt : Position -> Color -> PieceType -> Bitboard;
  board_bb : Position -> Color -> PieceType -> Bitboard;
  piece_to_char : Position -> Piece -> ascii;
  piece_to_char_synonyms : Position -> Piece -> ascii;
  max_file : Position -> Z;
  max_rank : Position -> Z;
  capture : Position -> Move -> bool;
  sittuyin_promotion : Position -> bool;
  pseudo_legal : Position -> Move -> bool;
  legal : Position -> Move -> bool;
  promoted_piece_type : Position -> PieceType -> PieceType;
  gives_check : Position -> Move -> bool;
  do_move : Position -> Move -> Position;
  undo_move : Position -> Move -> Position;
  legal_moves_size : Position -> option Z;
  captures_to_hand : Position -> bool;
  count_in_hand : Position -> Color -> PieceType -> Z;
  count : Position -> Color -> PieceType -> Z;
  extinction_value : Position -> Value;
  stalemate_value : Position -> Value;
  capture_the_flag_piece : Position -> PieceType;
  piece_types : Position -> gset PieceType;
  promotion_piece_types : Position -> gset PieceType
}.

Section notation.
Context {E : Enumerators} {G : Engine}.

Definition default_notation (v : Variant) : Notation :=
  if String.eqb (variantTemplate v) "shogi" then NOTATION_SHOGI_HODGES_NUMBER
  else NOTATION_SAN.

Definition is_shogi (n : Notation) : bool :=
  Notation_eqb n NOTATION_SHOGI_HOSKING || Notation_eqb n NOTATION_SHOGI_HODGES
  || Notation_eqb n NOTATION_SHOGI_HODGES_NUMBER.

(** [std::string(1, c)] *)
Definition str1 (c : ascii) : string := String c "".

Definition piece (pos : Position) (m : Move) (n : Notation) : string :=
  let us := side_to_move pos in
  let from := from_sq m in
  let pc := moved_piece pos m in
  let pt := type_of pc in
  (* Quiet pawn moves *)
  if (Notation_eqb n NOTATION_SAN || Notation_eqb n NOTATION_LAN)
     && (type_of pc =? PAWN)%nat && negb (MoveType_eqb (move_type m) DROP)
  then ""
  (* Tandem pawns *)
  else if Notation_eqb n NOTATION_XIANGQI_WXF
          && (2 <? popcount (Z.land (pieces_cpt pos us pt) (file_bb from)))
  then to_string (popcount (Z.land (forward_file_bb us from) (pieces_cpt pos us pt)) + 1)
  (* Moves of promoted pieces *)
  else if is_shogi n && negb (MoveType_eqb (move_type m) DROP)
          && negb (unpromoted_piece_on pos from =? 0)%nat
  then "+" ++ str1 (toupper (piece_to_char pos (unpromoted_piece_on pos from)))
  (* Promoted drops *)
  else if is_shogi n && MoveType_eqb (move_type m) DROP
          && negb (dropped_piece_type m =? in_hand_piece_type m)%nat
  then "+" ++ str1 (toupper (piece_to_char pos (in_hand_piece_type m)))
  else if negb (Ascii.eqb (piece_to_char_synonyms pos pc) " ")
  then str1 (toupper (piece_to_char_synonyms pos pc))
  else str1 (toupper (piece_to_char pos pc)).

Definition file (pos : Position) (s : Square) (n : Notation) : string :=
  match n with
  | NOTATION_SHOGI_HOSKING | NOTATION_SHOGI_HODGES | NOTATION_SHOGI_HODGES_NUMBER =>
      to_string (max_file pos - file_of s + 1)
  | NOTATION_JANGGI => to_string (file_of s + 1)
  | NOTATION_XIANGQI_WXF =>
      to_string ((match side_to_move pos with
                  | WHITE => max_file pos - file_of s
                  | BLACK => file_of s
                  end) + 1)
  | _ => str1 (char_of (code "a" + file_of s))
  end.

Definition rank (pos : Position) (s : Square) (n : Notation) : string :=
  match n with
  | NOTATION_SHOGI_HOSKING | NOTATION_SHOGI_HODGES_NUMBER =>
      to_string (max_rank pos - rank_of s + 1)
  | NOTATION_SHOGI_HODGES => str1 (char_of (code "a" + max_rank pos - rank_of s))
  | NOTATION_JANGGI => to_string (Z.rem (max_rank pos - rank_of s + 1) 10)
  | NOTATION_XIANGQI_WXF =>
      if empty pos s
      then to_string (relative_rank (side_to_move pos) s (max_rank pos) + 1)
      else if negb (Z.land (pieces_cpt pos (side_to_move pos) (type_of (piece_on pos s)))
                           (forward_file_bb (side_to_move pos) s) =? 0)
      then "-"
      else "+"
  | _ => to_string (rank_of s + 1)
  end.

Definition square (pos : Position) (s : Square) (n : Notation) : string :=
  match n with
  | NOTATION_JANGGI => rank pos s n ++ file pos s n
  | _ => file pos s n ++ rank pos s n
  end.

(** The [while (b)] loop of [disambiguation_level]: [others] collects the
    squares [s] of [b], taken by [pop_lsb], that pass the test. *)
Definition disambiguation_others (pos : Position) (from to : Square)
    (n : Notation) (b : Bitboard) : Bitboard :=
  fold_left
    (fun others s =>
       if pseudo_legal pos (make_move s to)
          && legal pos (make_move s to)
          && negb (is_shogi n
                   && negb (unpromoted_piece_on pos s =? unpromoted_piece_on pos from)%nat)
       then Z.lor others (square_bb s)
       else others)
    (squares_of b) 0.

Definition disambiguation_level (pos : Position) (m : Move) (n : Notation)
  : Disambiguation :=
  (* Drops never need disambiguation *)
  if MoveType_eqb (move_type m) DROP then NO_DISAMBIGUATION
  (* NOTATION_LAN and Janggi always use disambiguation *)
  else if Notation_eqb n NOTATION_LAN || Notation_eqb n NOTATION_JANGGI
  then SQUARE_DISAMBIGUATION
  else
    let us := side_to_move pos in
    let from := from_sq m in
    let to := to_sq m in
    let pc := moved_piece pos m in
    let pt := type_of pc in
    (* Xiangqi uses either file disambiguation or +/- if two pieces on file *)
    if Notation_eqb n NOTATION_XIANGQI_WXF then
      (* Disambiguate by rank (+/-) if target square of other piece is valid *)
      if popcount (Z.land (pieces_cpt pos us pt) (file_bb from)) =? 2 then
        let otherFrom :=
          lsb (Z.lxor (Z.land (pieces_cpt pos us pt) (file_bb from)) (square_bb from)) in
        let otherTo := otherFrom + to - from in
        if is_ok otherTo && bb_has (board_bb pos us pt) otherTo
        then RANK_DISAMBIGUATION
        else FILE_DISAMBIGUATION
      else FILE_DISAMBIGUATION
    (* Pawn captures always use disambiguation *)
    else if Notation_eqb n NOTATION_SAN && (pt =? PAWN)%nat && capture pos m
    then FILE_DISAMBIGUATION
    else if Notation_eqb n NOTATION_SAN && (pt =? PAWN)%nat
            && MoveType_eqb (move_type m) PROMOTION && negb (from =? to)
            && sittuyin_promotion pos
    then SQUARE_DISAMBIGUATION
    else
      (* A disambiguation occurs if we have more then one piece of type 'pt'
         that can reach 'to' with a legal move. *)
      let b := Z.lxor (pieces_cpt pos us pt) (square_bb from) in
      let others := disambiguation_others pos from to n b in
      if others =? 0 then NO_DISAMBIGUATION
      else if is_shogi n then SQUARE_DISAMBIGUATION
      else if Z.land others (file_bb from) =? 0 then FILE_DISAMBIGUATION
      else if Z.land others (rank_bb from) =? 0 then RANK_DISAMBIGUATION
      else SQUARE_DISAMBIGUATION.

Definition disambiguation (pos : Position) (s : Square) (n : Notation)
    (d : Disambiguation) : string :=
  match d with
  | FILE_DISAMBIGUATION => file pos s n
  | RANK_DISAMBIGUATION => rank pos s n
  | SQUARE_DISAMBIGUATION => square pos s n
  | NO_DISAMBIGUATION => ""
  end.

(** The text [move_to_san] has built when it reaches "Check and checkmate";
    up to there the position is only read. *)
Definition san_before_check (pos : Position) (m : Move) (n : Notation) : string :=
  let us := side_to_move pos in
  let from := from_sq m in
  let to := to_sq m in
  if MoveType_eqb (move_type m) CASTLING then
    let san := if from <? to then "O-O" else "O-O-O" in
    if is_gating m
    then (san ++ "/" ++ str1 (piece_to_char pos (make_piece WHITE (gating_type m))))
         ++ square pos (gating_square m) n
    else san
  else
    (* Piece *)
    let san := piece pos m n in
    (* Origin square, disambiguation *)
    let d := disambiguation_level pos m n in
    let san := san ++ disambiguation pos from n d in
    (* Separator/Operator *)
    let san :=
      if MoveType_eqb (move_type m) DROP then
        san ++ (if Notation_eqb n NOTATION_SHOGI_HOSKING then "'"
                else if is_shogi n then "*" else "@")
      else if Notation_eqb n NOTATION_XIANGQI_WXF then
        if rank_of from =? rank_of to then san ++ "="
        else if relative_rank us from (max_rank pos) <? relative_rank us to (max_rank pos)
        then san ++ "+"
        else san ++ "-"
      else if capture pos m then san ++ "x"
      else if Notation_eqb n NOTATION_LAN
              || (is_shogi n && (negb (Notation_eqb n NOTATION_SHOGI_HOSKING)
                                 || Disambiguation_eqb d SQUARE_DISAMBIGUATION))
              || Notation_eqb n NOTATION_JANGGI
      then san ++ "-"
      else san in
    (* Destination square *)
    let san :=
      if Notation_eqb n NOTATION_XIANGQI_WXF && negb (MoveType_eqb (move_type m) DROP)
      then san ++ (if file_of to =? file_of from
                   then to_string (Z.abs (rank_of to - rank_of from))
                   else file pos to n)
      else san ++ square pos to n in
    (* Suffix *)
    let san :=
      match move_type m with
      | PROMOTION =>
          san ++ "=" ++ str1 (piece_to_char pos (make_piece WHITE (promotion_type m)))
      | PIECE_PROMOTION =>
          san ++ (if is_shogi n then "+"
                  else "=" ++ str1 (piece_to_char pos
                         (make_piece WHITE
                            (promoted_piece_type pos (type_of (moved_piece pos m))))))
      | PIECE_DEMOTION =>
          san ++ (if is_shogi n then "-"
                  else "=" ++ str1 (piece_to_char pos (unpromoted_piece_on pos from)))
      | NORMAL =>
          if is_shogi n && pseudo_legal pos (make_piece_promotion from to)
          then san ++ "=" else san
      | _ => san
      end in
    if is_gating m
    then san ++ "/" ++ str1 (piece_to_char pos (make_piece WHITE (gating_type m)))
    else san.

(** [move_to_san] takes the position by reference: the result pairs the
    position the caller is left with and the returned text, [None] when the
    call is left by the abnormal exit of [MoveList<LEGAL>]. *)
Definition move_to_san (pos : Position) (m : Move) (n : Notation)
  : Position * option string :=
  let san := san_before_check pos m n in
  (* Check and checkmate *)
  if gives_check pos m && negb (is_shogi n) then
    let pos1 := do_move pos m in
    match legal_moves_size pos1 with
    | Some k =>
        let san := san ++ (if negb (k =? 0) then "+" else "#") in
        let pos2 := undo_move pos1 m in
        (pos2, Some san)
    | None => (pos1, None)
    end
  else (pos, Some san).

(** *** Vocabulary of the statements about [disambiguation_level] *)

(** The pieces of the type and color of the mover on the origin file. *)
Definition on_origin_file (pos : Position) (m : Move) : Bitboard :=
  Z.land (pieces_cpt pos (side_to_move pos) (type_of (moved_piece pos m)))
         (file_bb (from_sq m)).

(** The square a piece on [other] reaches with the displacement of [m]. *)
Definition shifted_target (m : Move) (other : Square) : Square :=
  other + to_sq m - from_sq m.

(** That square is on the board and within the region of the piece. *)
Definition target_valid (pos : Position) (m : Move) (other : Square) : Prop :=
  is_ok (shifted_target m other) = true
  /\ Z.testbit (board_bb pos (side_to_move pos) (type_of (moved_piece pos m)))
               (shifted_target m other) = true.

(** The rank condition with the mover left out of the count: two further
    pieces on the origin file, one of them with a valid target. *)
Definition rank_condition_excluding_mover (pos : Position) (m : Move) : Prop :=
  popcount (Z.lxor (on_origin_file pos m) (square_bb (from_sq m))) = 2
  /\ exists other,
       other <> from_sq m
       /\ Z.testbit (on_origin_file pos m) other = true
       /\ target_valid pos m other.

(** ** hasInsufficientMaterial *)

Definition nonzero (b : Bitboard) : bool := negb (b =? 0).

Definition hasInsufficientMaterial (c : Color) (pos : Position) : bool :=
  (* Other win rules *)
  if captures_to_hand pos
     || negb (count_in_hand pos c ALL_PIECES =? 0)
     || negb (extinction_value pos =? VALUE_NONE)
     || (negb (capture_the_flag_piece pos =? 0)%nat
         && negb (count pos c (capture_the_flag_piece pos) =? 0))
  then false
  else
    (* Restricted pieces *)
    let restricted :=
      fold_left
        (fun restricted pt =>
           if (pt =? KING)%nat
              || negb (nonzero (Z.land (board_bb pos c pt) (board_bb pos (flip c) KING)))
           then Z.lor restricted (pieces_cpt pos c pt)
           else restricted)
        (elements (piece_types pos)) (pieces_cpt pos (flip c) KING) in
    (* Mating pieces *)
    if existsb
         (fun pt =>
            nonzero (Z.land (pieces_cpt pos c pt) (Z.lnot restricted))
            || (negb (count pos c PAWN =? 0)
                && bool_decide (pt ∈ promotion_piece_types pos)))
         [ROOK; QUEEN; ARCHBISHOP; CHANCELLOR; SILVER; GOLD; COMMONER; CENTAUR]
    then false
    else
      (* Color-bound pieces *)
      let colorbound :=
        fold_left
          (fun colorbound pt =>
             Z.lor colorbound (Z.land (pieces_pt pos pt) (Z.lnot restricted)))
          [BISHOP; FERS; FERS_ALFIL; ALFIL; ELEPHANT] 0 in
      let unbound := Z.lxor (Z.lxor (pieces pos) restricted) colorbound in
      if nonzero (Z.land colorbound (pieces_c pos c))
         && ((nonzero (Z.land DarkSquares colorbound)
              && nonzero (Z.land (Z.lnot DarkSquares) colorbound))
             || nonzero unbound)
      then false
      (* Unbound pieces require one helper piece of either color *)
      else if nonzero (Z.land (pieces_c pos c) unbound)
              && ((2 <=? popcount (Z.lxor (pieces pos) restricted))
                  || negb (stalemate_value pos =? VALUE_DRAW))
      then false
      else true.

End notation.

(** ** namespace fen *)

Module fen.

Section with_enumerators.
Context {E : Enumerators}.

Inductive FenValidation :=
| FEN_MISSING_SPACE_DELIM
| FEN_INVALID_NB_PARTS
| FEN_INVALID_CHAR
| FEN_TOUCHING_KINGS
| FEN_INVALID_BOARD_GEOMETRY
| FEN_INVALID_POCKET_INFO
| FEN_INVALID_SIDE_TO_MOVE
| FEN_INVALID_CASTLING_INFO
| FEN_INVALID_EN_PASSANT_SQ
| FEN_INVALID_NUMBER_OF_KINGS
| FEN_INVALID_HALF_MOVE_COUNTER
| FEN_INVALID_MOVE_COUNTER
| FEN_EMPTY
| FEN_OK.

(** The integer code of each enumerator. *)
Definition fen_code (r : FenValidation) : Z :=
  match r with
  | FEN_MISSING_SPACE_DELIM => -12
  | FEN_INVALID_NB_PARTS => -11
  | FEN_INVALID_CHAR => -10
  | FEN_TOUCHING_KINGS => -9
  | FEN_INVALID_BOARD_GEOMETRY => -8
  | FEN_INVALID_POCKET_INFO => -7
  | FEN_INVALID_SIDE_TO_MOVE => -6
  | FEN_INVALID_CASTLING_INFO => -5
  | FEN_INVALID_EN_PASSANT_SQ => -4
  | FEN_INVALID_NUMBER_OF_KINGS => -3
  | FEN_INVALID_HALF_MOVE_COUNTER => -2
  | FEN_INVALID_MOVE_COUNTER => -1
  | FEN_EMPTY => 0
  | FEN_OK => 1
  end.

Inductive Validation := NOK | OK.

Definition is_ok_validation (r : Validation) : bool :=
  match r with OK => true | NOK => false end.

Record CharSquare := mkCharSquare { rowIdx : Z; fileIdx : Z }.

(** The default constructor. *)
Definition CharSquare_none : CharSquare := mkCharSquare (-1) (-1).

Definition CharSquare_eqb (s1 s2 : CharSquare) : bool :=
  (rowIdx s1 =? rowIdx s2) && (fileIdx s1 =? fileIdx s2).

(** [pow(a, 2) + pow(b, 2)] converted back to [int].  The two squares and
    their sum are exact in double precision whenever the sum fits an [int];
    a larger value makes the conversion undefined. *)
Definition non_root_euclidian_distance (s1 s2 : CharSquare) : option Z :=
  int_of ((rowIdx s1 - rowIdx s2) ^ 2 + (fileIdx s1 - fileIdx s2) ^ 2).

(** *** class CharBoard *)

Record CharBoard := mkCharBoard {
  nbRanks : Z;
  nbFiles : Z;
  board : list ascii
}.

Definition CharBoard_new (nbRanks nbFiles : Z) : option CharBoard :=
  if (0 <? nbFiles) && (0 <? nbRanks) && in_int (nbRanks * nbFiles)
  then Some (mkCharBoard nbRanks nbFiles
                         (replicate (Z.to_nat (nbRanks * nbFiles)) " "%char))
  else None.

Definition in_board (b : CharBoard) (idx : Z) : bool :=
  (0 <=? idx) && (idx <? Z.of_nat (List.length (board b))).

Definition set_piece (b : CharBoard) (rankIdx fileIdx : Z) (c : ascii)
  : option CharBoard :=
  let idx := rankIdx * nbFiles b + fileIdx in
  if in_board b idx
  then Some (mkCharBoard (nbRanks b) (nbFiles b) (<[Z.to_nat idx := c]> (board b)))
  else None.

Definition get_piece (b : CharBoard) (rowIdx fileIdx : Z) : option ascii :=
  let idx := rowIdx * nbFiles b + fileIdx in
  if in_board b idx then board b !! Z.to_nat idx else None.

(** [get_piece(r, c) == piece] inside the scanning loops, whose indices stay
    within the board. *)
Definition piece_at (b : CharBoard) (r c : Z) (piece : ascii) : bool :=
  match get_piece b r c with
  | Some x => Ascii.eqb x piece
  | None => false
  end.

(** Returns all square positions for a given piece, in the order of the two
    nested loops (rows upwards, files upwards). *)
Definition get_squares_for_piece (b : CharBoard) (piece : ascii)
  : list CharSquare :=
  r ← seqZ 0 (nbRanks b);
  c ← seqZ 0 (nbFiles b);
  if piece_at b r c piece then [mkCharSquare r c] else [].

(** Returns the square of a given character: the first hit of the same
    scan, the default square when there is none. *)
Definition get_square_for_piece (b : CharBoard) (piece : ascii) : CharSquare :=
  match get_squares_for_piece b piece with
  | s :: _ => s
  | [] => CharSquare_none
  end.

(** Checks if a given character is on a given rank index. *)
Fixpoint is_piece_on_rank_from (b : CharBoard) (piece : ascii) (rowIdx : Z)
    (files : list Z) : option bool :=
  match files with
  | [] => Some false
  | f :: files' =>
      x ← get_piece b rowIdx f;
      if Ascii.eqb x piece then Some true
      else is_piece_on_rank_from b piece rowIdx files'
  end.

Definition is_piece_on_rank (b : CharBoard) (piece : ascii) (rowIdx : Z)
  : option bool :=
  is_piece_on_rank_from b piece rowIdx (seqZ 0 (nbFiles b)).

(** *** Free functions *)

Definition check_for_valid_characters (firstFenPart validSpecialCharacters : string)
    (v : Variant) : Validation :=
  if forallb (fun c => isdigit c || contains c (pieceToChar v)
                       || contains c validSpecialCharacters)
             (chars firstFenPart)
  then OK else NOK.

(** [while (std::getline(ss, curPart, delim))]: [started] records whether the
    call of [getline] in progress has extracted a character; at the end of
    the stream a call that extracted nothing fails and ends the loop. *)
Fixpoint getlines (delim : ascii) (curPart : string) (started : bool)
    (s : string) : list string :=
  match s with
  | EmptyString => if started then [curPart] else []
  | String c s' =>
      if Ascii.eqb c delim then curPart :: getlines delim "" false s'
      else getlines delim (push_back curPart c) true s'
  end.

Definition get_fen_parts (fullFen : string) (delim : ascii) : list string :=
  getlines delim "" false fullFen.

(** [v[i]] on a [std::vector]: undefined out of range. *)
Definition vector_at {A} (l : list A) (i : Z) : option A :=
  if 0 <=? i then l !! Z.to_nat i else None.

(** [s[0]]: the null character for the empty string. *)
Definition char0 (s : string) : ascii :=
  match s with
  | String c _ => c
  | EmptyString => zero
  end.

(** A loop over a fixed list whose body returns [NOK] to leave the
    function. *)
Fixpoint for_each {A} (l : list A) (body : A -> option Validation)
  : option Validation :=
  match l with
  | [] => Some OK
  | x :: l' =>
      r ← body x;
      match r with
      | NOK => Some NOK
      | OK => for_each l' body
      end
  end.

(** *** fill_char_board *)

Record fill_state := mkFill {
  fs_rankIdx : Z;
  fs_fileIdx : Z;
  fs_prevChar : ascii;
  fs_board : CharBoard
}.

Inductive loop_ctl :=
| Proceed (s : fill_state)      (* next character *)
| Break (s : fill_state)        (* [break] *)
| ReturnNOK (s : fill_state).   (* [return NOK] *)

(** The body of the loop over the characters of the board field. *)
Definition fill_char (validSpecialCharacters : string) (v : Variant)
    (c : ascii) (s : fill_state) : option loop_ctl :=
  let b := fs_board s in
  if Ascii.eqb c " " || Ascii.eqb c "[" then Some (Break s)
  else if isdigit c then
    f1 ← int_of (fs_fileIdx s + digit_value c);
    f2 ← (if isdigit (fs_prevChar s)
          then int_of (f1 + 9 * digit_value (fs_prevChar s))
          else Some f1);
    Some (Proceed (mkFill (fs_rankIdx s) f2 c b))
  else if Ascii.eqb c "/" then
    r ← int_of (fs_rankIdx s + 1);
    if negb (fs_fileIdx s =? nbFiles b)
    then Some (ReturnNOK (mkFill r (fs_fileIdx s) (fs_prevChar s) b))
    else if r =? nbRanks b
    then Some (Break (mkFill r (fs_fileIdx s) (fs_prevChar s) b))
    else Some (Proceed (mkFill r 0 c b))
  else if negb (contains c validSpecialCharacters) then
    if fs_fileIdx s =? nbFiles b then Some (ReturnNOK s)
    else
      b' ← set_piece b (maxRank v - fs_rankIdx s) (fs_fileIdx s) c;
      f ← int_of (fs_fileIdx s + 1);
      Some (Proceed (mkFill (fs_rankIdx s) f c b'))
  else Some (Proceed (mkFill (fs_rankIdx s) (fs_fileIdx s) c b)).

Fixpoint fill_loop (validSpecialCharacters : string) (v : Variant)
    (cs : list ascii) (s : fill_state) : option loop_ctl :=
  match cs with
  | [] => Some (Break s)
  | c :: cs' =>
      r ← fill_char validSpecialCharacters v c s;
      match r with
      | Proceed s' => fill_loop validSpecialCharacters v cs' s'
      | _ => Some r
      end
  end.

(** fills the character board according to a given FEN string; the board
    is passed by reference, so the caller sees it whatever is returned. *)
Definition fill_char_board (b : CharBoard) (fenBoard validSpecialCharacters : string)
    (v : Variant) : option (Validation * CharBoard) :=
  r ← fill_loop validSpecialCharacters v (chars fenBoard) (mkFill 0 0 "?" b);
  match r with
  | ReturnNOK s => Some (NOK, fs_board s)
  | Proceed s | Break s =>
      r1 ← int_of (fs_rankIdx s + 1);
      if pieceDrops v then
        if negb (r1 =? nbRanks (fs_board s)) && negb (fs_rankIdx s =? nbRanks (fs_board s))
        then Some (NOK, fs_board s) else Some (OK, fs_board s)
      else
        if negb (r1 =? nbRanks (fs_board s))
        then Some (NOK, fs_board s) else Some (OK, fs_board s)
  end.

(** *** Castling, kings, pockets *)

Fixpoint fill_castling_info_splitted (castlingInfo : list ascii)
    (castlingInfoSplitted : per_color string)
  : Validation * per_color string :=
  match castlingInfo with
  | [] => (OK, castlingInfoSplitted)
  | c :: rest =>
      if negb (Ascii.eqb c "-") then
        if negb (isalpha c) then (NOK, castlingInfoSplitted)
        else if isupper c then
          fill_castling_info_splitted rest
            (set_color castlingInfoSplitted WHITE
               (push_back (at_color castlingInfoSplitted WHITE) (tolower c)))
        else
          fill_castling_info_splitted rest
            (set_color castlingInfoSplitted BLACK
               (push_back (at_color castlingInfoSplitted BLACK) c))
      else fill_castling_info_splitted rest castlingInfoSplitted
  end.

Definition check_960_castling (castlingInfoSplitted : per_color string)
    (b : CharBoard) (kingPositionsStart : per_color CharSquare)
  : option Validation :=
  for_each [WHITE; BLACK] (fun color =>
    for_each ["K"%char; "R"%char] (fun charPiece =>
      if size (at_color castlingInfoSplitted color) =? 0 then Some OK
      else
        let rank := rowIdx (at_color kingPositionsStart color) in
        let charPiece :=
          match color with BLACK => tolower charPiece | WHITE => charPiece end in
        on ← is_piece_on_rank b charPiece rank;
        if negb on then Some NOK else Some OK)).

Definition check_touching_kings (b : CharBoard)
    (kingPositions : per_color CharSquare) : option Validation :=
  d ← non_root_euclidian_distance (at_color kingPositions WHITE)
                                  (at_color kingPositions BLACK);
  if d <=? 2 then Some NOK else Some OK.

Definition check_standard_castling (castlingInfoSplitted : per_color string)
    (b : CharBoard) (kingPositions kingPositionsStart : per_color CharSquare)
    (rookPositionsStart : per_color (list CharSquare)) : option Validation :=
  for_each [WHITE; BLACK] (fun c =>
    if size (at_color castlingInfoSplitted c) =? 0 then Some OK
    else if negb (CharSquare_eqb (at_color kingPositions c)
                                 (at_color kingPositionsStart c))
    then Some NOK
    else
      for_each [KING_SIDE; QUEEN_SIDE] (fun castling =>
        rookStartingSquare ←
          vector_at (at_color rookPositionsStart c)
                    (match castling with QUEEN_SIDE => 0 | KING_SIDE => 1 end);
        let targetChar :=
          match castling with QUEEN_SIDE => "q"%char | KING_SIDE => "k"%char end in
        let rookChar :=
          match c with BLACK => tolower "R" | WHITE => "R"%char end in
        if contains targetChar (at_color castlingInfoSplitted c) then
          x ← get_piece b (rowIdx rookStartingSquare) (fileIdx rookStartingSquare);
          if negb (Ascii.eqb x rookChar) then Some NOK else Some OK
        else Some OK)).

(** The reverse scan of [check_pocket_info]. *)
Fixpoint pocket_scan (v : Variant) (stopChar : ascii) (rev_chars : list ascii)
    (pockets : per_color string) : Validation * per_color string :=
  match rev_chars with
  | [] => (NOK, pockets)
  | c :: rest =>
      if Ascii.eqb c stopChar then (OK, pockets)
      else if negb (Ascii.eqb c "-") then
        if negb (contains c (pieceToChar v)) then (NOK, pockets)
        else if isupper c then
          pocket_scan v stopChar rest
            (set_color pockets WHITE (push_back (at_color pockets WHITE) (tolower c)))
        else
          pocket_scan v stopChar rest
            (set_color pockets BLACK (push_back (at_color pockets BLACK) c))
      else pocket_scan v stopChar rest pockets
  end.

Definition check_pocket_info (fenBoard : string) (nbRanks : Z) (v : Variant)
    (pockets : per_color string) : option (Validation * per_color string) :=
  if count_char "/" fenBoard =? nbRanks then
    Some (pocket_scan v "/" (rev (chars fenBoard)) pockets)
  else
    lastChar ← last (chars fenBoard);
    if negb (Ascii.eqb lastChar "]") then Some (NOK, pockets)
    else Some (pocket_scan v "[" (drop 1 (rev (chars fenBoard))) pockets).

Definition check_number_of_kings (fenBoard : string) (v : Variant)
  : option Validation :=
  k ← string_at (pieceToChar v) (Z.of_nat (KING));
  let nbWhiteKings := to_int (count_char (toupper k) fenBoard) in
  let nbBlackKings := to_int (count_char (tolower k) fenBoard) in
  if negb (nbWhiteKings =? 1) then Some NOK
  else if negb (nbBlackKings =? 1) then Some NOK
  else Some OK.

Definition check_en_passant_square (enPassantInfo : string) : option Validation :=
  let firstChar := char0 enPassantInfo in
  if negb (Ascii.eqb firstChar "-") then
    if negb (size enPassantInfo =? 2) then Some NOK
    else if isdigit firstChar then Some NOK
    else
      secondChar ← string_at enPassantInfo 1;
      if negb (isdigit secondChar) then Some NOK else Some OK
  else Some OK.

Definition no_king_piece_in_pockets (pockets : per_color string) : bool :=
  negb (contains "k" (at_color pockets WHITE))
  && negb (contains "k" (at_color pockets BLACK)).

Definition check_digit_field (field : string) : Validation :=
  if (size field =? 1) && Ascii.eqb (char0 field) "-" then OK
  else if forallb isdigit (chars field) then OK else NOK.

(** *** validate_fen

    The function is one sequence of checks with early returns.  It is
    written here in pieces that follow its comments: the fields checked
    last ([validate_fen_fields], "2) Part" to "7) Part"), the castling part
    ([validate_fen_castling], "3) Part") inside the king block
    ([validate_fen_kings]), and the layout and board checks of
    [validate_fen] itself.  The two inner pieces take what follows the
    king block as [rest]. *)

Definition validSpecialCharacters : string := "/+~[]-".

Definition validate_fen_fields (fenParts : list string) (v : Variant)
  : option FenValidation :=
  let n := Z.of_nat (List.length fenParts) in
  (* 2) Part: check side to move char *)
  sideToMove ← vector_at fenParts 1;
  if negb (Ascii.eqb (char0 sideToMove) "w") && negb (Ascii.eqb (char0 sideToMove) "b")
  then Some FEN_INVALID_SIDE_TO_MOVE
  else
    (* 4) Part: check en-passant square *)
    ep ← (if doubleStep v && bool_decide (PAWN ∈ pieceTypes v)
          then enPassantInfo ← vector_at fenParts 3;
               check_en_passant_square enPassantInfo
          else Some OK);
    match ep with
    | NOK => Some FEN_INVALID_EN_PASSANT_SQ
    | OK =>
        (* 6) Part: check half move counter *)
        halfMove ← vector_at fenParts (n - 2);
        if negb (is_ok_validation (check_digit_field halfMove))
        then Some FEN_INVALID_HALF_MOVE_COUNTER
        else
          (* 7) Part: check move counter *)
          fullMove ← vector_at fenParts (n - 1);
          if negb (is_ok_validation (check_digit_field fullMove))
          then Some FEN_INVALID_MOVE_COUNTER
          else Some FEN_OK
    end.

Definition validate_fen_castling (fenParts : list string) (v : Variant)
    (b : CharBoard) (k : ascii) (kingPositions : per_color CharSquare)
    (rest : option FenValidation) : option FenValidation :=
  (* 3) Part: check castling rights *)
  if castling v then
    castlingInfo ← vector_at fenParts 2;
    let '(ci, castlingInfoSplitted) :=
      fill_castling_info_splitted (chars castlingInfo) ("", "") in
    match ci with
    | NOK => Some FEN_INVALID_CASTLING_INFO
    | OK =>
        if negb (size (at_color castlingInfoSplitted WHITE) =? 0)
           || negb (size (at_color castlingInfoSplitted BLACK) =? 0)
        then
          emptyBoard ← CharBoard_new (nbRanks b) (nbFiles b);
          filled ← fill_char_board emptyBoard (startFen v) validSpecialCharacters v;
          let startBoard := snd filled in
          let kingPositionsStart :=
            (get_square_for_piece startBoard (toupper k),
             get_square_for_piece startBoard (tolower k)) in
          if chess960 v then
            c9 ← check_960_castling castlingInfoSplitted b kingPositionsStart;
            match c9 with
            | NOK => Some FEN_INVALID_CASTLING_INFO
            | OK => rest
            end
          else
            let rookPositionsStart :=
              (get_squares_for_piece startBoard "R",
               get_squares_for_piece startBoard "r") in
            cs ← check_standard_castling castlingInfoSplitted b
                   kingPositions kingPositionsStart rookPositionsStart;
            match cs with
            | NOK => Some FEN_INVALID_CASTLING_INFO
            | OK => rest
            end
        else rest
    end
  else rest.

Definition validate_fen_kings (fenParts : list string) (fenBoard : string)
    (v : Variant) (b : CharBoard) (pockets : per_color string)
    (rest : option FenValidation) : option FenValidation :=
  (* check for number of kings (skip all extinction variants for this check) *)
  if bool_decide (KING ∈ pieceTypes v)
     && (Z.of_nat (base.size (extinctionPieceTypes v)) =? 0)
  then
    nk ← check_number_of_kings fenBoard v;
    match nk with
    | NOK => Some FEN_INVALID_NUMBER_OF_KINGS
    | OK =>
        (* if kings are still in pockets skip this check *)
        if no_king_piece_in_pockets pockets then
          k ← string_at (pieceToChar v) (Z.of_nat KING);
          let kingPositions :=
            (get_square_for_piece b (toupper k), get_square_for_piece b (tolower k)) in
          tk ← check_touching_kings b kingPositions;
          match tk with
          | NOK => Some FEN_TOUCHING_KINGS
          | OK => validate_fen_castling fenParts v b k kingPositions rest
          end
        else rest
    end
  else rest.

(** The pocket strings after the pocket check: untouched without drops. *)
Definition pocket_stage (fenBoard : string) (nbRanks : Z) (v : Variant)
  : option (Validation * per_color string) :=
  if pieceDrops v then check_pocket_info fenBoard nbRanks v ("", "")
  else Some (OK, ("", "")).

Definition validate_fen (fen : string) (v : Variant) : option FenValidation :=
  (* 0) Layout *)
  if size fen =? 0 then Some FEN_EMPTY
  else if negb (contains " " fen) then Some FEN_MISSING_SPACE_DELIM
  else
    let fenParts := get_fen_parts fen " " in
    let starFenParts := get_fen_parts (startFen v) " " in
    let nbFenParts := to_unsigned (Z.of_nat (List.length starFenParts)) in
    let maxNumberFenParts := 7 in
    let topThreshold := Z.min (to_unsigned (nbFenParts + 2)) maxNumberFenParts in
    let n := Z.of_nat (List.length fenParts) in
    if (n <? nbFenParts) || (topThreshold <? n) then Some FEN_INVALID_NB_PARTS
    else
      (* 1) Part *)
      fenBoard ← vector_at fenParts 0;
      match check_for_valid_characters fenBoard validSpecialCharacters v with
      | NOK => Some FEN_INVALID_CHAR
      | OK =>
          let nbRanks := maxRank v + 1 in
          let nbFiles := maxFile v + 1 in
          emptyBoard ← CharBoard_new nbRanks nbFiles;
          filled ← fill_char_board emptyBoard fenBoard validSpecialCharacters v;
          match fst filled with
          | NOK => Some FEN_INVALID_BOARD_GEOMETRY
          | OK =>
              pk ← pocket_stage fenBoard nbRanks v;
              match fst pk with
              | NOK => Some FEN_INVALID_POCKET_INFO
              | OK =>
                  validate_fen_kings fenParts fenBoard v (snd filled) (snd pk)
                    (validate_fen_fields fenParts v)
              end
          end
      end.

(** *** Vocabulary of the statements about [validate_fen] *)

(** The layout checks pass: the run reaches "1) Part". *)
Definition layout_ok (fen : string) (v : Variant) : Prop :=
  let n := Z.of_nat (List.length (get_fen_parts fen " ")) in
  let nbFenParts :=
    to_unsigned (Z.of_nat (List.length (get_fen_parts (startFen v) " "))) in
  fen <> ""
  /\ contains " " fen = true
  /\ nbFenParts <= n <= Z.min (to_unsigned (nbFenParts + 2)) 7.

(** All checks that precede the king block pass, leaving the board [b] and
    the pockets [pockets]. *)
Definition reaches_kings (fen : string) (v : Variant) (fenBoard : string)
    (b : CharBoard) (pockets : per_color string) : Prop :=
  layout_ok fen v
  /\ vector_at (get_fen_parts fen " ") 0 = Some fenBoard
  /\ check_for_valid_characters fenBoard validSpecialCharacters v = OK
  /\ (exists emptyBoard,
        CharBoard_new (maxRank v + 1) (maxFile v + 1) = Some emptyBoard
        /\ fill_char_board emptyBoard fenBoard validSpecialCharacters v = Some (OK, b))
  /\ pocket_stage fenBoard (maxRank v + 1) v = Some (OK, pockets).

(** The king block is entered and passes the number-of-kings and pocket
    tests; [k] is the king letter of the variant. *)
Definition kings_located (v : Variant) (fenBoard : string)
    (pockets : per_color string) (k : ascii) : Prop :=
  KING ∈ pieceTypes v
  /\ base.size (extinctionPieceTypes v) = 0%nat
  /\ check_number_of_kings fenBoard v = Some OK
  /\ no_king_piece_in_pockets pockets = true
  /\ string_at (pieceToChar v) (Z.of_nat KING) = Some k.

Definition king_squares (b : CharBoard) (k : ascii) : per_color CharSquare :=
  (get_square_for_piece b (toupper k), get_square_for_piece b (tolower k)).

Definition rook_squares (b : CharBoard) : per_color (list CharSquare) :=
  (get_squares_for_piece b "R", get_squares_for_piece b "r").

Definition rook_glyph (c : Color) : ascii :=
  match c with WHITE => "R"%char | BLACK => "r"%char end.

Definition side_letter (castling : CastlingRights) : ascii :=
  match castling with KING_SIDE => "k"%char | QUEEN_SIDE => "q"%char end.

(** The start square of the rook of a side: the second rook of the scan of
    the start board for the king side, the first for the queen side. *)
Definition rook_start (startBoard : CharBoard) (c : Color)
    (castling : CastlingRights) : option CharSquare :=
  vector_at (at_color (rook_squares startBoard) c)
            (match castling with KING_SIDE => 1 | QUEEN_SIDE => 0 end).

(** The rook glyph of color [c] stands on its start square of that side. *)
Definition rook_at_start (b startBoard : CharBoard) (c : Color)
    (castling : CastlingRights) : Prop :=
  exists sq, rook_start startBoard c castling = Some sq
             /\ get_piece b (rowIdx sq) (fileIdx sq) = Some (rook_glyph c).

(** The rights requested for color [c] are consistent with the board: the
    king on its start square, and the rook of every requested side on its
    start square. *)
Definition castling_rights_intact (castlingInfoSplitted : per_color string)
    (b startBoard : CharBoard) (k : ascii) (c : Color) : Prop :=
  at_color (king_squares b k) c = at_color (king_squares startBoard k) c
  /\ forall castling,
       contains (side_letter castling) (at_color castlingInfoSplitted c) = true ->
       rook_at_start b startBoard c castling.

(** [startBoard] is the reference board rebuilt from the start FEN of the
    variant, with the dimensions of [b]. *)
Definition start_board_of (v : Variant) (b startBoard : CharBoard) : Prop :=
  exists emptyBoard r,
    CharBoard_new (nbRanks b) (nbFiles b) = Some emptyBoard
    /\ fill_char_board emptyBoard (startFen v) validSpecialCharacters v
       = Some (r, startBoard).

(** The run gets as far as the standard (non-chess960) castling test: the
    kings do not touch, castling is enabled, and the castling field splits
    into the per-color letters [castlingInfoSplitted]. *)
Definition reaches_standard_castling (fen : string) (v : Variant)
    (b : CharBoard) (k : ascii) (castlingInfoSplitted : per_color string)
    (startBoard : CharBoard) : Prop :=
  check_touching_kings b (king_squares b k) = Some OK
  /\ castling v = true
  /\ chess960 v = false
  /\ (exists castlingInfo,
        vector_at (get_fen_parts fen " ") 2 = Some castlingInfo
        /\ fill_castling_info_splitted (chars castlingInfo) ("", "")
           = (OK, castlingInfoSplitted))
  /\ start_board_of v b startBoard.

(** The vector of a board has one cell per square. *)
Definition board_wf (b : CharBoard) : Prop :=
  0 < nbRanks b /\ 0 < nbFiles b
  /\ Z.of_nat (List.length (board b)) = nbRanks b * nbFiles b.

(** [b'] has the dimensions and the vector length of [b]. *)
Definition same_shape (b b' : CharBoard) : Prop :=
  nbRanks b' = nbRanks b /\ nbFiles b' = nbFiles b
  /\ List.length (board b') = List.length (board b).

(** The board a board field leaves behind on a fresh board of the variant;
    the empty board when the run is undefined. *)
Definition board_of (fenBoard : string) (v : Variant) : CharBoard :=
  match (emptyBoard ← CharBoard_new (maxRank v + 1) (maxFile v + 1);
         fill_char_board emptyBoard fenBoard validSpecialCharacters v) with
  | Some (_, b) => b
  | None => mkCharBoard 0 0 []
  end.

(** The state a loop step leaves behind, whatever the control. *)
Definition ctl_state (r : loop_ctl) : fill_state :=
  match r with Proceed s | Break s | ReturnNOK s => s end.

(** The squared distance of two squares, as an integer. *)
Definition squared_distance (s1 s2 : CharSquare) : Z :=
  (rowIdx s1 - rowIdx s2) ^ 2 + (fileIdx s1 - fileIdx s2) ^ 2.

(** The glyph [g] stands on the square of row [r] and file [f] of [b]. *)
Definition stands_on (b : CharBoard) (g : ascii) (r f : Z) : Prop :=
  0 <= r < nbRanks b /\ 0 <= f < nbFiles b /\ get_piece b r f = Some g.

End with_enumerators.

End fen.

(** ** A concrete variant: standard chess, with the piece numbering of
    classical Stockfish ([PAWN = 1] ... [KING = 6], black pieces eight
    higher); the fairy piece types, absent from chess, are numbered on. *)

#[export] Instance classic_enumerators : Enumerators := {|
  ALL_PIECES := 0%nat;
  PAWN := 1%nat;
  BISHOP := 3%nat;
  ROOK := 4%nat;
  QUEEN := 5%nat;
  KING := 6%nat;
  FERS := 16%nat;
  ALFIL := 17%nat;
  FERS_ALFIL := 18%nat;
  SILVER := 19%nat;
  ARCHBISHOP := 20%nat;
  CHANCELLOR := 21%nat;
  GOLD := 22%nat;
  ELEPHANT := 23%nat;
  COMMONER := 24%nat;
  CENTAUR := 25%nat
|}.

Definition chess_variant : Variant := {|
  variantTemplate := "fairy";
  pieceToChar := " PNBRQK  pnbrqk";
  pieceTypes := {[ 1%nat; 2%nat; 3%nat; 4%nat; 5%nat; 6%nat ]};
  extinctionPieceTypes := ∅;
  maxRank := 7;
  maxFile := 7;
  startFen := "rnbqkbnr/pppppppp/8/8/8/8/PPPPPPPP/RNBQKBNR w KQkq - 0 1";
  pieceDrops := false;
  castling := true;
  chess960 := false;
  doubleStep := true
|}.

(** [weak:chess] of variants.ini: chess with the start position of the
    weak army, in which Black has no rook. *)
Definition weak_variant : Variant := {|
  variantTemplate := variantTemplate chess_variant;
  pieceToChar := pieceToChar chess_variant;
  pieceTypes := pieceTypes chess_variant;
  extinctionPieceTypes := extinctionPieceTypes chess_variant;
  maxRank := maxRank chess_variant;
  maxFile := maxFile chess_variant;
  startFen := "nnnnknnn/pppppppp/2p2p2/1pppppp1/8/8/PPPPPPPP/RNBQKBNR w KQ - 0 1";
  pieceDrops := pieceDrops chess_variant;
  castling := castling chess_variant;
  chess960 := chess960 chess_variant;
  doubleStep := doubleStep chess_variant
|}.

(** Crazyhouse, the parent of [3check-crazyhouse] and [coffeehouse] in
    variants.ini: chess with piece drops. *)
Definition crazyhouse_variant : Variant := {|
  variantTemplate := variantTemplate chess_variant;
  pieceToChar := pieceToChar chess_variant;
  pieceTypes := pieceTypes chess_variant;
  extinctionPieceTypes := extinctionPieceTypes chess_variant;
  maxRank := maxRank chess_variant;
  maxFile := maxFile chess_variant;
  startFen := "rnbqkbnr/pppppppp/8/8/8/8/PPPPPPPP/RNBQKBNR[] w KQkq - 0 1";
  pieceDrops := true;
  castling := castling chess_variant;
  chess960 := chess960 chess_variant;
  doubleStep := doubleStep chess_variant
|}.

(** A user-defined variant in the format of variants.ini: crazyhouse with
    the king written [x] ([king = x]). *)
Definition xking_variant : Variant := {|
  variantTemplate := variantTemplate crazyhouse_variant;
  pieceToChar := " PNBRQX  pnbrqx";
  pieceTypes := pieceTypes crazyhouse_variant;
  extinctionPieceTypes := extinctionPieceTypes crazyhouse_variant;
  maxRank := maxRank crazyhouse_variant;
  maxFile := maxFile crazyhouse_variant;
  startFen := "rnbqxbnr/pppppppp/8/8/8/8/PPPPPPPP/RNBQXBNR[] w KQkq - 0 1";
  pieceDrops := pieceDrops crazyhouse_variant;
  castling := castling crazyhouse_variant;
  chess960 := chess960 crazyhouse_variant;
  doubleStep := doubleStep crazyhouse_variant
|}.

(** ** A concrete engine

    A small instance of the engine interface on the square numbering of the
    large-board build (twelve files, ten ranks, [s = 12 * rank + file]).  A
    position lists its men; [do_move] pushes the move on the stack of moves
    made and [undo_move] pops it, so undoing a move just made restores the
    position.  Move legality is not modelled: the position carries the
    answers of the engine. *)

Module Sample.

Record SMove := mkSMove {
  sm_type : MoveType;
  sm_from : Square;
  sm_to : Square
}.

Record SPosition := mkSPosition {
  sp_side : Color;
  sp_men : list (Square * (Color * PieceType));
  sp_made : list SMove;
  sp_check : bool;
  sp_replies : option Z;
  sp_captures_to_hand : bool
}.

Definition bb_of (l : list Square) : Bitboard :=
  fold_right (fun s b => Z.lor (square_bb s) b) 0 l.

Definition men_bb (keep : Color -> PieceType -> bool) (pos : SPosition) : Bitboard :=
  bb_of (map fst (List.filter (fun e => keep (fst (snd e)) (snd (snd e))) (sp_men pos))).

Definition s_file_of (s : Square) : Z := s mod 12.
Definition s_rank_of (s : Square) : Z := s / 12.
Definition s_is_ok (s : Square) : bool := (0 <=? s) && (s <=? 119).
Definition s_file_bb (s : Square) : Bitboard :=
  bb_of (map (fun r => 12 * r + s_file_of s) (seqZ 0 10)).
Definition s_rank_bb (s : Square) : Bitboard :=
  bb_of (map (fun f => 12 * s_rank_of s + f) (seqZ 0 12)).
Definition s_forward_file_bb (c : Color) (s : Square) : Bitboard :=
  bb_of (map (fun r => 12 * r + s_file_of s)
             (match c with
              | WHITE => seqZ (s_rank_of s + 1) (9 - s_rank_of s)
              | BLACK => seqZ 0 (s_rank_of s)
              end)).
Definition s_relative_rank (c : Color) (s : Square) (maxRank : Z) : Z :=
  match c with WHITE => s_rank_of s | BLACK => maxRank - s_rank_of s end.
Definition s_dark_squares : Bitboard :=
  bb_of (List.filter (fun s => Z.even (s_file_of s + s_rank_of s)) (seqZ 0 120)).

Definition s_make_piece (c : Color) (pt : PieceType) : Piece :=
  match c with WHITE => pt | BLACK => (pt + 64)%nat end.
Definition s_type_of (pc : Piece) : PieceType := (pc mod 64)%nat.

Definition s_piece_on (pos : SPosition) (s : Square) : Piece :=
  match List.find (fun e => fst e =? s) (sp_men pos) with
  | Some e => s_make_piece (fst (snd e)) (snd (snd e))
  | None => 0%nat
  end.

Definition s_letters : string := " PNBRQK".

Definition s_piece_to_char (pc : Piece) : ascii :=
  let c := nth (s_type_of pc) (chars s_letters) " "%char in
  if (pc <? 64)%nat then c else tolower c.

#[export] Instance engine : Engine := {|
  Move := SMove;
  Position := SPosition;
  VALUE_NONE := 32002;
  VALUE_DRAW := 0;
  move_type := sm_type;
  from_sq := sm_from;
  to_sq := sm_to;
  is_gating := fun _ => false;
  gating_type := fun _ => 0%nat;
  gating_square := fun _ => 0;
  promotion_type := fun _ => 0%nat;
  dropped_piece_type := fun _ => 0%nat;
  in_hand_piece_type := fun _ => 0%nat;
  make_move := mkSMove NORMAL;
  make_piece_promotion := mkSMove PIECE_PROMOTION;
  type_of := s_type_of;
  make_piece := s_make_piece;
  file_of := s_file_of;
  rank_of := s_rank_of;
  relative_rank := s_relative_rank;
  is_ok := s_is_ok;
  file_bb := s_file_bb;
  rank_bb := s_rank_bb;
  forward_file_bb := s_forward_file_bb;
  DarkSquares := s_dark_squares;
  side_to_move := sp_side;
  moved_piece := fun pos m => s_piece_on pos (sm_from m);
  piece_on := s_piece_on;
  unpromoted_piece_on := fun _ _ => 0%nat;
  empty := fun pos s => (s_piece_on pos s =? 0)%nat;
  pieces := men_bb (fun _ _ => true);
  pieces_pt := fun pos pt => men_bb (fun _ pt' => (pt' =? pt)%nat) pos;
  pieces_c := fun pos c => men_bb (fun c' _ => Color_eqb c' c) pos;
  pieces_cpt := fun pos c pt => men_bb (fun c' pt' => Color_eqb c' c && (pt' =? pt)%nat) pos;
  board_bb := fun _ _ _ => Z.ones 120;
  piece_to_char := fun _ => s_piece_to_char;
  piece_to_char_synonyms := fun _ _ => " "%char;
  max_file := fun _ => 8;
  max_rank := fun _ => 9;
  capture := fun pos m => negb (s_piece_on pos (sm_to m) =? 0)%nat;
  sittuyin_promotion := fun _ => false;
  pseudo_legal := fun _ _ => false;
  legal := fun _ _ => false;
  promoted_piece_type := fun _ pt => pt;
  gives_check := fun pos _ => sp_check pos;
  do_move := fun pos m =>
    mkSPosition (sp_side pos) (sp_men pos) (m :: sp_made pos) (sp_check pos)
                (sp_replies pos) (sp_captures_to_hand pos);
  undo_move := fun pos m =>
    mkSPosition (sp_side pos) (sp_men pos) (tl (sp_made pos)) (sp_check pos)
                (sp_replies pos) (sp_captures_to_hand pos);
  legal_moves_size := sp_replies;
  captures_to_hand := sp_captures_to_hand;
  count_in_hand := fun _ _ _ => 0;
  count := fun pos c pt =>
    popcount (men_bb (fun c' pt' => Color_eqb c' c && (pt' =? pt)%nat) pos);
  extinction_value := fun _ => 32002;
  stalemate_value := fun _ => 0;
  capture_the_flag_piece := fun _ => 0%nat;
  piece_types := fun _ => {[ 1%nat; 2%nat; 3%nat; 4%nat; 5%nat; 6%nat ]};
  promotion_piece_types := fun _ => ∅
|}.

(** Two white rooks on a1 and a3 (squares 0 and 24), kings on e1 and e10;
    the rook on a1 moves to b1. *)
Definition two_rooks (replies : option Z) : SPosition := {|
  sp_side := WHITE;
  sp_men := [(0, (WHITE, 4%nat)); (24, (WHITE, 4%nat));
             (4, (WHITE, 6%nat)); (112, (BLACK, 6%nat))];
  sp_made := [];
  sp_check := true;
  sp_replies := replies;
  sp_captures_to_hand := false
|}.

Definition rook_a1_b1 : SMove := mkSMove NORMAL 0 1.

(** The same men under a rule set where captures go to hand. *)
Definition two_rooks_drops : SPosition := {|
  sp_side := WHITE;
  sp_men := sp_men (two_rooks None);
  sp_made := [];
  sp_check := false;
  sp_replies := Some 1;
  sp_captures_to_hand := true
|}.

End Sample.

(** ** Further vocabulary *)

(** The parts put back together, the delimiter between them. *)
Fixpoint join (delim : ascii) (parts : list string) : string :=
  match parts with
  | [] => ""
  | [p] => p
  | p :: ps => p ++ String delim (join delim ps)
  end.

(** The last character of a string is [c]. *)
Definition ends_with (c : ascii) (s : string) : bool :=
  match last (chars s) with
  | Some x => Ascii.eqb x c
  | None => false
  end.

(** A counter field the validator accepts: a single dash or digits only. *)
Definition dash_or_digits (field : string) : Prop :=
  field = "-" \/ Forall (fun c => isdigit c = true) (chars field).

(** The character [check_pocket_info] scans back to, and the closing
    text it expects after the pocket: a slash and nothing when the board
    field holds [nbRanks] slashes, brackets otherwise. *)
Definition pocket_delims (fenBoard : string) (nbRanks : Z) : ascii * string :=
  if count_char "/" fenBoard =? nbRanks then ("/"%char, "") else ("["%char, "]").

(** The squares a rank of a board field stands for, from the first file
    on: a digit stands for as many empty squares, a character of
    [validSpecialCharacters] for none, any other character for itself. *)
Fixpoint expand_rank (validSpecialCharacters : string) (rank : list ascii)
  : list ascii :=
  match rank with
  | [] => []
  | c :: rest =>
      ((if isdigit c then replicate (Z.to_nat (digit_value c)) " "%char
        else if contains c validSpecialCharacters then []
        else [c])
       ++ expand_rank validSpecialCharacters rest)%list
  end.

(** No digit of [rank] follows a digit, [prev] being the character before
    the first. *)
Fixpoint single_digits (prev : ascii) (rank : list ascii) : bool :=
  match rank with
  | [] => true
  | c :: rest => negb (isdigit prev && isdigit c) && single_digits c rest
  end.

(** A rank of a board field free of separators and of runs of digits. *)
Definition plain_rank (rank : string) : Prop :=
  single_digits "/" (chars rank) = true
  /\ Forall (fun c => c <> "/"%char /\ c <> " "%char /\ c <> "["%char)
       (chars rank).

Section notation_vocabulary.
Context {E : Enumerators} {G : Engine}.

(** Another piece of the type and color of the mover, on [s], that the
    loop of [disambiguation_level] counts: it has a pseudo-legal and legal
    move to the destination and, under a Shogi notation, the promoted
    status of the mover. *)
Definition competitor (pos : Position) (m : Move) (n : Notation) (s : Square)
  : Prop :=
  s <> from_sq m
  /\ Z.testbit (pieces_cpt pos (side_to_move pos) (type_of (moved_piece pos m))) s
     = true
  /\ pseudo_legal pos (make_move s (to_sq m)) = true
  /\ legal pos (make_move s (to_sq m)) = true
  /\ (is_shogi n = true ->
      unpromoted_piece_on pos s = unpromoted_piece_on pos (from_sq m)).

(** The piece types [hasInsufficientMaterial] takes as able to mate. *)
Definition mating_piece_types : list PieceType :=
  [ROOK; QUEEN; ARCHBISHOP; CHANCELLOR; SILVER; GOLD; COMMONER; CENTAUR].

(** The [restricted] bitboard of [hasInsufficientMaterial]: the opposing
    king, the own king, and the own pieces whose region never meets the
    region of the opposing king. *)
Definition restricted_pieces (c : Color) (pos : Position) : Bitboard :=
  fold_left
    (fun restricted pt =>
       if (pt =? KING)%nat
          || negb (nonzero (Z.land (board_bb pos c pt) (board_bb pos (flip c) KING)))
       then Z.lor restricted (pieces_cpt pos c pt)
       else restricted)
    (elements (piece_types pos)) (pieces_cpt pos (flip c) KING).

(** Bitboard inclusion. *)
Definition bb_subset (a b : Bitboard) : Prop :=
  forall s, Z.testbit a s = true -> Z.testbit b s = true.

End notation_vocabulary.

(** A position of the sample engine with the two kings only. *)
Definition lone_kings : Sample.SPosition := {|
  Sample.sp_side := WHITE;
  Sample.sp_men := [(4, (WHITE, 6%nat)); (112, (BLACK, 6%nat))];
  Sample.sp_made := [];
  Sample.sp_check := false;
  Sample.sp_replies := Some 5;
  Sample.sp_captures_to_hand := false
|}.

(** ** Tactics for concrete runs *)

Ltac run := vm_compute; reflexivity.

Ltac solve_reaches_kings :=
  unfold fen.reaches_kings, fen.layout_ok;
  split_and!;
  [ done | reflexivity | vm_compute; done | vm_compute; done | run | run
  | eexists; split; [run|run] | run ].

Ltac solve_kings_located :=
  unfold fen.kings_located;
  split_and!; [ apply (bool_decide_eq_true_1 _); run | run | run | run | run ].

(** * Properties *)

Import fen.

Example validate_start :
  fen.validate_fen "rnbqkbnr/pppppppp/8/8/8/8/PPPPPPPP/RNBQKBNR w KQkq - 0 1"
                   chess_variant = Some fen.FEN_OK.
Proof. vm_compute. reflexivity. Qed.

Example validate_empty v : fen.validate_fen "" v = Some fen.FEN_EMPTY.
Proof. reflexivity. Qed.

Example validate_touching :
  fen.validate_fen "8/8/8/8/8/8/8/3Kk3 w - - 0 1" chess_variant
  = Some fen.FEN_TOUCHING_KINGS.
Proof. vm_compute. reflexivity. Qed.

Example validate_rook_gone :
  fen.validate_fen "rnbqkbnr/pppppppp/8/8/8/8/PPPPPPPP/RNBQKBN1 w K - 0 1"
                   chess_variant = Some fen.FEN_INVALID_CASTLING_INFO.
Proof. vm_compute. reflexivity. Qed.

Example validate_empty_counters :
  fen.validate_fen "rnbqkbnr/pppppppp/8/8/8/8/PPPPPPPP/RNBQKBNR w KQkq -   "
                   chess_variant = Some fen.FEN_OK.
Proof. vm_compute. reflexivity. Qed.

Example get_fen_parts_consecutive_spaces :
  fen.get_fen_parts "a b  c  " " " = ["a"; "b"; ""; "c"; ""].
Proof. reflexivity. Qed.

(** ** The FEN validator *)

Section fen_properties.
Context {E : Enumerators}.

Lemma size_zero s : (size s =? 0) = true <-> s = "".
Proof.
  unfold size. destruct s; simpl; split; intros H; done.
Qed.

Lemma int_of_Some z r : int_of z = Some r -> r = z.
Proof. unfold int_of. case_match; congruence. Qed.

(** Which codes the last block can return. *)
Lemma validate_fen_fields_codes parts v c :
  validate_fen_fields parts v = Some c ->
  c = FEN_INVALID_SIDE_TO_MOVE \/ c = FEN_INVALID_EN_PASSANT_SQ
  \/ c = FEN_INVALID_HALF_MOVE_COUNTER \/ c = FEN_INVALID_MOVE_COUNTER
  \/ c = FEN_OK.
Proof.
  unfold validate_fen_fields. intros H.
  repeat (case_match; simplify_option_eq); auto.
Qed.

(** Which codes the king and castling block can return, and under which
    guards. *)
Lemma validate_fen_kings_codes parts fenBoard v b pockets rest c :
  validate_fen_kings parts fenBoard v b pockets rest = Some c ->
  rest = Some c
  \/ ((KING ∈ pieceTypes v /\ base.size (extinctionPieceTypes v) = 0%nat)
      /\ (c = FEN_INVALID_NUMBER_OF_KINGS
          \/ (no_king_piece_in_pockets pockets = true
              /\ (c = FEN_TOUCHING_KINGS \/ c = FEN_INVALID_CASTLING_INFO)))).
Proof.
  unfold validate_fen_kings. intros H.
  destruct (bool_decide (KING ∈ pieceTypes v)
            && (Z.of_nat (base.size (extinctionPieceTypes v)) =? 0)) eqn:Hg;
    [|by left].
  apply andb_prop in Hg as [Hk He].
  apply bool_decide_eq_true in Hk. apply Z.eqb_eq in He.
  assert (base.size (extinctionPieceTypes v) = 0%nat) as He' by lia.
  unfold validate_fen_castling in H.
  repeat (case_match; simplify_option_eq); auto 10.
Qed.

Lemma validate_fen_castling_codes parts v b k kingPositions rest c :
  validate_fen_castling parts v b k kingPositions rest = Some c ->
  rest = Some c \/ c = FEN_INVALID_CASTLING_INFO.
Proof.
  unfold validate_fen_castling. intros H.
  repeat (case_match; simplify_option_eq); auto.
Qed.

Lemma validate_fen_reaches_kings fen v fenBoard b pockets :
  reaches_kings fen v fenBoard b pockets ->
  validate_fen fen v
  = validate_fen_kings (get_fen_parts fen " ") fenBoard v b pockets
      (validate_fen_fields (get_fen_parts fen " ") v).
Proof.
  intros ((Hne & Hsp & Hlo & Hhi) & H0 & Hch & (eb & Hnew & Hfill) & Hpk).
  unfold validate_fen.
  destruct (size fen =? 0) eqn:Hs; [apply size_zero in Hs; done|].
  rewrite Hsp. simpl.
  destruct (_ || _) eqn:Hn.
  { apply orb_prop in Hn as [Hn|Hn]; apply Z.ltb_lt in Hn; lia. }
  rewrite H0. simpl. rewrite Hch, Hnew. simpl. rewrite Hfill. simpl.
  rewrite Hpk. reflexivity.
Qed.

(** What [validate_fen] can return once the layout checks are passed. *)
Lemma validate_fen_not_layout_code fen v c :
  validate_fen fen v = Some c ->
  c = FEN_INVALID_NB_PARTS -> 
  let n := Z.of_nat (List.length (get_fen_parts fen " ")) in
  let nbFenParts :=
    to_unsigned (Z.of_nat (List.length (get_fen_parts (startFen v) " "))) in
  n < nbFenParts \/ Z.min (to_unsigned (nbFenParts + 2)) 7 < n.
Proof.
  unfold validate_fen. intros H ->. 
  repeat (case_match; simplify_option_eq);
    try match goal with
    | H : validate_fen_kings _ _ _ _ _ _ = Some _ |- _ =>
        apply validate_fen_kings_codes in H as [H|(_ & [H|(_ & [H|H])])];
        [apply validate_fen_fields_codes in H; naive_solver|done..]
    end.
  all: match goal with
       | H : (_ || _) = true |- _ =>
           apply orb_prop in H as [H|H]; apply Z.ltb_lt in H; auto
       end.
Qed.

(** A code of the last block comes from the last block. *)
Lemma validate_fen_fields_code fen v c :
  validate_fen fen v = Some c ->
  c = FEN_INVALID_SIDE_TO_MOVE \/ c = FEN_INVALID_EN_PASSANT_SQ
  \/ c = FEN_INVALID_HALF_MOVE_COUNTER \/ c = FEN_INVALID_MOVE_COUNTER
  \/ c = FEN_OK ->
  validate_fen_fields (get_fen_parts fen " ") v = Some c.
Proof.
  unfold validate_fen. intros H Hc.
  repeat (case_match; simplify_option_eq); try naive_solver.
  match goal with
  | H : validate_fen_kings _ _ _ _ _ _ = Some _ |- _ =>
      apply validate_fen_kings_codes in H as [H|(_ & [H|(_ & [H|H])])]
  end; naive_solver.
Qed.

(** C5.  For a non-empty FEN that contains a space, with [expected] the
    number of space-separated parts of the start FEN of the variant (fewer
    than [2^32], so that the [unsigned int] holding it is exact),
    [validate_fen] returns [FEN_INVALID_NB_PARTS] if and only if the number
    of parts of the input is less than [expected] or greater than
    [min (expected + 2) 7]. *)
Theorem validate_fen_nb_parts fen v :
  let expected := Z.of_nat (List.length (get_fen_parts (startFen v) " ")) in
  let n := Z.of_nat (List.length (get_fen_parts fen " ")) in
  fen <> "" ->
  contains " " fen = true ->
  expected < 2 ^ 32 ->
  validate_fen fen v = Some FEN_INVALID_NB_PARTS
  <-> (n < expected \/ n > Z.min (expected + 2) 7).
Proof.
  intros expected n Hne Hsp Hexp.
  assert (to_unsigned expected = expected) as He.
  { unfold to_unsigned. apply Z.mod_small. lia. }
  assert (n < expected \/ n > Z.min (expected + 2) 7
          <-> n < expected \/ Z.min (to_unsigned (expected + 2)) 7 < n) as ->.
  { unfold to_unsigned.
    destruct (Z_lt_dec (expected + 2) (2 ^ 32)).
    - rewrite Z.mod_small by lia. lia.
    - pose proof (Z.mod_pos_bound (expected + 2) (2 ^ 32) ltac:(lia)). lia. }
  split.
  - intros H. apply validate_fen_not_layout_code in H; [|done].
    fold expected in H. rewrite He in H. exact H.
  - intros H. unfold validate_fen.
    destruct (size fen =? 0) eqn:Hs; [apply size_zero in Hs; done|].
    rewrite Hsp. simpl. fold expected n. rewrite He.
    destruct H as [H|H].
    + apply Z.ltb_lt in H. by rewrite H.
    + apply Z.ltb_lt in H. rewrite H. by rewrite orb_true_r.
Qed.

(** C9.  [check_digit_field] accepts the empty string, so a FEN whose
    second-to-last part is empty is never rejected as
    [FEN_INVALID_HALF_MOVE_COUNTER], and a FEN whose last part is empty is
    never rejected as [FEN_INVALID_MOVE_COUNTER]. *)
Theorem check_digit_field_empty fen v :
  let parts := get_fen_parts fen " " in
  let n := Z.of_nat (List.length parts) in
  check_digit_field "" = OK
  /\ (vector_at parts (n - 2) = Some "" ->
      validate_fen fen v <> Some FEN_INVALID_HALF_MOVE_COUNTER)
  /\ (vector_at parts (n - 1) = Some "" ->
      validate_fen fen v <> Some FEN_INVALID_MOVE_COUNTER).
Proof.
  intros parts n. split; [reflexivity|].
  split; intros Hempty H; apply validate_fen_fields_code in H; try naive_solver;
    fold parts in H; unfold validate_fen_fields in H; fold n in H;
    repeat (case_match; simplify_option_eq).
Qed.

(** X28.  [validate_fen] returns [FEN_INVALID_CASTLING_INFO],
    [FEN_TOUCHING_KINGS] or [FEN_INVALID_NUMBER_OF_KINGS] only for a variant
    with a royal king and no extinction piece types, and the first two only
    when neither pocket read from the board field holds the letter [k].
    For a variant without a royal king, or with extinction piece types, the
    king block is skipped as a whole: it is what follows it, [rest]. *)
Theorem validate_fen_king_codes_guarded fen v :
  (forall c,
      validate_fen fen v = Some c ->
      (c = FEN_INVALID_CASTLING_INFO \/ c = FEN_TOUCHING_KINGS
       \/ c = FEN_INVALID_NUMBER_OF_KINGS ->
       KING ∈ pieceTypes v /\ base.size (extinctionPieceTypes v) = 0%nat)
      /\ (c = FEN_INVALID_CASTLING_INFO \/ c = FEN_TOUCHING_KINGS ->
          exists fenBoard pockets,
            vector_at (get_fen_parts fen " ") 0 = Some fenBoard
            /\ pocket_stage fenBoard (maxRank v + 1) v = Some (OK, pockets)
            /\ contains "k" (at_color pockets WHITE) = false
            /\ contains "k" (at_color pockets BLACK) = false))
  /\ (forall parts fenBoard b pockets rest,
         ~ (KING ∈ pieceTypes v /\ base.size (extinctionPieceTypes v) = 0%nat) ->
         validate_fen_kings parts fenBoard v b pockets rest = rest).
Proof.
  split.
  - intros c H.
    assert (c = FEN_INVALID_CASTLING_INFO \/ c = FEN_TOUCHING_KINGS
            \/ c = FEN_INVALID_NUMBER_OF_KINGS ->
            exists fenBoard filled pk,
              vector_at (get_fen_parts fen " ") 0 = Some fenBoard
              /\ pocket_stage fenBoard (maxRank v + 1) v = Some pk
              /\ fst pk = OK
              /\ validate_fen_kings (get_fen_parts fen " ") fenBoard v
                   filled (snd pk) (validate_fen_fields (get_fen_parts fen " ") v)
                 = Some c) as Hk.
    { intros Hc. unfold validate_fen in H.
      repeat (case_match; simplify_option_eq); try naive_solver. }
    split; intros Hc.
    + destruct Hk as (fb & filled & pk & _ & _ & _ & Hk); [naive_solver|].
      apply validate_fen_kings_codes in Hk as [Hk|Hk]; [|naive_solver].
      apply validate_fen_fields_codes in Hk. naive_solver.
    + destruct Hk as (fb & filled & [r pk] & H0 & Hp & Hr & Hk); [naive_solver|].
      simpl in *. subst r. exists fb, pk. split; [done|]. split; [done|].
      apply validate_fen_kings_codes in Hk as [Hk|Hk].
      { apply validate_fen_fields_codes in Hk. naive_solver. }
      assert (no_king_piece_in_pockets pk = true) as Hno by naive_solver.
      unfold no_king_piece_in_pockets in Hno.
      apply andb_prop in Hno as [Hw Hb].
      apply negb_true_iff in Hw, Hb. done.
  - intros parts fb b pk rest Hg. unfold validate_fen_kings.
    destruct (bool_decide (KING ∈ pieceTypes v)
              && (Z.of_nat (base.size (extinctionPieceTypes v)) =? 0)) eqn:Hb;
      [|done].
    apply andb_prop in Hb as [Hk He].
    apply bool_decide_eq_true in Hk. apply Z.eqb_eq in He.
    destruct Hg. split; [done|lia].
Qed.

(** The king block once the kings are located: what is left is the
    touching-kings test and the castling part. *)
Lemma validate_fen_kings_located parts fenBoard v b pockets k rest :
  kings_located v fenBoard pockets k ->
  validate_fen_kings parts fenBoard v b pockets rest
  = tk ← check_touching_kings b (king_squares b k);
    match tk with
    | NOK => Some FEN_TOUCHING_KINGS
    | OK => validate_fen_castling parts v b k (king_squares b k) rest
    end.
Proof.
  intros (Hk & He & Hn & Hp & Hs). unfold validate_fen_kings.
  rewrite bool_decide_eq_true_2 by done. rewrite He. simpl.
  rewrite Hn. simpl. rewrite Hp, Hs. reflexivity.
Qed.

(** The touching-kings code in terms of the two squares
    [get_square_for_piece] returns for the king glyphs. *)
Lemma validate_fen_touching_kings_squares fen v fenBoard b pockets k :
  let kw := at_color (king_squares b k) WHITE in
  let kb := at_color (king_squares b k) BLACK in
  reaches_kings fen v fenBoard b pockets ->
  kings_located v fenBoard pockets k ->
  (validate_fen fen v = Some FEN_TOUCHING_KINGS <-> squared_distance kw kb <= 2)
  /\ (squared_distance kw kb <= 2
      <-> Z.abs (rowIdx kw - rowIdx kb) <= 1 /\ Z.abs (fileIdx kw - fileIdx kb) <= 1).
Proof.
  intros kw kb Hr Hl. split.
  - rewrite (validate_fen_reaches_kings _ _ _ _ _ Hr).
    rewrite (validate_fen_kings_located _ _ _ _ _ _ _ Hl).
    unfold check_touching_kings, non_root_euclidian_distance.
    fold kw kb. fold (squared_distance kw kb).
    assert (0 <= squared_distance kw kb) as Hpos by (unfold squared_distance; nia).
    unfold int_of, in_int, INT_MIN, INT_MAX.
    destruct (Z.leb_spec (squared_distance kw kb) 2) as [Hd|Hd].
    + rewrite (proj2 (Z.leb_le _ _)) by lia.
      rewrite (proj2 (Z.leb_le _ _)) by lia. simpl.
      rewrite (proj2 (Z.leb_le _ _)) by lia. done.
    + split; [|lia]. intros H. exfalso.
      destruct (_ && _); simpl in H; [|done].
      rewrite (proj2 (Z.leb_gt _ _)) in H by lia.
      apply validate_fen_castling_codes in H as [H|H]; [|done].
      apply validate_fen_fields_codes in H. naive_solver.
  - unfold squared_distance. split; [nia|]. intros [H1 H2].
    assert (-1 <= rowIdx kw - rowIdx kb <= 1) by lia.
    assert (-1 <= fileIdx kw - fileIdx kb <= 1) by lia. nia.
Qed.

(** *** The board keeps its shape *)

Lemma CharBoard_new_wf nr nf b : CharBoard_new nr nf = Some b ->
  board_wf b /\ nbRanks b = nr /\ nbFiles b = nf.
Proof.
  unfold CharBoard_new, board_wf. intros H. case_match; [|done].
  simplify_eq. simpl. rewrite length_replicate.
  repeat (apply andb_prop in H0 as [H0 ?]).
  apply Z.ltb_lt in H0. apply Z.ltb_lt in H1. nia.
Qed.

Lemma same_shape_refl b : same_shape b b.
Proof. by unfold same_shape. Qed.

Lemma same_shape_trans b1 b2 b3 :
  same_shape b1 b2 -> same_shape b2 b3 -> same_shape b1 b3.
Proof. unfold same_shape. intros (? & ? & ?) (? & ? & ?). split_and!; congruence. Qed.

Lemma set_piece_shape b r f c b' : set_piece b r f c = Some b' -> same_shape b b'.
Proof.
  unfold set_piece, same_shape. intros H. case_match; [|done].
  simplify_eq. simpl. by rewrite length_insert.
Qed.

Lemma fill_char_shape sp v c s r :
  fill_char sp v c s = Some r -> same_shape (fs_board s) (fs_board (ctl_state r)).
Proof.
  unfold fill_char. intros H.
  repeat (case_match; simplify_option_eq); simpl;
    eauto using same_shape_refl, set_piece_shape.
Qed.

Lemma fill_loop_shape sp v cs s r :
  fill_loop sp v cs s = Some r -> same_shape (fs_board s) (fs_board (ctl_state r)).
Proof.
  revert s. induction cs as [|c cs IH]; intros s H; simpl in H.
  - simplify_eq. apply same_shape_refl.
  - destruct (fill_char sp v c s) as [r'|] eqn:Hc; [|done]. simpl in H.
    apply fill_char_shape in Hc.
    destruct r'; simplify_eq; eauto using same_shape_trans.
Qed.

Lemma fill_char_board_shape b fenBoard sp v r b' :
  fill_char_board b fenBoard sp v = Some (r, b') -> same_shape b b'.
Proof.
  unfold fill_char_board. intros H.
  destruct (fill_loop _ _ _ _) as [r'|] eqn:Hl; [|done]. simpl in H.
  apply fill_loop_shape in Hl. simpl in Hl.
  destruct r'; simpl in *; repeat (case_match; simplify_option_eq);
    simplify_eq; assumption.
Qed.

Lemma same_shape_wf b b' : board_wf b -> same_shape b b' -> board_wf b'.
Proof.
  unfold board_wf, same_shape. intros (? & ? & ?) (-> & -> & ->). done.
Qed.

(** The squares found by a scan lie on the board. *)
Lemma get_squares_for_piece_bounds b piece sq :
  sq ∈ get_squares_for_piece b piece ->
  0 <= rowIdx sq < nbRanks b /\ 0 <= fileIdx sq < nbFiles b
  /\ piece_at b (rowIdx sq) (fileIdx sq) piece = true.
Proof.
  unfold get_squares_for_piece. intros H.
  apply list_elem_of_bind in H as (r & H & Hr).
  apply list_elem_of_bind in H as (c & H & Hc).
  apply elem_of_seqZ in Hr, Hc.
  destruct (piece_at b r c piece) eqn:Hp.
  - apply list_elem_of_singleton in H. subst sq. simpl. split_and!; try lia. done.
  - by apply elem_of_nil in H.
Qed.

Lemma get_piece_defined b r f :
  board_wf b -> 0 <= r < nbRanks b -> 0 <= f < nbFiles b ->
  is_Some (get_piece b r f).
Proof.
  unfold board_wf, get_piece, in_board. intros (Hr & Hf & Hl) ? ?.
  assert (0 <= r * nbFiles b + f < nbRanks b * nbFiles b) by nia.
  rewrite (proj2 (Z.leb_le _ _)) by lia.
  rewrite (proj2 (Z.ltb_lt _ _)) by lia. simpl.
  apply lookup_lt_is_Some. lia.
Qed.

Lemma reaches_kings_wf fen v fenBoard b pockets :
  reaches_kings fen v fenBoard b pockets -> board_wf b.
Proof.
  intros (_ & _ & _ & (eb & Hnew & Hfill) & _).
  apply CharBoard_new_wf in Hnew as (Hwf & _).
  apply fill_char_board_shape in Hfill. eauto using same_shape_wf.
Qed.

Lemma start_board_of_shape v b startBoard :
  start_board_of v b startBoard ->
  nbRanks startBoard = nbRanks b /\ nbFiles startBoard = nbFiles b.
Proof.
  intros (eb & r & Hnew & Hfill).
  apply CharBoard_new_wf in Hnew as (_ & Hr & Hf).
  apply fill_char_board_shape in Hfill as (? & ? & _). split; congruence.
Qed.

(** *** Loops with early return *)

Lemma for_each_OK {A} (l : list A) body :
  for_each l body = Some OK -> forall x, x ∈ l -> body x = Some OK.
Proof.
  induction l as [|y l IH]; intros H x Hx; [by apply elem_of_nil in Hx|].
  simpl in H. destruct (body y) as [[]|] eqn:Hy; simplify_eq/=.
  apply elem_of_cons in Hx as [->|Hx]; auto.
Qed.

Lemma for_each_defined {A} (l : list A) body :
  (forall x, x ∈ l -> is_Some (body x)) -> is_Some (for_each l body).
Proof.
  induction l as [|y l IH]; intros H; simpl; [by eexists|].
  destruct (H y) as [r Hr]; [by left|]. rewrite Hr. simpl.
  destruct r; [by eexists|]. apply IH. intros x Hx. apply H. by right.
Qed.

Lemma size_nonempty s : s <> "" -> (size s =? 0) = false.
Proof.
  intros H. destruct (size s =? 0) eqn:Hs; [|done]. by apply size_zero in Hs.
Qed.

Lemma CharSquare_eqb_eq s1 s2 : CharSquare_eqb s1 s2 = true <-> s1 = s2.
Proof.
  destruct s1, s2. unfold CharSquare_eqb. simpl.
  rewrite andb_true_iff, !Z.eqb_eq. naive_solver.
Qed.

(** *** check_standard_castling *)

Lemma check_standard_castling_result info b startBoard k :
  board_wf b ->
  nbRanks startBoard = nbRanks b -> nbFiles startBoard = nbFiles b ->
  (forall c, at_color info c <> "" ->
             (2 <= List.length (at_color (rook_squares startBoard) c))%nat) ->
  exists r,
    check_standard_castling info b (king_squares b k) (king_squares startBoard k)
                            (rook_squares startBoard) = Some r
    /\ (r = OK ->
        forall c, at_color info c <> "" -> castling_rights_intact info b startBoard k c).
Proof.
  intros Hwf Hnr Hnf Hrooks.
  assert (is_Some (check_standard_castling info b (king_squares b k)
                     (king_squares startBoard k) (rook_squares startBoard))) as [r Hr].
  { unfold check_standard_castling. apply for_each_defined. intros c _.
    destruct (size (at_color info c) =? 0) eqn:Hs; [by eexists|].
    destruct (negb _); [by eexists|].
    apply for_each_defined. intros castling _.
    assert (at_color info c <> "") as Hne.
    { intros Hz. rewrite Hz in Hs. done. }
    specialize (Hrooks c Hne).
    assert (is_Some (vector_at (at_color (rook_squares startBoard) c)
                       match castling with QUEEN_SIDE => 0 | KING_SIDE => 1 end))
      as [sq Hsq].
    { unfold vector_at. destruct castling; simpl; apply lookup_lt_is_Some; lia. }
    rewrite Hsq. simpl. destruct (contains _ _); [|by eexists].
    assert (sq ∈ at_color (rook_squares startBoard) c) as Hin.
    { unfold vector_at in Hsq. case_match; [|done].
      by eapply list_elem_of_lookup_2. }
    assert (exists p, sq ∈ get_squares_for_piece startBoard p) as [p Hp].
    { destruct c; eexists; exact Hin. }
    apply get_squares_for_piece_bounds in Hp as (Hrow & Hfile & _).
    rewrite Hnr in Hrow. rewrite Hnf in Hfile.
    destruct (get_piece_defined b _ _ Hwf Hrow Hfile) as [x Hx].
    rewrite Hx. simpl. destruct (negb _); by eexists. }
  exists r. split; [done|]. intros -> c Hne.
  unfold check_standard_castling in Hr.
  assert (c ∈ [WHITE; BLACK]) as Hin by (destruct c; set_solver).
  pose proof (for_each_OK _ _ Hr c Hin) as Hc. cbv beta in Hc.
  rewrite (size_nonempty _ Hne) in Hc.
  destruct (CharSquare_eqb _ _) eqn:Hk; [|done]. cbn [negb] in Hc.
  apply CharSquare_eqb_eq in Hk. split; [done|].
  intros castling Hreq.
  assert (castling ∈ [KING_SIDE; QUEEN_SIDE]) as Hin' by (destruct castling; set_solver).
  pose proof (for_each_OK _ _ Hc castling Hin') as Hs. cbv beta in Hs.
  unfold rook_at_start, rook_start.
  destruct (vector_at _ _) as [sq|] eqn:Hsq; [|by destruct castling].
  exists sq. split; [by destruct castling|]. simpl in Hs.
  assert (contains match castling with QUEEN_SIDE => "q"%char | KING_SIDE => "k"%char end
                   (at_color info c) = true) as Hreq' by (by destruct castling).
  rewrite Hreq' in Hs.
  destruct (get_piece b (rowIdx sq) (fileIdx sq)) as [x|]; [|done]. simpl in Hs.
  destruct (Ascii.eqb x _) eqn:Hx; [|done].
  apply Ascii.eqb_eq in Hx. subst x. by destruct c.
Qed.


(** *** fill_char on digits *)

Lemma isdigit_not_break c :
  isdigit c = true -> (Ascii.eqb c " " || Ascii.eqb c "[") = false.
Proof.
  destruct c as [[] [] [] [] [] [] [] []]; vm_compute; congruence.
Qed.

Lemma isdigit_value c : isdigit c = true -> 0 <= digit_value c <= 9.
Proof.
  unfold isdigit, digit_value. intros H. apply andb_prop in H as [H1 H2].
  apply Z.leb_le in H1, H2. lia.
Qed.

Lemma int_of_in z : in_int z = true -> int_of z = Some z.
Proof. unfold int_of. by intros ->. Qed.

Lemma in_int_between a z b :
  in_int a = true -> in_int b = true -> a <= z <= b -> in_int z = true.
Proof.
  unfold in_int. rewrite !andb_true_iff, !Z.leb_le. lia.
Qed.

(** C8 (amended).  In [fill_char] a digit advances the file index by its
    value, plus nine times the value of the preceding character when that
    is a digit too; hence two consecutive digits [d1 d2], the first of which
    does not itself follow a digit, advance it by [10 * d1 + d2]. *)
Theorem fill_char_digits sp v s :
  (forall c r,
      isdigit c = true ->
      fill_char sp v c s = Some r ->
      exists s',
        r = Proceed s'
        /\ fs_fileIdx s'
           = fs_fileIdx s + digit_value c
             + (if isdigit (fs_prevChar s) then 9 * digit_value (fs_prevChar s) else 0)
        /\ fs_prevChar s' = c /\ fs_rankIdx s' = fs_rankIdx s
        /\ fs_board s' = fs_board s)
  /\ (forall d1 d2,
         isdigit d1 = true -> isdigit d2 = true ->
         isdigit (fs_prevChar s) = false ->
         in_int (fs_fileIdx s) = true ->
         in_int (fs_fileIdx s + (10 * digit_value d1 + digit_value d2)) = true ->
         exists s1 s2,
           fill_char sp v d1 s = Some (Proceed s1)
           /\ fill_char sp v d2 s1 = Some (Proceed s2)
           /\ fs_fileIdx s2 = fs_fileIdx s + (10 * digit_value d1 + digit_value d2)
           /\ fs_rankIdx s2 = fs_rankIdx s /\ fs_board s2 = fs_board s).
Proof.
  split.
  - intros c r Hc H. unfold fill_char in H.
    rewrite (isdigit_not_break _ Hc), Hc in H.
    destruct (int_of (fs_fileIdx s + digit_value c)) as [f1|] eqn:H1; [|done].
    apply int_of_Some in H1. subst f1. cbn [mbind option_bind] in H.
    destruct (isdigit (fs_prevChar s)).
    + destruct (int_of _) as [f2|] eqn:H2; [|done].
      apply int_of_Some in H2. subst f2. simplify_eq/=. eauto 10.
    + simplify_eq/=. eexists. split; [done|]. simpl. split_and!; try done. lia.
  - intros d1 d2 Hd1 Hd2 Hp Hi Hf.
    pose proof (isdigit_value _ Hd1). pose proof (isdigit_value _ Hd2).
    eexists (mkFill _ _ _ _), (mkFill _ _ _ _). split_and!.
    + unfold fill_char. rewrite (isdigit_not_break _ Hd1), Hd1, Hp.
      rewrite int_of_in by (eapply in_int_between; [exact Hi|exact Hf|lia]).
      reflexivity.
    + unfold fill_char. rewrite (isdigit_not_break _ Hd2), Hd2. simpl. rewrite Hd1.
      rewrite int_of_in by (eapply in_int_between; [exact Hi|exact Hf|lia]).
      cbn [mbind option_bind].
      rewrite int_of_in by (eapply in_int_between; [exact Hi|exact Hf|lia]).
      reflexivity.
    + simpl. lia.
    + done.
    + done.
Qed.

End fen_properties.

(** C8: after a first digit, two further digits do not count as the
    two-digit number: in the run "100" the pair "00" moves the file index
    from 1 to 10. *)
Lemma fill_char_third_digit :
  let b := mkCharBoard 10 10 (replicate 100 " "%char) in
  exists s0 s1 s2,
    fill_char validSpecialCharacters chess_variant "1" (mkFill 0 0 "?" b)
    = Some (Proceed s0)
    /\ fill_char validSpecialCharacters chess_variant "0" s0 = Some (Proceed s1)
    /\ fill_char validSpecialCharacters chess_variant "0" s1 = Some (Proceed s2)
    /\ fs_fileIdx s0 = 1 /\ fs_fileIdx s2 = 10
    /\ fs_fileIdx s2 <> fs_fileIdx s0 + (10 * digit_value "0" + digit_value "0").
Proof.
  intros b. eexists _, _, _. split_and!; try (vm_compute; reflexivity).
  vm_compute. discriminate.
Qed.

Lemma fill_char_digits_witness :
  exists s1 s2,
    fill_char validSpecialCharacters chess_variant "1"
              (mkFill 0 0 "/" (mkCharBoard 10 10 (replicate 100 " "%char)))
    = Some (Proceed s1)
    /\ fill_char validSpecialCharacters chess_variant "0" s1 = Some (Proceed s2)
    /\ fs_fileIdx s2 = 10.
Proof.
  destruct (proj2 (fill_char_digits validSpecialCharacters chess_variant
                     (mkFill 0 0 "/" (mkCharBoard 10 10 (replicate 100 " "%char))))
              "1"%char "0"%char eq_refl eq_refl eq_refl eq_refl eq_refl)
    as (s1 & s2 & H1 & H2 & H3 & _).
  exists s1, s2. split_and!; [exact H1|exact H2|exact H3].
Defined.

(** C6.  The en-passant test looks only at the first character once that
    is a dash: every field that begins with "-" is accepted, and the start
    position of chess with the en-passant field "-x" validates. *)
Theorem check_en_passant_square_dash_prefix :
  (forall rest, check_en_passant_square (String "-" rest) = Some OK)
  /\ validate_fen "rnbqkbnr/pppppppp/8/8/8/8/PPPPPPPP/RNBQKBNR w KQkq -x 0 1"
                  chess_variant = Some FEN_OK.
Proof. split; [reflexivity|vm_compute; reflexivity]. Qed.

(** *** Concrete runs

    Each of the statements above that has a hypothesis is applied once to
    the standard chess variant. *)

Lemma validate_fen_nb_parts_witness :
  validate_fen "8/8/8/8/8/8/8/8 w" chess_variant = Some FEN_INVALID_NB_PARTS.
Proof.
  apply (validate_fen_nb_parts "8/8/8/8/8/8/8/8 w" chess_variant);
    [done | reflexivity | vm_compute; reflexivity | vm_compute; left; reflexivity].
Defined.


Lemma check_digit_field_empty_witness :
  validate_fen "rnbqkbnr/pppppppp/8/8/8/8/PPPPPPPP/RNBQKBNR w KQkq -   " chess_variant
  <> Some FEN_INVALID_HALF_MOVE_COUNTER
  /\ validate_fen "rnbqkbnr/pppppppp/8/8/8/8/PPPPPPPP/RNBQKBNR w KQkq -   " chess_variant
     <> Some FEN_INVALID_MOVE_COUNTER.
Proof.
  destruct (check_digit_field_empty
              "rnbqkbnr/pppppppp/8/8/8/8/PPPPPPPP/RNBQKBNR w KQkq -   " chess_variant)
    as (_ & H1 & H2).
  split; [apply H1; run | apply H2; run].
Defined.

Lemma validate_fen_king_codes_guarded_witness :
  KING ∈ pieceTypes chess_variant
  /\ base.size (extinctionPieceTypes chess_variant) = 0%nat.
Proof.
  refine (proj1 (proj1 (validate_fen_king_codes_guarded
                          "8/8/8/8/8/8/8/3Kk3 w - - 0 1" chess_variant)
                   FEN_TOUCHING_KINGS _) _).
  - run.
  - right. left. reflexivity.
Defined.

(** ** Bitboards *)

Lemma pos_squares_spec p : forall i s,
  s ∈ pos_squares p i <-> i <= s /\ Z.testbit (Zpos p) (s - i) = true.
Proof.
  induction p as [q IH|q IH|]; intros i s; simpl.
  - rewrite elem_of_cons, IH, Pos2Z.inj_xI. split.
    + intros [->|[Hle Hb]].
      * split; [lia|]. rewrite Z.sub_diag. apply Z.testbit_odd_0.
      * split; [lia|]. replace (s - i) with (Z.succ (s - (i + 1))) by lia.
        by rewrite Z.testbit_odd_succ by lia.
    + intros [Hle Hb]. destruct (decide (s = i)) as [->|Hne]; [by left|right].
      split; [lia|]. replace (s - i) with (Z.succ (s - (i + 1))) in Hb by lia.
      by rewrite Z.testbit_odd_succ in Hb by lia.
  - rewrite IH, Pos2Z.inj_xO. split.
    + intros [Hle Hb]. split; [lia|].
      replace (s - i) with (Z.succ (s - (i + 1))) by lia.
      by rewrite Z.testbit_even_succ by lia.
    + intros [Hle Hb]. destruct (decide (s = i)) as [->|Hne].
      { rewrite Z.sub_diag, Z.testbit_even_0 in Hb. done. }
      split; [lia|]. replace (s - i) with (Z.succ (s - (i + 1))) in Hb by lia.
      by rewrite Z.testbit_even_succ in Hb by lia.
  - rewrite list_elem_of_singleton. split.
    + intros ->. split; [lia|]. by rewrite Z.sub_diag.
    + intros [Hle Hb]. destruct (s - i) as [|n|n] eqn:Hd; [lia| |lia].
      by destruct n.
Qed.

Lemma squares_of_spec b s :
  s ∈ squares_of b <-> 0 <= b /\ Z.testbit b s = true.
Proof.
  destruct b as [|p|p]; simpl.
  - rewrite elem_of_nil, Z.bits_0. naive_solver.
  - rewrite pos_squares_spec, Z.sub_0_r. split; [intros [? ?]; split; [lia|done]|].
    intros [_ Hb]. split; [|done].
    destruct (Z_lt_dec s 0) as [Hneg|]; [|lia].
    by rewrite Z.testbit_neg_r in Hb.
  - rewrite elem_of_nil. split; [done|lia].
Qed.

Lemma pos_squares_NoDup p : forall i, NoDup (pos_squares p i).
Proof.
  induction p as [q IH|q IH|]; intros i; simpl.
  - apply NoDup_cons. split; [|apply IH].
    rewrite pos_squares_spec. lia.
  - apply IH.
  - apply NoDup_singleton.
Qed.

Lemma squares_of_NoDup b : NoDup (squares_of b).
Proof. destruct b; simpl; [apply NoDup_nil_2|apply pos_squares_NoDup|apply NoDup_nil_2]. Qed.

Lemma NoDup_only {A} (l : list A) a :
  NoDup l -> (forall x, x ∈ l <-> x = a) -> l = [a].
Proof.
  intros Hnd Hl. destruct l as [|x l].
  - specialize (proj2 (Hl a) eq_refl) as H. by apply elem_of_nil in H.
  - assert (x = a) as -> by (apply Hl; left).
    apply NoDup_cons in Hnd as [Hx _].
    destruct l as [|y l]; [done|].
    assert (y = a) as -> by (apply Hl; right; left).
    destruct Hx. left.
Qed.

Lemma square_bb_testbit from s :
  0 <= from -> Z.testbit (square_bb from) s = (from =? s).
Proof.
  intros H. unfold square_bb. rewrite Z.shiftl_1_l. by apply Z.pow2_bits_eqb.
Qed.

Lemma bb_has_testbit b s : bb_has b s = Z.testbit b s.
Proof.
  unfold bb_has. destruct (Z_lt_dec s 0) as [Hneg|Hpos].
  - rewrite (Z.testbit_neg_r b s Hneg). unfold square_bb.
    rewrite Z.shiftl_1_l, Z.pow_neg_r, Z.land_0_r by lia. done.
  - destruct (Z.testbit b s) eqn:Hb.
    + apply negb_true_iff, Z.eqb_neq. intros H0.
      assert (Z.testbit (Z.land b (square_bb s)) s = true) as Ht.
      { rewrite Z.land_spec, Hb, square_bb_testbit, Z.eqb_refl by lia. done. }
      rewrite H0, Z.bits_0 in Ht. done.
    + apply negb_false_iff, Z.eqb_eq. apply Z.bits_inj_0. intros n.
      rewrite Z.land_spec, square_bb_testbit by lia.
      destruct (Z.eqb_spec s n) as [->|]; [by rewrite Hb|apply andb_false_r].
Qed.

Lemma testbit_finite_nonneg b (l : list Z) :
  (forall s, Z.testbit b s = true -> s ∈ l) -> 0 <= b.
Proof.
  intros H. destruct (Z_lt_dec b 0) as [Hneg|]; [|lia]. exfalso.
  set (n := Z.max (Z.log2 (Z.abs b)) (foldr Z.max 0 l) + 1).
  assert (Z.testbit b n = true) as Hn.
  { apply Z.bits_iff_neg; [lia|done]. }
  apply H in Hn.
  assert (forall x, x ∈ l -> x <= foldr Z.max 0 l) as Hmax.
  { clear. induction l as [|y l IH]; intros x Hx; [by apply elem_of_nil in Hx|].
    simpl. apply elem_of_cons in Hx as [->|Hx]; [lia|]. specialize (IH _ Hx). lia. }
  specialize (Hmax _ Hn). lia.
Qed.

(** Exactly two squares on a bitboard, one of them [from]: flipping [from]
    leaves the other one, which [lsb] finds. *)
Lemma popcount_two b from :
  Z.testbit b from = true -> popcount b = 2 ->
  exists other,
    other <> from
    /\ (forall s, Z.testbit b s = true <-> s = from \/ s = other)
    /\ lsb (Z.lxor b (square_bb from)) = other.
Proof.
  intros Hfrom Hpop. unfold popcount in Hpop.
  assert (0 <= from) as Hf0.
  { destruct (Z_lt_dec from 0); [|lia]. by rewrite Z.testbit_neg_r in Hfrom. }
  pose proof (squares_of_NoDup b) as Hnd.
  pose proof (squares_of_spec b) as Hspec.
  destruct (squares_of b) as [|x [|y [|z l]]]; simpl in Hpop; try lia.
  assert (0 <= b) as Hb0 by (apply (Hspec x); left).
  assert (forall s, Z.testbit b s = true <-> s = x \/ s = y) as Hbits.
  { intros s. rewrite <- (list_elem_of_singleton s y), <- elem_of_cons, Hspec.
    naive_solver. }
  apply NoDup_cons in Hnd as [Hxy _]. rewrite list_elem_of_singleton in Hxy.
  assert (forall other,
             other <> from ->
             (forall s, Z.testbit b s = true <-> s = from \/ s = other) ->
             lsb (Z.lxor b (square_bb from)) = other) as Hlsb.
  { intros other Hne Hs. unfold lsb.
    rewrite (NoDup_only (squares_of (Z.lxor b (square_bb from))) other); [done| |].
    - apply squares_of_NoDup.
    - intros s. rewrite squares_of_spec, Z.lxor_spec, square_bb_testbit by done.
      assert (0 <= Z.lxor b (square_bb from)) as H0.
      { apply Z.lxor_nonneg. unfold square_bb. rewrite Z.shiftl_1_l.
        split; intros _; [apply Z.pow_nonneg; lia|done]. }
      specialize (Hs s). destruct (Z.eqb_spec from s) as [->|Hfs].
      + rewrite Hfrom. simpl. naive_solver.
      + rewrite xorb_false_r. naive_solver. }
  destruct (proj1 (Hbits from) Hfrom) as [Hx|Hy]; [subst x|subst y].
  - exists y. split; [done|]. split; [done|]. by apply Hlsb.
  - exists x. assert (forall s, Z.testbit b s = true <-> s = from \/ s = x) as Hb'.
    { intros s. rewrite Hbits. naive_solver. }
    split; [done|]. split; [done|]. by apply Hlsb.
Qed.

Lemma popcount_two_conv b from other :
  other <> from ->
  (forall s, Z.testbit b s = true <-> s = from \/ s = other) ->
  popcount b = 2.
Proof.
  intros Hne Hs.
  assert (0 <= b) as Hb0.
  { apply (testbit_finite_nonneg b [from; other]). intros s Hb.
    apply Hs in Hb as [-> | ->]; set_solver. }
  unfold popcount.
  assert (squares_of b ≡ₚ [from; other]) as ->.
  { apply NoDup_Permutation.
    - apply squares_of_NoDup.
    - apply NoDup_cons. split; [set_solver|apply NoDup_singleton].
    - intros s. rewrite squares_of_spec, !elem_of_cons, Hs, elem_of_nil.
      naive_solver. }
  done.
Qed.

(** ** Notation *)

Section notation_properties.
Context {E : Enumerators} {G : Engine}.

Lemma MoveType_eqb_eq a b : MoveType_eqb a b = true <-> a = b.
Proof. destruct a, b; simpl; split; congruence. Qed.

(** C2 (amended).  For a non-drop move whose mover stands on its origin
    square, [disambiguation_level] under Xiangqi WXF returns
    [RANK_DISAMBIGUATION] exactly when the pieces of the type and color of
    the mover on the origin file are the mover and exactly one other piece,
    and the square that piece reaches with the displacement of the move is
    on the board and within the region of the piece; in every other case it
    returns [FILE_DISAMBIGUATION]. *)
Theorem disambiguation_level_xiangqi (pos : Position) (m : Move) :
  move_type m <> DROP ->
  Z.testbit (on_origin_file pos m) (from_sq m) = true ->
  (disambiguation_level pos m NOTATION_XIANGQI_WXF = RANK_DISAMBIGUATION
   <-> exists other,
         other <> from_sq m
         /\ (forall s, Z.testbit (on_origin_file pos m) s = true
                       <-> s = from_sq m \/ s = other)
         /\ target_valid pos m other)
  /\ (disambiguation_level pos m NOTATION_XIANGQI_WXF <> RANK_DISAMBIGUATION ->
      disambiguation_level pos m NOTATION_XIANGQI_WXF = FILE_DISAMBIGUATION).
Proof.
  intros Hdrop Hfrom.
  assert (MoveType_eqb (move_type m) DROP = false) as Hd.
  { destruct (MoveType_eqb _ _) eqn:Hm; [|done]. by apply MoveType_eqb_eq in Hm. }
  unfold disambiguation_level. rewrite Hd. cbn [Notation_eqb orb].
  fold (on_origin_file pos m). split.
  - destruct (Z.eqb_spec (popcount (on_origin_file pos m)) 2) as [Hp|Hp].
    + destruct (popcount_two _ _ Hfrom Hp) as (other & Hne & Hbits & ->).
      fold (shifted_target m other). rewrite bb_has_testbit.
      unfold target_valid. split.
      * destruct (is_ok _) eqn:Hok, (Z.testbit (board_bb _ _ _) _) eqn:Hbb;
          simpl; intros H; try done.
        exists other. by rewrite Hok, Hbb.
      * intros (other' & Hne' & Hbits' & Hok & Hbb).
        assert (other' = other) as ->.
        { destruct (proj1 (Hbits other') (proj2 (Hbits' other') (or_intror eq_refl)));
            done. }
        by rewrite Hok, Hbb.
    + split; [done|]. intros (other & Hne & Hbits & _). destruct Hp.
      by apply (popcount_two_conv _ (from_sq m) other).
  - repeat case_match; done.
Qed.


(** C7.  [hasInsufficientMaterial] returns [false] whenever captures go
    to hand, or the color holds a piece in hand, or an extinction value is
    configured, or a capture-the-flag piece is configured and the color owns
    one. *)
Theorem hasInsufficientMaterial_other_win_rules (c : Color) (pos : Position) :
  captures_to_hand pos = true
  \/ 1 <= count_in_hand pos c ALL_PIECES
  \/ extinction_value pos <> VALUE_NONE
  \/ (capture_the_flag_piece pos <> 0%nat
      /\ 1 <= count pos c (capture_the_flag_piece pos)) ->
  hasInsufficientMaterial c pos = false.
Proof.
  intros H. unfold hasInsufficientMaterial.
  assert (captures_to_hand pos
          || negb (count_in_hand pos c ALL_PIECES =? 0)
          || negb (extinction_value pos =? VALUE_NONE)
          || (negb (capture_the_flag_piece pos =? 0)%nat
              && negb (count pos c (capture_the_flag_piece pos) =? 0)) = true) as ->;
    [|done].
  rewrite !orb_true_iff, andb_true_iff, !negb_true_iff, !Z.eqb_neq, Nat.eqb_neq.
  destruct H as [H|[H|[H|[H1 H2]]]]; [by repeat left| | |].
  - left. left. right. lia.
  - left. right. done.
  - right. split; [done|lia].
Qed.

End notation_properties.

(** C2: with one other rook on the file the level is the rank, though the
    count that leaves the mover out is one. *)
Lemma disambiguation_level_xiangqi_two_on_file :
  disambiguation_level (G := Sample.engine) (Sample.two_rooks (Some 1))
    Sample.rook_a1_b1 NOTATION_XIANGQI_WXF = RANK_DISAMBIGUATION
  /\ ~ rank_condition_excluding_mover (G := Sample.engine)
         (Sample.two_rooks (Some 1)) Sample.rook_a1_b1.
Proof.
  split; [vm_compute; reflexivity|].
  intros [Hp _]. vm_compute in Hp. discriminate.
Qed.

Lemma disambiguation_level_xiangqi_witness :
  disambiguation_level (G := Sample.engine) (Sample.two_rooks (Some 1))
    Sample.rook_a1_b1 NOTATION_XIANGQI_WXF = RANK_DISAMBIGUATION
  <-> exists other,
        other <> 0
        /\ (forall s,
               Z.testbit (on_origin_file (G := Sample.engine)
                            (Sample.two_rooks (Some 1)) Sample.rook_a1_b1) s = true
               <-> s = 0 \/ s = other)
        /\ target_valid (G := Sample.engine) (Sample.two_rooks (Some 1))
             Sample.rook_a1_b1 other.
Proof.
  refine (proj1 (disambiguation_level_xiangqi (G := Sample.engine)
                   (Sample.two_rooks (Some 1)) Sample.rook_a1_b1 _ _)).
  - discriminate.
  - vm_compute. reflexivity.
Defined.


Lemma hasInsufficientMaterial_other_win_rules_witness :
  hasInsufficientMaterial (G := Sample.engine) WHITE Sample.two_rooks_drops = false.
Proof.
  apply (hasInsufficientMaterial_other_win_rules (G := Sample.engine)).
  left. reflexivity.
Defined.

(** * Further properties *)

(** ** Strings *)

Lemma chars_app s t : chars (s ++ t) = (chars s ++ chars t)%list.
Proof.
  unfold chars. induction s as [|c s IH]; simpl; [done|]. by rewrite IH.
Qed.

Lemma contains_push_back d s c :
  contains d (push_back s c) = contains d s || Ascii.eqb d c.
Proof.
  unfold contains, push_back. rewrite chars_app, existsb_app. simpl.
  by rewrite orb_false_r.
Qed.

(** ** get_fen_parts *)

Lemma getlines_no_delim delim s : forall curPart started p,
  contains delim curPart = false ->
  p ∈ getlines delim curPart started s ->
  contains delim p = false.
Proof.
  induction s as [|c s IH]; intros cur started p Hcur Hp; simpl in Hp.
  - destruct started; [|by apply elem_of_nil in Hp].
    apply list_elem_of_singleton in Hp. by subst.
  - destruct (Ascii.eqb c delim) eqn:Hc.
    + apply elem_of_cons in Hp as [->|Hp]; [done|]. by apply (IH "" false).
    + apply (IH (push_back cur c) true p); [|done].
      rewrite contains_push_back, Hcur. simpl.
      rewrite Ascii.eqb_sym. exact Hc.
Qed.

(** X1.  No part returned by [get_fen_parts] contains the delimiter. *)
Theorem get_fen_parts_no_delim fullFen delim p :
  p ∈ get_fen_parts fullFen delim -> contains delim p = false.
Proof. unfold get_fen_parts. by apply getlines_no_delim. Qed.

Lemma get_fen_parts_no_delim_witness : contains " " "KQkq" = false.
Proof.
  apply (get_fen_parts_no_delim "8/8 w KQkq - 0 1" " " "KQkq").
  vm_compute. set_solver.
Defined.

Lemma chars_inj s t : chars s = chars t -> s = t.
Proof.
  unfold chars. intros H.
  rewrite <- (string_of_list_ascii_of_string s), H.
  apply string_of_list_ascii_of_string.
Qed.

Lemma chars_String c s : chars (String c s) = c :: chars s.
Proof. reflexivity. Qed.

Lemma getlines_nonempty delim s : forall curPart started,
  started = true \/ s <> "" -> getlines delim curPart started s <> [].
Proof.
  induction s as [|c s IH]; intros cur started H; simpl.
  - destruct H as [->|H]; done.
  - destruct (Ascii.eqb c delim); [done|]. apply IH. by left.
Qed.

Lemma join_cons delim p ps :
  ps <> [] -> join delim (p :: ps) = p ++ String delim (join delim ps).
Proof. by destruct ps. Qed.

Lemma ends_with_String delim c s :
  Ascii.eqb c delim = false -> ends_with delim (String c s) = ends_with delim s.
Proof.
  intros Hc. unfold ends_with. rewrite chars_String.
  destruct (chars s) as [|x l] eqn:Hs; simpl; [by rewrite Hc|done].
Qed.

Lemma ends_with_String_ne delim c s :
  s <> "" -> ends_with delim (String c s) = ends_with delim s.
Proof.
  intros Hne. unfold ends_with. rewrite chars_String.
  destruct s as [|x s]; [done|]. by rewrite chars_String.
Qed.

Lemma getlines_join delim s : forall curPart started,
  (s = "" -> started = true) ->
  join delim (getlines delim curPart started s)
  ++ (if ends_with delim s then String delim "" else "")
  = curPart ++ s.
Proof.
  induction s as [|c s IH]; intros cur started H.
  - rewrite (H eq_refl). reflexivity.
  - cbn [getlines]. destruct (Ascii.eqb c delim) eqn:Hc.
    + apply Ascii.eqb_eq in Hc. subst c. destruct s as [|c' s'].
      * cbn [getlines join]. unfold ends_with. simpl. by rewrite Ascii.eqb_refl.
      * rewrite join_cons by (apply getlines_nonempty; by right).
        rewrite ends_with_String_ne by done.
        specialize (IH "" false ltac:(done)).
        apply chars_inj. apply (f_equal chars) in IH.
        rewrite !chars_app, !chars_String in *.
        rewrite <- (assoc_L (++)%list), <- app_comm_cons, IH. done.
    + rewrite ends_with_String by done.
      rewrite (IH (push_back cur c) true ltac:(done)).
      unfold push_back. apply chars_inj.
      rewrite !chars_app, !chars_String. by rewrite <- (assoc_L (++)%list).
Qed.

(** X2.  Putting the parts returned by [get_fen_parts] back together with the
    delimiter between them gives the input again, up to one trailing
    delimiter: the only thing the split loses is a delimiter that ends the
    input (empty parts between two delimiters are kept). *)
Theorem get_fen_parts_join fullFen delim :
  join delim (get_fen_parts fullFen delim)
  ++ (if ends_with delim fullFen then String delim "" else "")
  = fullFen.
Proof.
  unfold get_fen_parts. destruct fullFen as [|c s]; [reflexivity|].
  by rewrite getlines_join.
Qed.

(** ** validate_fen: the meaning of its codes *)

Section validate_fen_codes.
Context {E : Enumerators}.

Lemma check_digit_field_OK field :
  check_digit_field field = OK -> dash_or_digits field.
Proof.
  unfold check_digit_field, dash_or_digits. intros H.
  destruct ((size field =? 1) && Ascii.eqb (char0 field) "-") eqn:Hd.
  - left. apply andb_prop in Hd as [Hs Hc].
    apply Z.eqb_eq in Hs. apply Ascii.eqb_eq in Hc.
    destruct field as [|c [|c' s]]; simpl in *; unfold size in Hs; simpl in Hs;
      [lia|by subst|lia].
  - right. destruct (forallb isdigit (chars field)) eqn:Hf; [|done].
    apply Forall_forall. intros c Hc.
    rewrite forallb_forall in Hf. apply Hf. by apply list_elem_of_In.
Qed.

(** X3.  [validate_fen] returns [FEN_EMPTY] exactly for the empty string, and
    [FEN_MISSING_SPACE_DELIM] exactly for a nonempty string without a space,
    whatever the variant. *)
Theorem validate_fen_layout_codes fen v :
  (validate_fen fen v = Some FEN_EMPTY <-> fen = "")
  /\ (validate_fen fen v = Some FEN_MISSING_SPACE_DELIM
      <-> fen <> "" /\ contains " " fen = false).
Proof.
  assert (forall c,
             validate_fen fen v = Some c ->
             c = FEN_EMPTY \/ c = FEN_MISSING_SPACE_DELIM ->
             (size fen =? 0) = true \/ contains " " fen = false) as Hlate.
  { intros c H Hc. unfold validate_fen in H.
    destruct (size fen =? 0); [by left|].
    destruct (contains " " fen); [|by right]. exfalso.
    repeat (case_match; simplify_option_eq); try naive_solver;
      match goal with
      | H : validate_fen_kings _ _ _ _ _ _ = Some _ |- _ =>
          apply validate_fen_kings_codes in H as [H|H];
          [apply validate_fen_fields_codes in H|]; naive_solver
      end. }
  split; split.
  - intros H. destruct (Hlate _ H (or_introl eq_refl)) as [Hs|Hs];
      [by apply size_zero|].
    clear Hlate. unfold validate_fen in H.
    destruct (size fen =? 0) eqn:Hz; [by apply size_zero|].
    rewrite Hs in H. done.
  - by intros ->.
  - intros H. destruct (Hlate _ H (or_intror eq_refl)) as [Hs|Hs].
    + apply size_zero in Hs. by subst fen.
    + split; [|done]. intros ->. done.
  - intros [Hne Hs]. unfold validate_fen.
    rewrite (size_nonempty _ Hne), Hs. done.
Qed.

(** X4.  What [FEN_OK] guarantees: the layout is accepted (nonempty, a space,
    a number of parts within the bounds of the variant), every character of
    the board field is a digit, a piece letter of the variant or a valid
    special character, the side-to-move field starts with [w] or [b], and
    each of the last two fields is a single dash or consists of digits. *)
Theorem validate_fen_ok_sound fen v :
  validate_fen fen v = Some FEN_OK ->
  let parts := get_fen_parts fen " " in
  let n := Z.of_nat (List.length parts) in
  layout_ok fen v
  /\ (exists fenBoard,
        vector_at parts 0 = Some fenBoard
        /\ check_for_valid_characters fenBoard validSpecialCharacters v = OK)
  /\ (exists sideToMove,
        vector_at parts 1 = Some sideToMove
        /\ (char0 sideToMove = "w"%char \/ char0 sideToMove = "b"%char))
  /\ (exists halfMove fullMove,
        vector_at parts (n - 2) = Some halfMove
        /\ vector_at parts (n - 1) = Some fullMove
        /\ dash_or_digits halfMove /\ dash_or_digits fullMove).
Proof.
  intros H parts n.
  pose proof (validate_fen_fields_code _ _ _ H ltac:(auto 10)) as Hf.
  fold parts in Hf. split_and!.
  - unfold layout_ok. unfold validate_fen in H.
    destruct (size fen =? 0) eqn:Hz; [done|].
    destruct (contains " " fen) eqn:Hs; [|done]. simpl in H.
    destruct (_ || _) eqn:Hn; [done|].
    apply orb_false_elim in Hn as [H1 H2].
    apply Z.ltb_ge in H1, H2.
    split_and!; [intros ->; done|done|lia|lia].
  - unfold validate_fen in H.
    repeat (case_match; simplify_option_eq); eauto.
  - unfold validate_fen_fields in Hf.
    destruct (vector_at parts 1) as [side|]; [|done]. simpl in Hf.
    exists side. split; [done|].
    destruct (Ascii.eqb (char0 side) "w") eqn:Hw;
      [left; by apply Ascii.eqb_eq|].
    destruct (Ascii.eqb (char0 side) "b") eqn:Hb;
      [right; by apply Ascii.eqb_eq|]. done.
  - unfold validate_fen_fields in Hf. fold n in Hf.
    repeat (case_match; simplify_option_eq).
    all: eexists _, _; split_and!; try done; apply check_digit_field_OK;
      match goal with
      | H : negb (is_ok_validation ?x) = false |- ?x = OK => by destruct x
      end.
Qed.

(** X5.  Two codes are tied to rules of the variant: [validate_fen] returns
    [FEN_INVALID_POCKET_INFO] only for a variant with piece drops, and
    [FEN_INVALID_EN_PASSANT_SQ] only for a variant with the double step and
    pawns among its piece types. *)
Theorem validate_fen_rule_codes fen v :
  (validate_fen fen v = Some FEN_INVALID_POCKET_INFO -> pieceDrops v = true)
  /\ (validate_fen fen v = Some FEN_INVALID_EN_PASSANT_SQ ->
      doubleStep v = true /\ PAWN ∈ pieceTypes v).
Proof.
  split.
  - intros H. unfold validate_fen in H.
    destruct (pieceDrops v) eqn:Hd; [done|]. exfalso.
    unfold pocket_stage in H. rewrite Hd in H.
    repeat (case_match; simplify_option_eq);
      match goal with
      | H : validate_fen_kings _ _ _ _ _ _ = Some _ |- _ =>
          apply validate_fen_kings_codes in H as [H|H];
          [apply validate_fen_fields_codes in H|]; naive_solver
      end.
  - intros H. apply validate_fen_fields_code in H; [|auto].
    unfold validate_fen_fields in H.
    destruct (doubleStep v && bool_decide (PAWN ∈ pieceTypes v)) eqn:Hg.
    + apply andb_prop in Hg as [? Hp]. by apply bool_decide_eq_true in Hp.
    + repeat (first [progress simplify_option_eq | case_match]).
Qed.

End validate_fen_codes.

Lemma validate_fen_ok_sound_witness :
  layout_ok "rnbqkbnr/pppppppp/8/8/8/8/PPPPPPPP/RNBQKBNR w KQkq - 0 1" chess_variant.
Proof.
  apply (validate_fen_ok_sound
           "rnbqkbnr/pppppppp/8/8/8/8/PPPPPPPP/RNBQKBNR w KQkq - 0 1" chess_variant).
  run.
Defined.

Lemma validate_fen_rule_codes_witness :
  doubleStep chess_variant = true /\ PAWN ∈ pieceTypes chess_variant.
Proof.
  apply (proj2 (validate_fen_rule_codes
                  "rnbqkbnr/pppppppp/8/8/8/8/PPPPPPPP/RNBQKBNR w KQkq e 0 1"
                  chess_variant)).
  run.
Defined.

(** ** CharBoard *)

(** X6.  A write that stays inside the vector of a [CharBoard] is read back by
    [get_piece] at the same indices, leaves every square of another flat
    index as it was, and keeps the dimensions and the length of the vector. *)
Theorem set_piece_get_piece b rankIdx fileIdx c b' :
  set_piece b rankIdx fileIdx c = Some b' ->
  get_piece b' rankIdx fileIdx = Some c
  /\ (forall r f,
         r * nbFiles b + f <> rankIdx * nbFiles b + fileIdx ->
         get_piece b' r f = get_piece b r f)
  /\ same_shape b b'.
Proof.
  intros H. pose proof (set_piece_shape _ _ _ _ _ H) as Hsh.
  unfold set_piece in H. destruct (in_board b _) eqn:Hin; [|done].
  simplify_eq. split_and!; [| |done].
  - unfold get_piece, in_board in *. simpl. rewrite length_insert, Hin.
    apply andb_prop in Hin as [H0 H1]. apply Z.leb_le in H0. apply Z.ltb_lt in H1.
    apply list_lookup_insert_eq. lia.
  - intros r f Hne. unfold get_piece, in_board. simpl. rewrite length_insert.
    destruct (_ && _) eqn:Hrf; [|done].
    apply andb_prop in Hin as [H0 H1]. apply Z.leb_le in H0.
    apply andb_prop in Hrf as [H2 H3]. apply Z.leb_le in H2.
    apply list_lookup_insert_ne. lia.
Qed.

Lemma set_piece_get_piece_witness :
  exists b',
    set_piece (mkCharBoard 2 2 [" "; " "; " "; " "]%char) 1 0 "k" = Some b'
    /\ get_piece b' 1 0 = Some "k"%char.
Proof.
  eexists. split; [reflexivity|].
  apply (set_piece_get_piece (mkCharBoard 2 2 [" "; " "; " "; " "]%char) 1 0 "k").
  reflexivity.
Defined.

Lemma CharBoard_new_squares nr nf b :
  CharBoard_new nr nf = Some b ->
  forall r f, 0 <= r < nr -> 0 <= f < nf -> get_piece b r f = Some " "%char.
Proof.
  intros H r f Hrr Hff. unfold CharBoard_new in H. case_match; [|done].
  simplify_eq. unfold get_piece, in_board. simpl.
  rewrite length_replicate.
  assert (0 <= r * nf + f < nr * nf) by nia.
  rewrite (proj2 (Z.leb_le _ _)) by lia.
  rewrite (proj2 (Z.ltb_lt _ _)) by lia. simpl.
  apply lookup_replicate_2. lia.
Qed.

(** X7.  A freshly constructed [CharBoard] is well formed, every square of it
    holds a space, and [get_square_for_piece] of any other character returns
    the default square (-1, -1). *)
Theorem CharBoard_new_blank nr nf b :
  CharBoard_new nr nf = Some b ->
  board_wf b
  /\ (forall r f, 0 <= r < nr -> 0 <= f < nf -> get_piece b r f = Some " "%char)
  /\ (forall piece, piece <> " "%char ->
                    get_square_for_piece b piece = CharSquare_none).
Proof.
  intros H. pose proof (CharBoard_new_wf _ _ _ H) as (Hwf & Hnr & Hnf).
  pose proof (CharBoard_new_squares _ _ _ H) as Hblank.
  split_and!; [done|done|].
  intros piece Hp. unfold get_square_for_piece.
  destruct (get_squares_for_piece b piece) as [|sq l] eqn:Hl; [done|].
  assert (sq ∈ get_squares_for_piece b piece) as Hin by (rewrite Hl; left).
  apply get_squares_for_piece_bounds in Hin as (H1 & H2 & H3).
  unfold piece_at in H3. rewrite Hblank in H3 by lia.
  apply Ascii.eqb_eq in H3. by subst.
Qed.

Lemma CharBoard_new_blank_witness :
  get_square_for_piece
    (mkCharBoard 2 2 (replicate (Z.to_nat (2 * 2)) " "%char)) "K"
  = CharSquare_none.
Proof.
  refine (proj2 (proj2 (CharBoard_new_blank 2 2 _ _)) "K"%char _).
  - reflexivity.
  - discriminate.
Defined.

(** X8.  Whatever [fill_char_board] returns, without undefined behaviour, the
    board it leaves has the dimensions and the vector length of the board
    it was given; a well-formed board stays well formed. *)
Theorem fill_char_board_keeps_shape b fenBoard sp v r b' :
  fill_char_board b fenBoard sp v = Some (r, b') ->
  nbRanks b' = nbRanks b /\ nbFiles b' = nbFiles b
  /\ List.length (board b') = List.length (board b)
  /\ (board_wf b -> board_wf b').
Proof.
  intros H. pose proof (fill_char_board_shape _ _ _ _ _ _ H) as Hs.
  destruct Hs as (H1 & H2 & H3). split_and!; try done.
  intros Hwf. eapply same_shape_wf; [exact Hwf|]. by split_and!.
Qed.

Lemma fill_char_board_keeps_shape_witness :
  nbRanks (board_of "8/8/8/8/8/8/8/3Kk3" chess_variant) = 8.
Proof.
  refine (proj1 (fill_char_board_keeps_shape
                   (mkCharBoard 8 8 (replicate 64 " "%char))
                   "8/8/8/8/8/8/8/3Kk3" validSpecialCharacters chess_variant OK _ _)).
  run.
Defined.

Lemma bind_first {A B} (f : A -> list B) (l : list A) x rest :
  l ≫= f = x :: rest ->
  exists l1 y l2,
    l = (l1 ++ y :: l2)%list
    /\ (forall z, z ∈ l1 -> f z = [])
    /\ exists rest', f y = x :: rest'.
Proof.
  induction l as [|a l IH]; intros H; [done|].
  rewrite bind_cons in H. destruct (f a) as [|b fa] eqn:Hfa.
  - simpl in H. destruct (IH H) as (l1 & y & l2 & -> & Hl1 & Hy).
    exists (a :: l1), y, l2. split; [done|]. split; [|done].
    intros z Hz. apply elem_of_cons in Hz as [-> | Hz]; auto.
  - simpl in H. simplify_eq. exists [], a, l. split; [done|].
    split; [intros z Hz; by apply elem_of_nil in Hz|eauto].
Qed.

Lemma seqZ_prefix n (l1 : list Z) y l2 z :
  seqZ 0 n = (l1 ++ y :: l2)%list -> 0 <= z < y -> z ∈ l1.
Proof.
  intros Heq Hz.
  assert (seqZ 0 n !! List.length l1 = Some y) as Hy.
  { rewrite Heq. by apply list_lookup_middle. }
  apply lookup_seqZ in Hy as [Hy Hn].
  assert (seqZ 0 n !! Z.to_nat z = Some z) as Hl.
  { apply lookup_seqZ. lia. }
  rewrite Heq, lookup_app_l in Hl by lia.
  by eapply list_elem_of_lookup_2.
Qed.

Lemma piece_at_get_piece b r f piece :
  piece_at b r f piece = true <-> get_piece b r f = Some piece.
Proof.
  unfold piece_at. destruct (get_piece b r f) as [x|]; [|done].
  split; [intros H; apply Ascii.eqb_eq in H; by subst|].
  intros [= ->]. apply Ascii.eqb_refl.
Qed.

Lemma get_squares_for_piece_elem b piece r f :
  0 <= r < nbRanks b -> 0 <= f < nbFiles b ->
  get_piece b r f = Some piece ->
  mkCharSquare r f ∈ get_squares_for_piece b piece.
Proof.
  intros Hr Hf Hp. unfold get_squares_for_piece.
  apply list_elem_of_bind. exists r. split; [|apply elem_of_seqZ; lia].
  apply list_elem_of_bind. exists f. split; [|apply elem_of_seqZ; lia].
  rewrite (proj2 (piece_at_get_piece _ _ _ _) Hp). left.
Qed.

(** X9.  [get_square_for_piece] returns the default square (-1, -1) when no
    square within the dimensions holds the character; otherwise it returns
    a square within the dimensions that holds it, and the first such square
    in the order of the scan: lowest row, then lowest file. *)
Theorem get_square_for_piece_first b piece :
  let sq := get_square_for_piece b piece in
  (sq = CharSquare_none
   /\ forall r f, 0 <= r < nbRanks b -> 0 <= f < nbFiles b ->
                  get_piece b r f <> Some piece)
  \/ (0 <= rowIdx sq < nbRanks b /\ 0 <= fileIdx sq < nbFiles b
      /\ get_piece b (rowIdx sq) (fileIdx sq) = Some piece
      /\ forall r f, 0 <= r < nbRanks b -> 0 <= f < nbFiles b ->
                     get_piece b r f = Some piece ->
                     rowIdx sq < r \/ (rowIdx sq = r /\ fileIdx sq <= f)).
Proof.
  intros sq. unfold sq, get_square_for_piece.
  destruct (get_squares_for_piece b piece) as [|s rest] eqn:Hl.
  - left. split; [done|]. intros r f Hr Hf Hp.
    pose proof (get_squares_for_piece_elem _ _ _ _ Hr Hf Hp) as Hin.
    rewrite Hl in Hin. by apply elem_of_nil in Hin.
  - right.
    assert (s ∈ get_squares_for_piece b piece) as Hin by (rewrite Hl; left).
    apply get_squares_for_piece_bounds in Hin as (Hr & Hf & Hp).
    apply piece_at_get_piece in Hp.
    split; [done|]. split; [done|]. split; [done|].
    intros r f Hrr Hff Hrf.
    unfold get_squares_for_piece in Hl.
    apply bind_first in Hl as (l1 & y & l2 & Hrows & Hl1 & (rest' & Hy)).
    apply bind_first in Hy as (k1 & c0 & k2 & Hfiles & Hk1 & (rest'' & Hc0)).
    destruct (piece_at b y c0 piece) eqn:Hyc; [|done]. simplify_eq. simpl in *.
    destruct (Z_lt_dec r y) as [Hlt|Hge].
    + exfalso. pose proof (seqZ_prefix _ _ _ _ r Hrows ltac:(lia)) as Hin.
      specialize (Hl1 _ Hin).
      assert (mkCharSquare r f ∈ (seqZ 0 (nbFiles b) ≫= fun c =>
                if piece_at b r c piece then [mkCharSquare r c] else [])) as Hmem.
      { apply list_elem_of_bind. exists f. split; [|apply elem_of_seqZ; lia].
        rewrite (proj2 (piece_at_get_piece _ _ _ _) Hrf). left. }
      rewrite Hl1 in Hmem. by apply elem_of_nil in Hmem.
    + destruct (Z.eq_dec r y) as [->|Hne]; [|left; lia]. right. split; [done|].
      destruct (Z_lt_dec f c0) as [Hlt|]; [|lia]. exfalso.
      pose proof (seqZ_prefix _ _ _ _ f Hfiles ltac:(lia)) as Hin.
      specialize (Hk1 _ Hin). simpl in Hk1.
      by rewrite (proj2 (piece_at_get_piece _ _ _ _) Hrf) in Hk1.
Qed.

(** ** fill_char_board: ranks *)

Lemma isdigit_not_slash c : isdigit c = true -> Ascii.eqb c "/" = false.
Proof.
  destruct c as [[] [] [] [] [] [] [] []]; vm_compute; congruence.
Qed.

Lemma fill_char_rank sp v c s s' :
  fill_char sp v c s = Some (Proceed s') ->
  fs_rankIdx s' = fs_rankIdx s + (if Ascii.eqb "/" c then 1 else 0).
Proof.
  unfold fill_char. intros H. rewrite (Ascii.eqb_sym "/" c).
  destruct (Ascii.eqb c " " || Ascii.eqb c "["); [done|].
  destruct (isdigit c) eqn:Hd.
  { rewrite (isdigit_not_slash _ Hd).
    repeat (first [progress simplify_option_eq | case_match]); simpl; lia. }
  destruct (Ascii.eqb c "/").
  { destruct (int_of (fs_rankIdx s + 1)) as [r|] eqn:Hr; [|done].
    apply int_of_Some in Hr. simpl in H.
    repeat (first [progress simplify_option_eq | case_match]); simpl; lia. }
  repeat (first [progress simplify_option_eq | case_match]); simpl; lia.
Qed.

Lemma fill_char_break sp v c s s' :
  (Ascii.eqb c " " || Ascii.eqb c "[") = false ->
  fill_char sp v c s = Some (Break s') ->
  fs_rankIdx s' = fs_rankIdx s + 1 /\ Ascii.eqb "/" c = true
  /\ fs_rankIdx s' = nbRanks (fs_board s').
Proof.
  unfold fill_char. intros Hb H. rewrite Hb in H. rewrite (Ascii.eqb_sym "/" c).
  destruct (isdigit c).
  { repeat (first [progress simplify_option_eq | case_match]). }
  destruct (Ascii.eqb c "/").
  - destruct (int_of (fs_rankIdx s + 1)) as [r|] eqn:Hr; [|done].
    apply int_of_Some in Hr. simpl in H.
    destruct (negb _); [done|]. destruct (r =? nbRanks (fs_board s)) eqn:Hn; [|done].
    apply Z.eqb_eq in Hn. simplify_eq. simpl. done.
  - repeat (first [progress simplify_option_eq | case_match]).
Qed.

Lemma fill_loop_ranks sp v cs : forall s r,
  (forall c, c ∈ cs -> (Ascii.eqb c " " || Ascii.eqb c "[") = false) ->
  fill_loop sp v cs s = Some r ->
  match r with
  | ReturnNOK _ => True
  | Proceed s' | Break s' =>
      fs_rankIdx s'
      <= fs_rankIdx s + Z.of_nat (List.length (List.filter (Ascii.eqb "/") cs))
      /\ (fs_rankIdx s'
          = fs_rankIdx s + Z.of_nat (List.length (List.filter (Ascii.eqb "/") cs))
          \/ fs_rankIdx s' = nbRanks (fs_board s'))
  end.
Proof.
  induction cs as [|c cs IH]; intros s r Hcs H; simpl in H.
  - simplify_eq. simpl. lia.
  - destruct (fill_char sp v c s) as [r'|] eqn:Hc; [|done]. simpl in H.
    assert ((Ascii.eqb c " " || Ascii.eqb c "[") = false) as Hb
        by (apply Hcs; left).
    destruct r' as [s1|s1|s1].
    + apply fill_char_rank in Hc.
      specialize (IH s1 r (fun c' Hc' => Hcs c' (list_elem_of_further _ _ _ Hc')) H).
      change (List.filter (Ascii.eqb "/") (c :: cs))
        with (if Ascii.eqb "/" c then c :: List.filter (Ascii.eqb "/") cs
              else List.filter (Ascii.eqb "/") cs).
      destruct (Ascii.eqb "/" c); destruct r; try done; cbn [List.length]; lia.
    + simplify_eq. destruct (fill_char_break _ _ _ _ _ Hb Hc) as (H1 & H2 & H3).
      change (List.filter (Ascii.eqb "/") (c :: cs))
        with (if Ascii.eqb "/" c then c :: List.filter (Ascii.eqb "/") cs
              else List.filter (Ascii.eqb "/") cs).
      rewrite H2. cbn [List.length]. lia.
    + by simplify_eq.
Qed.

(** X10.  When [fill_char_board] returns [OK] on a board field without space
    and opening bracket, the field holds at least [nbRanks - 1] slashes, and
    exactly that many for a variant without piece drops. *)
Theorem fill_char_board_rank_count b fenBoard sp v b' :
  contains " " fenBoard = false ->
  contains "[" fenBoard = false ->
  fill_char_board b fenBoard sp v = Some (OK, b') ->
  nbRanks b - 1 <= count_char "/" fenBoard
  /\ (pieceDrops v = false -> count_char "/" fenBoard = nbRanks b - 1).
Proof.
  intros Hsp Hbr H.
  assert (forall c, c ∈ chars fenBoard ->
                    (Ascii.eqb c " " || Ascii.eqb c "[") = false) as Hcs.
  { intros c Hc. apply list_elem_of_In in Hc.
    unfold contains in Hsp, Hbr.
    apply orb_false_intro.
    - destruct (Ascii.eqb c " ") eqn:He; [|done].
      apply Ascii.eqb_eq in He. subst c.
      rewrite <- Hsp. symmetry. apply existsb_exists.
      exists " "%char. split; [done|apply Ascii.eqb_refl].
    - destruct (Ascii.eqb c "[") eqn:He; [|done].
      apply Ascii.eqb_eq in He. subst c.
      rewrite <- Hbr. symmetry. apply existsb_exists.
      exists "["%char. split; [done|apply Ascii.eqb_refl]. }
  unfold fill_char_board in H.
  destruct (fill_loop sp v (chars fenBoard) _) as [r|] eqn:Hl; [|done].
  pose proof (fill_loop_shape _ _ _ _ _ Hl) as (Hnr & _ & _).
  pose proof (fill_loop_ranks _ _ _ _ _ Hcs Hl) as Hinv.
  simpl in H, Hnr, Hinv. unfold count_char.
  destruct r as [s'|s'|s']; [| |done]; simpl in *;
    (destruct (int_of (fs_rankIdx s' + 1)) as [r1|] eqn:Hr1; [|done];
     apply int_of_Some in Hr1; simpl in H;
     destruct (pieceDrops v);
     repeat (first [progress simplify_option_eq | case_match]);
     rewrite ?andb_false_iff, ?negb_false_iff, ?negb_true_iff, ?Z.eqb_eq,
       ?Z.eqb_neq in *; (split; [lia|intros; try done; lia])).
Qed.

Lemma fill_char_board_rank_count_witness :
  count_char "/" "8/8/8/8/8/8/8/3Kk3" = 8 - 1.
Proof.
  refine (proj2 (fill_char_board_rank_count
                   (mkCharBoard 8 8 (replicate 64 " "%char))
                   "8/8/8/8/8/8/8/3Kk3" validSpecialCharacters chess_variant _
                   _ _ _) _); [run|run|run|reflexivity].
Defined.

(** ** Castling letters *)

Lemma isupper_not_islower c : isupper c = true -> islower c = false.
Proof.
  unfold isupper, islower. rewrite !andb_true_iff, andb_false_iff, !Z.leb_le.
  intros [? ?]. left. apply Z.leb_gt. lia.
Qed.

Lemma isalpha_dash : isalpha "-" = false.
Proof. reflexivity. Qed.

Lemma chars_push_back s c : chars (push_back s c) = (chars s ++ [c])%list.
Proof. unfold push_back. by rewrite chars_app. Qed.

Lemma fill_castling_info_splitted_spec cs : forall w b,
  let r := fill_castling_info_splitted cs (w, b) in
  (fst r = OK <-> Forall (fun c => c = "-"%char \/ isalpha c = true) cs)
  /\ (fst r = OK ->
      chars (fst (snd r)) = (chars w ++ map tolower (List.filter isupper cs))%list
      /\ chars (snd (snd r)) = (chars b ++ List.filter islower cs)%list).
Proof.
  induction cs as [|c cs IH]; intros w b; cbn zeta.
  - simpl. split; [split; [constructor|done]|]. intros _. by rewrite !app_nil_r.
  - cbn [fill_castling_info_splitted].
    destruct (Ascii.eqb c "-") eqn:Hd.
    + apply Ascii.eqb_eq in Hd. subst c. cbn [negb].
      destruct (IH w b) as [Hok Hs]. split.
      * rewrite Hok, Forall_cons. naive_solver.
      * intros H. specialize (Hs H). done.
    + cbn [negb]. assert (c <> "-"%char) as Hne.
      { intros ->. by rewrite Ascii.eqb_refl in Hd. }
      destruct (isalpha c) eqn:Ha; cbn [negb].
      * destruct (isupper c) eqn:Hu.
        -- unfold set_color, at_color. cbn [fst snd].
           destruct (IH (push_back w (tolower c)) b) as [Hok Hs]. split.
           ++ rewrite Hok, Forall_cons. naive_solver.
           ++ intros H. destruct (Hs H) as [H1 H2].
              rewrite H1, H2, chars_push_back. cbn [List.filter].
              rewrite Hu, (isupper_not_islower _ Hu). cbn [map].
              by rewrite <- (assoc_L (++)%list).
        -- unfold set_color, at_color. cbn [fst snd].
           assert (islower c = true) as Hl.
           { unfold isalpha in Ha. by rewrite Hu in Ha. }
           destruct (IH w (push_back b c)) as [Hok Hs]. split.
           ++ rewrite Hok, Forall_cons. naive_solver.
           ++ intros H. destruct (Hs H) as [H1 H2].
              rewrite H1, H2, chars_push_back. cbn [List.filter].
              rewrite Hu, Hl. by rewrite <- (assoc_L (++)%list).
      * cbn [fst]. split; [|done]. split; [done|].
        intros H. apply Forall_cons in H as [[?|?] _]; congruence.
Qed.

(** X11.  [fill_castling_info_splitted] returns [OK] exactly when every
    character of the castling field is a dash or a letter; then the white
    entry is the upper-case letters of the field in lower case and the black
    entry its lower-case letters, both in the order of the field. *)
Theorem fill_castling_info_splitted_letters castlingInfo :
  let r := fill_castling_info_splitted (chars castlingInfo) ("", "") in
  (fst r = OK
   <-> Forall (fun c => c = "-"%char \/ isalpha c = true) (chars castlingInfo))
  /\ (fst r = OK ->
      chars (at_color (snd r) WHITE)
      = map tolower (List.filter isupper (chars castlingInfo))
      /\ chars (at_color (snd r) BLACK)
         = List.filter islower (chars castlingInfo)).
Proof.
  intros r. destruct (fill_castling_info_splitted_spec (chars castlingInfo) "" "")
    as [Hok Hs].
  split; [exact Hok|]. intros H. exact (Hs H).
Qed.

Lemma fill_castling_info_splitted_letters_witness :
  chars (at_color (snd (fill_castling_info_splitted (chars "KQkq") ("", ""))) WHITE)
  = map tolower (List.filter isupper (chars "KQkq")).
Proof.
  apply (proj2 (fill_castling_info_splitted_letters "KQkq")). reflexivity.
Defined.

(** ** Kings that are not on the board *)

Lemma get_square_for_piece_absent b piece :
  (forall r f, 0 <= r < nbRanks b -> 0 <= f < nbFiles b ->
               get_piece b r f <> Some piece) ->
  get_square_for_piece b piece = CharSquare_none.
Proof.
  intros H. unfold get_square_for_piece.
  destruct (get_squares_for_piece b piece) as [|s l] eqn:Hl; [done|].
  assert (s ∈ get_squares_for_piece b piece) as Hin by (rewrite Hl; left).
  apply get_squares_for_piece_bounds in Hin as (Hr & Hf & Hp).
  apply piece_at_get_piece in Hp. by destruct (H _ _ Hr Hf).
Qed.

Section kings_absent.
Context {E : Enumerators}.


End kings_absent.


(** ** is_piece_on_rank and check_960_castling *)

Lemma is_piece_on_rank_from_true b piece rowIdx files :
  is_piece_on_rank_from b piece rowIdx files = Some true ->
  exists f, f ∈ files /\ get_piece b rowIdx f = Some piece.
Proof.
  induction files as [|f files IH]; intros H; simpl in H; [done|].
  destruct (get_piece b rowIdx f) as [x|] eqn:Hx; [|done]. simpl in H.
  destruct (Ascii.eqb x piece) eqn:He.
  - apply Ascii.eqb_eq in He. subst x. exists f. split; [left|done].
  - destruct (IH H) as (f' & Hin & Hf'). exists f'. split; [by right|done].
Qed.

Lemma is_piece_on_rank_from_false b piece rowIdx files :
  is_piece_on_rank_from b piece rowIdx files = Some false ->
  forall f, f ∈ files -> get_piece b rowIdx f <> Some piece.
Proof.
  induction files as [|f files IH]; intros H f' Hin; simpl in H;
    [by apply elem_of_nil in Hin|].
  destruct (get_piece b rowIdx f) as [x|] eqn:Hx; [|done]. simpl in H.
  destruct (Ascii.eqb x piece) eqn:He; [done|].
  apply elem_of_cons in Hin as [-> | Hin]; [|by apply IH].
  rewrite Hx. intros [= ->]. by rewrite Ascii.eqb_refl in He.
Qed.

Lemma is_piece_on_rank_from_defined b piece rowIdx files :
  (forall f, f ∈ files -> is_Some (get_piece b rowIdx f)) ->
  is_Some (is_piece_on_rank_from b piece rowIdx files).
Proof.
  induction files as [|f files IH]; intros H; simpl; [by eexists|].
  destruct (H f) as [x Hx]; [left|]. rewrite Hx. simpl.
  destruct (Ascii.eqb x piece); [by eexists|].
  apply IH. intros f' Hf'. apply H. by right.
Qed.

(** X13.  On a well-formed board, [is_piece_on_rank] for a row within the board
    is defined and true exactly when some file of that row holds the
    character; for a negative row the first read is outside the vector. *)
Theorem is_piece_on_rank_correct b piece rowIdx :
  board_wf b ->
  (0 <= rowIdx < nbRanks b ->
   exists r,
     is_piece_on_rank b piece rowIdx = Some r
     /\ (r = true <-> exists f, 0 <= f < nbFiles b
                                /\ get_piece b rowIdx f = Some piece))
  /\ (rowIdx < 0 -> is_piece_on_rank b piece rowIdx = None).
Proof.
  intros Hwf. split.
  - intros Hrow. unfold is_piece_on_rank.
    destruct (is_piece_on_rank_from_defined b piece rowIdx (seqZ 0 (nbFiles b)))
      as [r Hr].
    { intros f Hf. apply elem_of_seqZ in Hf.
      apply get_piece_defined; [done|done|lia]. }
    exists r. split; [done|]. destruct r.
    + split; [|done]. intros _.
      apply is_piece_on_rank_from_true in Hr as (f & Hf & Hp).
      apply elem_of_seqZ in Hf. exists f. split; [lia|done].
    + split; [done|]. intros (f & Hf & Hp).
      destruct (is_piece_on_rank_from_false _ _ _ _ Hr f); [|done].
      apply elem_of_seqZ. lia.
  - intros Hneg. unfold is_piece_on_rank.
    destruct Hwf as (Hnr & Hnf & Hlen).
    rewrite seqZ_cons by lia. simpl.
    unfold get_piece, in_board.
    rewrite (proj2 (Z.leb_gt _ _)) by nia. reflexivity.
Qed.

Lemma is_piece_on_rank_correct_witness :
  is_piece_on_rank (board_of "8/8/8/8/8/8/8/3Kk3" chess_variant) "K" (-1) = None.
Proof.
  refine (proj2 (is_piece_on_rank_correct
                   (board_of "8/8/8/8/8/8/8/3Kk3" chess_variant) "K" (-1) _) _).
  - unfold board_wf. vm_compute. split_and!; reflexivity.
  - reflexivity.
Defined.

(** X14.  When [check_960_castling] returns [OK], for each color with a
    nonempty castling entry the row of that color's start king square holds
    the king letter ([K], [k]) and the rook letter ([R], [r]) of the color. *)
Theorem check_960_castling_OK info b kingPositionsStart :
  check_960_castling info b kingPositionsStart = Some OK ->
  forall c,
    at_color info c <> "" ->
    let row := rowIdx (at_color kingPositionsStart c) in
    (exists f, 0 <= f < nbFiles b
               /\ get_piece b row f
                  = Some (match c with WHITE => "K" | BLACK => "k" end)%char)
    /\ (exists f, 0 <= f < nbFiles b
                  /\ get_piece b row f
                     = Some (match c with WHITE => "R" | BLACK => "r" end)%char).
Proof.
  intros H c Hne row. unfold check_960_castling in H.
  assert (c ∈ [WHITE; BLACK]) as Hc by (destruct c; set_solver).
  pose proof (for_each_OK _ _ H c Hc) as Hcol. cbv beta in Hcol.
  assert (forall p, p ∈ ["K"%char; "R"%char] ->
            exists f, 0 <= f < nbFiles b
                      /\ get_piece b row f
                         = Some (match c with
                                 | BLACK => tolower p | WHITE => p end)) as Hp.
  { intros p Hin. pose proof (for_each_OK _ _ Hcol p Hin) as Hrow.
    cbv beta in Hrow. rewrite (size_nonempty _ Hne) in Hrow.
    fold row in Hrow.
    destruct (is_piece_on_rank b _ row) as [[]|] eqn:Hon; [|done..].
    unfold is_piece_on_rank in Hon.
    apply is_piece_on_rank_from_true in Hon as (f & Hf & Hg).
    apply elem_of_seqZ in Hf. exists f. split; [lia|done]. }
  split.
  - destruct (Hp "K"%char ltac:(set_solver)) as (f & Hf & Hg).
    exists f. split; [done|]. by destruct c.
  - destruct (Hp "R"%char ltac:(set_solver)) as (f & Hf & Hg).
    exists f. split; [done|]. by destruct c.
Qed.

Lemma check_960_castling_OK_witness :
  exists f, 0 <= f < 8
            /\ get_piece (board_of "rnbqkbnr/pppppppp/8/8/8/8/PPPPPPPP/RNBQKBNR"
                                   chess_variant) 0 f = Some "K"%char.
Proof.
  refine (proj1 (check_960_castling_OK ("kq", "")
                   (board_of "rnbqkbnr/pppppppp/8/8/8/8/PPPPPPPP/RNBQKBNR"
                             chess_variant)
                   (mkCharSquare 0 4, mkCharSquare 7 4) _ WHITE _)).
  - run.
  - discriminate.
Defined.

(** ** disambiguation_level *)

Section disambiguation_properties.
Context {E : Enumerators} {G : Engine}.

Lemma MoveType_eqb_false a b : a <> b -> MoveType_eqb a b = false.
Proof.
  intros H. destruct (MoveType_eqb a b) eqn:He; [|done].
  by apply MoveType_eqb_eq in He.
Qed.

(** X15.  Which levels [disambiguation_level] can return: none for a drop; the
    square for any other move under LAN and Janggi; none or the square, never
    file or rank alone, under the Shogi notations; file or rank, never none
    or the square, for a non-drop move under Xiangqi WXF. *)
Theorem disambiguation_level_ranges (pos : Position) (m : Move) (n : Notation) :
  (move_type m = DROP -> disambiguation_level pos m n = NO_DISAMBIGUATION)
  /\ (move_type m <> DROP -> n = NOTATION_LAN \/ n = NOTATION_JANGGI ->
      disambiguation_level pos m n = SQUARE_DISAMBIGUATION)
  /\ (is_shogi n = true ->
      disambiguation_level pos m n = NO_DISAMBIGUATION
      \/ disambiguation_level pos m n = SQUARE_DISAMBIGUATION)
  /\ (move_type m <> DROP -> n = NOTATION_XIANGQI_WXF ->
      disambiguation_level pos m n = FILE_DISAMBIGUATION
      \/ disambiguation_level pos m n = RANK_DISAMBIGUATION).
Proof.
  split_and!.
  - intros H. unfold disambiguation_level. by rewrite H.
  - intros H Hn. unfold disambiguation_level.
    rewrite (MoveType_eqb_false _ _ H). by destruct Hn as [-> | ->].
  - intros Hs. unfold disambiguation_level.
    destruct (MoveType_eqb (move_type m) DROP); [by left|].
    destruct n; try done; cbn [Notation_eqb orb andb];
      rewrite Hs; destruct (_ =? 0); auto.
  - intros H ->. unfold disambiguation_level.
    rewrite (MoveType_eqb_false _ _ H). cbn [Notation_eqb orb].
    repeat case_match; auto.
Qed.

End disambiguation_properties.

Lemma disambiguation_level_ranges_witness :
  disambiguation_level (G := Sample.engine) (Sample.two_rooks (Some 1))
    Sample.rook_a1_b1 NOTATION_LAN = SQUARE_DISAMBIGUATION.
Proof.
  refine (proj1 (proj2 (disambiguation_level_ranges (G := Sample.engine)
                          (Sample.two_rooks (Some 1)) Sample.rook_a1_b1
                          NOTATION_LAN)) _ _).
  - discriminate.
  - by left.
Defined.

(** ** The general rule of disambiguation_level *)

Lemma nonzero_bit b : b <> 0 -> exists s, Z.testbit b s = true.
Proof.
  intros H. destruct (Z_lt_dec 0 b) as [Hpos|Hneg].
  - exists (Z.log2 b). by apply Z.bit_log2.
  - exists (Z.succ (Z.log2 (Z.abs b))). apply Z.bits_iff_neg'. lia.
Qed.

Lemma eqb_zero_bits b :
  (b =? 0) = true <-> forall s, Z.testbit b s = false.
Proof.
  split.
  - intros H s. apply Z.eqb_eq in H. subst. apply Z.bits_0.
  - intros H. apply Z.eqb_eq. by apply Z.bits_inj_0.
Qed.

Lemma eqb_zero_false_bits b :
  (b =? 0) = false <-> exists s, Z.testbit b s = true.
Proof.
  split.
  - intros H. apply Z.eqb_neq in H. by apply nonzero_bit.
  - intros [s Hs]. apply Z.eqb_neq. intros ->. by rewrite Z.bits_0 in Hs.
Qed.

Lemma fold_others_testbit (P : Square -> bool) (l : list Square) : forall acc s,
  (forall x, x ∈ l -> 0 <= x) ->
  Z.testbit (fold_left (fun others x =>
                          if P x then Z.lor others (square_bb x) else others)
                       l acc) s = true
  <-> Z.testbit acc s = true \/ (s ∈ l /\ P s = true).
Proof.
  induction l as [|x l IH]; intros acc s Hl; simpl.
  - rewrite elem_of_nil. naive_solver.
  - rewrite IH by (intros y Hy; apply Hl; by right).
    rewrite elem_of_cons.
    assert (0 <= x) as Hx by (apply Hl; left).
    destruct (P x) eqn:HP.
    + rewrite Z.lor_spec, square_bb_testbit, orb_true_iff, Z.eqb_eq by done.
      naive_solver.
    + split; [naive_solver|]. intros [?|[[->|?] ?]]; [auto|congruence|auto].
Qed.

Section general_rule.
Context {E : Enumerators} {G : Engine}.

Lemma disambiguation_others_spec (pos : Position) (m : Move) (n : Notation) s :
  let pcs := pieces_cpt pos (side_to_move pos) (type_of (moved_piece pos m)) in
  0 <= pcs ->
  Z.testbit pcs (from_sq m) = true ->
  Z.testbit (disambiguation_others pos (from_sq m) (to_sq m) n
               (Z.lxor pcs (square_bb (from_sq m)))) s = true
  <-> competitor pos m n s.
Proof.
  intros pcs Hpos Hfrom.
  assert (0 <= from_sq m) as Hf0.
  { destruct (Z_lt_dec (from_sq m) 0); [|lia]. by rewrite Z.testbit_neg_r in Hfrom. }
  assert (0 <= Z.lxor pcs (square_bb (from_sq m))) as Hb0.
  { apply Z.lxor_nonneg. unfold square_bb. rewrite Z.shiftl_1_l.
    split; intros _; [apply Z.pow_nonneg; lia|done]. }
  unfold disambiguation_others. rewrite fold_others_testbit.
  2:{ intros x Hx. apply squares_of_spec in Hx as [_ Hx].
      destruct (Z_lt_dec x 0); [|lia]. by rewrite Z.testbit_neg_r in Hx. }
  rewrite Z.bits_0, squares_of_spec, Z.lxor_spec, square_bb_testbit by done.
  fold pcs. unfold competitor. fold pcs.
  rewrite !andb_true_iff, negb_true_iff.
  destruct (Z.eqb_spec (from_sq m) s) as [Heq|Hne].
  - subst s. rewrite Hfrom. simpl. naive_solver.
  - rewrite xorb_false_r. split.
    + intros [?|(Hb & (Hp & Hl) & Hsh)]; [done|]. destruct Hb as [_ Hb].
      split_and!; try done. intros Hs. rewrite Hs in Hsh. simpl in Hsh.
      apply negb_false_iff, Nat.eqb_eq in Hsh. done.
    + intros (_ & Hb & Hp & Hl & Hsh). right. split_and!; try done.
      destruct (is_shogi n); [|done]. simpl.
      apply negb_false_iff, Nat.eqb_eq. by apply Hsh.
Qed.

(** X16.  The general rule of [disambiguation_level] (a non-drop move, not under
    LAN, Janggi or Xiangqi WXF, not a pawn under SAN, the mover standing on
    its origin square), in terms of the competitors: the other pieces of the
    mover's type and color with a pseudo-legal and legal move to the
    destination (and, under Shogi, the promoted status of the mover).  No
    disambiguation exactly when there is no competitor; under Shogi the
    square as soon as there is one; otherwise the file exactly when there
    are competitors and none on the origin file, the rank exactly when one is
    on the origin file and none on the origin rank, the square exactly when
    one is on the origin file and one on the origin rank. *)
Theorem disambiguation_level_general (pos : Position) (m : Move) (n : Notation) :
  let pcs := pieces_cpt pos (side_to_move pos) (type_of (moved_piece pos m)) in
  let on_file s := Z.testbit (file_bb (from_sq m)) s = true in
  let on_rank s := Z.testbit (rank_bb (from_sq m)) s = true in
  move_type m <> DROP ->
  n <> NOTATION_LAN -> n <> NOTATION_JANGGI -> n <> NOTATION_XIANGQI_WXF ->
  ~ (n = NOTATION_SAN /\ type_of (moved_piece pos m) = PAWN) ->
  0 <= pcs ->
  Z.testbit pcs (from_sq m) = true ->
  (disambiguation_level pos m n = NO_DISAMBIGUATION
   <-> forall s, ~ competitor pos m n s)
  /\ (is_shogi n = true -> (exists s, competitor pos m n s) ->
      disambiguation_level pos m n = SQUARE_DISAMBIGUATION)
  /\ (is_shogi n = false ->
      (disambiguation_level pos m n = FILE_DISAMBIGUATION
       <-> (exists s, competitor pos m n s)
           /\ forall s, competitor pos m n s -> ~ on_file s)
      /\ (disambiguation_level pos m n = RANK_DISAMBIGUATION
          <-> (exists s, competitor pos m n s /\ on_file s)
              /\ forall s, competitor pos m n s -> ~ on_rank s)
      /\ (disambiguation_level pos m n = SQUARE_DISAMBIGUATION
          <-> (exists s, competitor pos m n s /\ on_file s)
              /\ exists s, competitor pos m n s /\ on_rank s)).
Proof.
  intros pcs on_file on_rank Hdrop Hlan Hjan Hxq Hpawn Hpos Hfrom.
  pose proof (fun s => disambiguation_others_spec pos m n s Hpos Hfrom) as Hspec.
  fold pcs in Hspec.
  set (others := disambiguation_others pos (from_sq m) (to_sq m) n
                   (Z.lxor pcs (square_bb (from_sq m)))) in *.
  assert (disambiguation_level pos m n
          = if others =? 0 then NO_DISAMBIGUATION
            else if is_shogi n then SQUARE_DISAMBIGUATION
            else if Z.land others (file_bb (from_sq m)) =? 0 then FILE_DISAMBIGUATION
            else if Z.land others (rank_bb (from_sq m)) =? 0 then RANK_DISAMBIGUATION
            else SQUARE_DISAMBIGUATION) as ->.
  { unfold disambiguation_level. rewrite (MoveType_eqb_false _ _ Hdrop).
    fold pcs others.
    destruct n; try done; cbn [Notation_eqb orb andb]; try reflexivity.
    destruct (Nat.eqb_spec (type_of (moved_piece pos m)) PAWN) as [Hp|Hp];
      [destruct Hpawn; by split|reflexivity]. }
  assert ((others =? 0) = true <-> forall s, ~ competitor pos m n s) as Hnone.
  { rewrite eqb_zero_bits. split; intros H s.
    - rewrite <- Hspec. by rewrite H.
    - specialize (H s). rewrite <- Hspec in H. by destruct (Z.testbit others s). }
  assert ((others =? 0) = false <-> exists s, competitor pos m n s) as Hsome.
  { rewrite eqb_zero_false_bits. by setoid_rewrite Hspec. }
  assert (forall bb,
             ((Z.land others bb =? 0) = true
              <-> forall s, competitor pos m n s -> ~ Z.testbit bb s = true)
             /\ ((Z.land others bb =? 0) = false
                 <-> exists s, competitor pos m n s /\ Z.testbit bb s = true))
    as Hland.
  { intros bb. rewrite eqb_zero_bits, eqb_zero_false_bits.
    setoid_rewrite Z.land_spec. setoid_rewrite andb_true_iff.
    setoid_rewrite Hspec. split; [|done]. split; intros H s.
    - intros Hc Hb. specialize (H s). apply Hspec in Hc.
      by rewrite Hc, Hb in H.
    - specialize (H s). rewrite <- Hspec in H.
      destruct (Z.testbit others s); [|done]. simpl.
      destruct (Z.testbit bb s); [|done]. by destruct H. }
  destruct (Hland (file_bb (from_sq m))) as [Hf0 Hf1].
  destruct (Hland (rank_bb (from_sq m))) as [Hr0 Hr1].
  split_and!.
  - rewrite <- Hnone. repeat case_match; done.
  - intros Hs Hex. apply Hsome in Hex. by rewrite Hex, Hs.
  - intros Hs. rewrite Hs. unfold on_file, on_rank. split_and!.
    + rewrite <- Hsome, <- Hf0. repeat case_match; naive_solver.
    + rewrite <- Hf1, <- Hr0. repeat case_match; try naive_solver.
      all: split; [done|]; intros [Hx _]; apply Hf1 in Hx as (s & Hc & _);
        assert ((others =? 0) = false) by (apply Hsome; eauto); congruence.
    + rewrite <- Hf1, <- Hr1. repeat case_match; try naive_solver.
      all: split; [done|]; intros [Hx _]; apply Hf1 in Hx as (s & Hc & _);
        assert ((others =? 0) = false) by (apply Hsome; eauto); congruence.
Qed.

End general_rule.

Lemma disambiguation_level_general_witness :
  disambiguation_level (G := Sample.engine) (Sample.two_rooks (Some 1))
    Sample.rook_a1_b1 NOTATION_SAN = NO_DISAMBIGUATION.
Proof.
  refine (proj2 (proj1 (disambiguation_level_general (G := Sample.engine)
                          (Sample.two_rooks (Some 1)) Sample.rook_a1_b1
                          NOTATION_SAN _ _ _ _ _ _ _)) _).
  - discriminate.
  - discriminate.
  - discriminate.
  - discriminate.
  - intros [_ H]. vm_compute in H. discriminate.
  - vm_compute. discriminate.
  - run.
  - intros s (_ & _ & H & _). discriminate.
Defined.

(** ** move_to_san and the position *)

Section move_to_san_properties.
Context {E : Enumerators} {G : Engine}.

(** X17.  For a position on which [undo_move] takes back [do_move]: whenever
    [move_to_san] returns a text the caller's position is what it was, and
    the text is the notation built before the check test followed by
    nothing, [+] or [#], by nothing under a Shogi notation or when the move
    gives no check.  No text is returned exactly when the move gives check,
    the notation is not a Shogi one and the count of legal replies is left
    abnormally. *)
Theorem move_to_san_frame (pos : Position) (m : Move) (n : Notation) :
  undo_move (do_move pos m) m = pos ->
  (forall text,
      snd (move_to_san pos m n) = Some text ->
      fst (move_to_san pos m n) = pos
      /\ exists suffix,
           text = san_before_check pos m n ++ suffix
           /\ (suffix = "" \/ suffix = "+" \/ suffix = "#")
           /\ (is_shogi n = true \/ gives_check pos m = false -> suffix = ""))
  /\ (snd (move_to_san pos m n) = None
      <-> gives_check pos m = true /\ is_shogi n = false
          /\ legal_moves_size (do_move pos m) = None).
Proof.
  intros Hundo. unfold move_to_san.
  destruct (gives_check pos m) eqn:Hc, (is_shogi n) eqn:Hs; simpl.
  - split; [|naive_solver]. intros text [= <-]. split; [done|].
    exists "". split; [|auto]. apply chars_inj. rewrite chars_app. simpl.
    by rewrite app_nil_r.
  - destruct (legal_moves_size (do_move pos m)) as [k|] eqn:Hk; simpl.
    + split; [|naive_solver]. intros text [= <-]. split; [done|].
      eexists. split; [reflexivity|]. split; [destruct (k =? 0); auto|].
      intros [?|?]; done.
    + split; [done|naive_solver].
  - split; [|naive_solver]. intros text [= <-]. split; [done|].
    exists "". split; [|auto]. apply chars_inj. rewrite chars_app. simpl.
    by rewrite app_nil_r.
  - split; [|naive_solver]. intros text [= <-]. split; [done|].
    exists "". split; [|auto]. apply chars_inj. rewrite chars_app. simpl.
    by rewrite app_nil_r.
Qed.

End move_to_san_properties.

Lemma move_to_san_frame_witness :
  fst (move_to_san (G := Sample.engine) (Sample.two_rooks (Some 3))
         Sample.rook_a1_b1 NOTATION_XIANGQI_WXF)
  = Sample.two_rooks (Some 3).
Proof.
  refine (proj1 (proj1 (move_to_san_frame (G := Sample.engine)
                          (Sample.two_rooks (Some 3)) Sample.rook_a1_b1
                          NOTATION_XIANGQI_WXF _) "R-=8+" _)).
  - reflexivity.
  - run.
Defined.

(** ** hasInsufficientMaterial *)

Section material_properties.
Context {E : Enumerators} {G : Engine}.

Lemma restricted_fold_false (c : Color) (pos : Position) s (l : list PieceType) :
  forall acc,
    Z.testbit acc s = false ->
    (forall pt, pt ∈ l ->
                pt = KING
                \/ Z.land (board_bb pos c pt) (board_bb pos (flip c) KING) = 0 ->
                Z.testbit (pieces_cpt pos c pt) s = false) ->
    Z.testbit
      (fold_left
         (fun restricted pt =>
            if (pt =? KING)%nat
               || negb (nonzero (Z.land (board_bb pos c pt)
                                        (board_bb pos (flip c) KING)))
            then Z.lor restricted (pieces_cpt pos c pt)
            else restricted) l acc) s = false.
Proof.
  induction l as [|pt l IH]; intros acc Hacc Hl; simpl; [done|].
  apply IH; [|intros pt' Hin; apply Hl; by right].
  destruct (_ || _) eqn:Hc; [|done].
  rewrite Z.lor_spec, Hacc. simpl. apply Hl; [left|].
  apply orb_prop in Hc as [Hc|Hc].
  - left. by apply Nat.eqb_eq.
  - right. unfold nonzero in Hc. rewrite negb_involutive in Hc.
    by apply Z.eqb_eq.
Qed.

(** X18.  [hasInsufficientMaterial] is false as soon as the side has a piece of
    a mating type (rook, queen, archbishop, chancellor, silver, gold,
    commoner, centaur) that is not among the restricted pieces: it does not
    stand on the opposing king's bitboard, and no piece type that is the king
    or whose region misses the opposing king's region covers its square. *)
Theorem hasInsufficientMaterial_mating_piece (c : Color) (pos : Position)
    (pt : PieceType) (s : Square) :
  In pt mating_piece_types ->
  Z.testbit (pieces_cpt pos c pt) s = true ->
  Z.testbit (pieces_cpt pos (flip c) KING) s = false ->
  (forall pt', pt' ∈ piece_types pos ->
               pt' = KING
               \/ Z.land (board_bb pos c pt') (board_bb pos (flip c) KING) = 0 ->
               Z.testbit (pieces_cpt pos c pt') s = false) ->
  hasInsufficientMaterial c pos = false.
Proof.
  intros Hpt Hs Hking Hothers. unfold hasInsufficientMaterial.
  destruct (_ || _ || _ || _); [done|].
  fold (restricted_pieces c pos).
  assert (Z.testbit (restricted_pieces c pos) s = false) as Hr.
  { apply restricted_fold_false; [done|].
    intros pt' Hin. apply Hothers. by apply elem_of_elements. }
  assert (0 <= s) as Hs0.
  { destruct (Z_lt_dec s 0); [|lia]. by rewrite Z.testbit_neg_r in Hs. }
  assert (existsb
            (fun pt0 =>
               nonzero (Z.land (pieces_cpt pos c pt0)
                               (Z.lnot (restricted_pieces c pos)))
               || negb (count pos c PAWN =? 0)
                  && bool_decide (pt0 ∈ promotion_piece_types pos))
            [ROOK; QUEEN; ARCHBISHOP; CHANCELLOR; SILVER; GOLD; COMMONER; CENTAUR]
          = true) as ->; [|done].
  apply existsb_exists. exists pt. split; [exact Hpt|].
  apply orb_true_intro. left. unfold nonzero. apply negb_true_iff.
  apply eqb_zero_false_bits. exists s.
  by rewrite Z.land_spec, Z.lnot_spec, Hs, Hr by done.
Qed.

Lemma bb_subset_land_zero a b :
  bb_subset a b -> 0 <= a -> Z.land a (Z.lnot b) = 0.
Proof.
  intros Hsub Ha. apply Z.bits_inj_0. intros s.
  destruct (Z_lt_dec s 0) as [Hneg|Hpos]; [by apply Z.testbit_neg_r|].
  rewrite Z.land_spec, Z.lnot_spec by lia.
  destruct (Z.testbit a s) eqn:Has; [|done].
  by rewrite (Hsub _ Has).
Qed.

Lemma colorbound_fold_bits (pos : Position) (r : Bitboard) (l : list PieceType) s :
  forall acc,
    Z.testbit (fold_left (fun colorbound pt =>
                            Z.lor colorbound (Z.land (pieces_pt pos pt) (Z.lnot r)))
                         l acc) s = true ->
    Z.testbit acc s = true \/ Z.testbit r s = false.
Proof.
  induction l as [|pt l IH]; intros acc H; simpl in H; [by left|].
  apply IH in H as [H|H]; [|by right].
  rewrite Z.lor_spec in H. apply orb_prop in H as [H|H]; [by left|].
  right. rewrite Z.land_spec in H. apply andb_prop in H as [_ H].
  destruct (Z_lt_dec s 0) as [Hneg|Hpos].
  - by rewrite Z.testbit_neg_r in H by done.
  - rewrite Z.lnot_spec in H by lia. by apply negb_true_iff.
Qed.

(** X19.  [hasInsufficientMaterial] is true when no other win rule applies (no
    captures to hand, empty hand, no extinction value, no flag piece), the
    side has no pawn, and every piece of the side is restricted: its type is
    the king or a type whose region never meets the region of the opposing
    king. *)
Theorem hasInsufficientMaterial_all_restricted (c : Color) (pos : Position) :
  captures_to_hand pos = false ->
  count_in_hand pos c ALL_PIECES = 0 ->
  extinction_value pos = VALUE_NONE ->
  capture_the_flag_piece pos = 0%nat ->
  count pos c PAWN = 0 ->
  bb_subset (pieces_c pos c) (pieces pos) ->
  bb_subset (pieces_c pos c) (restricted_pieces c pos) ->
  (forall pt, In pt mating_piece_types ->
              0 <= pieces_cpt pos c pt
              /\ bb_subset (pieces_cpt pos c pt) (pieces_c pos c)) ->
  hasInsufficientMaterial c pos = true.
Proof.
  intros Hcap Hhand Hext Hctf Hpawn Hall Hres Hmate.
  unfold hasInsufficientMaterial.
  rewrite Hcap, Hhand, Hext, Hctf, Hpawn. rewrite !Z.eqb_refl.
  cbn [negb orb andb Nat.eqb].
  fold (restricted_pieces c pos).
  set (r := restricted_pieces c pos) in *.
  assert (existsb
            (fun pt =>
               nonzero (Z.land (pieces_cpt pos c pt) (Z.lnot r)) || false)
            [ROOK; QUEEN; ARCHBISHOP; CHANCELLOR; SILVER; GOLD; COMMONER; CENTAUR]
          = false) as ->.
  { apply not_true_is_false. intros H. apply existsb_exists in H as (pt & Hin & H).
    destruct (Hmate pt Hin) as [H0 Hsub].
    rewrite bb_subset_land_zero in H; [done| |done].
    intros s Hs. apply Hres, Hsub, Hs. }
  set (colorbound := fold_left _ _ 0).
  assert (forall s, Z.testbit (pieces_c pos c) s = true ->
                    Z.testbit colorbound s = false) as Hcb.
  { intros s Hs. destruct (Z.testbit colorbound s) eqn:Hb; [|done].
    apply colorbound_fold_bits in Hb as [Hb|Hb].
    - by rewrite Z.bits_0 in Hb.
    - by rewrite (Hres _ Hs) in Hb. }
  assert (Z.land colorbound (pieces_c pos c) = 0) as ->.
  { apply Z.bits_inj_0. intros s. rewrite Z.land_spec.
    destruct (Z.testbit (pieces_c pos c) s) eqn:Hs;
      [by rewrite (Hcb _ Hs)|apply andb_false_r]. }
  assert (Z.land (pieces_c pos c)
                 (Z.lxor (Z.lxor (pieces pos) r) colorbound) = 0) as ->.
  { apply Z.bits_inj_0. intros s. rewrite Z.land_spec, !Z.lxor_spec.
    destruct (Z.testbit (pieces_c pos c) s) eqn:Hs; [|done].
    by rewrite (Hall _ Hs), (Hres _ Hs), (Hcb _ Hs). }
  reflexivity.
Qed.

End material_properties.

Lemma bb_subset_land a b : Z.land a b = a -> bb_subset a b.
Proof.
  intros H s Hs. rewrite <- H, Z.land_spec in Hs. by apply andb_prop in Hs as [_ ?].
Qed.

Lemma hasInsufficientMaterial_mating_piece_witness :
  hasInsufficientMaterial (G := Sample.engine) WHITE (Sample.two_rooks (Some 1))
  = false.
Proof.
  refine (hasInsufficientMaterial_mating_piece (G := Sample.engine) WHITE
            (Sample.two_rooks (Some 1)) ROOK 0 _ _ _ _).
  - left. reflexivity.
  - run.
  - run.
  - intros pt' _ [-> | H]; [run|]. vm_compute in H. discriminate.
Defined.

Lemma hasInsufficientMaterial_all_restricted_witness :
  hasInsufficientMaterial (G := Sample.engine) WHITE lone_kings = true.
Proof.
  refine (hasInsufficientMaterial_all_restricted (G := Sample.engine) WHITE
            lone_kings _ _ _ _ _ _ _ _).
  - reflexivity.
  - reflexivity.
  - reflexivity.
  - reflexivity.
  - run.
  - apply bb_subset_land. run.
  - apply bb_subset_land. run.
  - intros pt Hin. split; [|apply bb_subset_land].
    + repeat (destruct Hin as [<-|Hin]; [vm_compute; discriminate|]). destruct Hin.
    + repeat (destruct Hin as [<-|Hin]; [run|]). destruct Hin.
Defined.

(** ** Pockets *)

Lemma pocket_scan_spec v stopChar pre rest : forall w b,
  stopChar ∉ pre ->
  let r := pocket_scan v stopChar (pre ++ stopChar :: rest) (w, b) in
  (fst r = OK
   <-> Forall (fun c => c = "-"%char \/ contains c (pieceToChar v) = true) pre)
  /\ (fst r = OK ->
      chars (fst (snd r)) = (chars w ++ map tolower (List.filter isupper pre))%list
      /\ chars (snd (snd r))
         = (chars b ++ List.filter
                         (fun c => negb (Ascii.eqb c "-") && negb (isupper c)) pre)%list).
Proof.
  induction pre as [|c pre IH]; intros w b Hstop; cbn zeta.
  - cbn [app pocket_scan]. rewrite Ascii.eqb_refl. simpl.
    split; [split; [constructor|done]|]. intros _. by rewrite !app_nil_r.
  - apply not_elem_of_cons in Hstop as [Hc Hstop].
    cbn [app pocket_scan].
    assert (Ascii.eqb c stopChar = false) as ->.
    { destruct (Ascii.eqb c stopChar) eqn:He; [|done].
      apply Ascii.eqb_eq in He. congruence. }
    destruct (Ascii.eqb c "-") eqn:Hd; cbn [negb].
    + apply Ascii.eqb_eq in Hd. subst c.
      destruct (IH w b Hstop) as [Hok Hs]. split.
      * rewrite Hok, Forall_cons. naive_solver.
      * intros H. exact (Hs H).
    + assert (c <> "-"%char) as Hne.
      { intros ->. by rewrite Ascii.eqb_refl in Hd. }
      destruct (contains c (pieceToChar v)) eqn:Hp; cbn [negb].
      * destruct (isupper c) eqn:Hu; unfold set_color, at_color; cbn [fst snd].
        -- destruct (IH (push_back w (tolower c)) b Hstop) as [Hok Hs]. split.
           ++ rewrite Hok, Forall_cons. naive_solver.
           ++ intros H. destruct (Hs H) as [H1 H2].
              rewrite H1, H2, chars_push_back. cbn [List.filter].
              rewrite Hu, Hd. cbn [negb andb map].
              by rewrite <- (assoc_L (++)%list).
        -- destruct (IH w (push_back b c) Hstop) as [Hok Hs]. split.
           ++ rewrite Hok, Forall_cons. naive_solver.
           ++ intros H. destruct (Hs H) as [H1 H2].
              rewrite H1, H2, chars_push_back. cbn [List.filter].
              rewrite Hu, Hd. cbn [negb andb].
              by rewrite <- (assoc_L (++)%list).
      * cbn [fst]. split; [|done]. split; [done|].
        intros H. apply Forall_cons in H as [[?|?] _]; congruence.
Qed.

Lemma pocket_scan_no_stop v stopChar l : forall pockets,
  stopChar ∉ l -> fst (pocket_scan v stopChar l pockets) = NOK.
Proof.
  induction l as [|c l IH]; intros pk Hstop; [done|].
  apply not_elem_of_cons in Hstop as [Hc Hstop]. cbn [pocket_scan].
  assert (Ascii.eqb c stopChar = false) as ->.
  { destruct (Ascii.eqb c stopChar) eqn:He; [|done].
    apply Ascii.eqb_eq in He. congruence. }
  repeat case_match; try done; by apply IH.
Qed.

Lemma elem_of_rev {A} (x : A) l : x ∈ rev l <-> x ∈ l.
Proof. rewrite !list_elem_of_In. symmetry. apply in_rev. Qed.

(** X20.  [check_pocket_info] on a board field that ends with a pocket: after
    the last slash when the field holds [nbRanks] slashes, between the last
    opening bracket and a closing bracket at the end otherwise.  It is
    defined, returns [OK] exactly when every pocket character is a dash or a
    piece letter of the variant, and then the white pocket is the upper-case
    letters of the pocket in lower case and the black pocket the other
    letters, both read from the end of the pocket backwards. *)
Theorem check_pocket_info_pocket v nbRanks fenBoard body pocket :
  fenBoard
  = body ++ String (fst (pocket_delims fenBoard nbRanks)) pocket
         ++ snd (pocket_delims fenBoard nbRanks) ->
  fst (pocket_delims fenBoard nbRanks) ∉ chars pocket ->
  exists r, check_pocket_info fenBoard nbRanks v ("", "") = Some r
  /\ (fst r = OK
      <-> Forall (fun c => c = "-"%char \/ contains c (pieceToChar v) = true)
            (chars pocket))
  /\ (fst r = OK ->
      chars (at_color (snd r) WHITE)
      = map tolower (List.filter isupper (rev (chars pocket)))
      /\ chars (at_color (snd r) BLACK)
         = List.filter (fun c => negb (Ascii.eqb c "-") && negb (isupper c))
             (rev (chars pocket))).
Proof.
  intros Hshape Hstop. unfold check_pocket_info.
  assert (forall stop closing,
    stop ∉ chars pocket ->
    let r := pocket_scan v stop
               (drop (List.length (chars closing))
                  (rev (chars (body ++ String stop pocket ++ closing)))) ("", "") in
    (fst r = OK
      <-> Forall (fun c => c = "-"%char \/ contains c (pieceToChar v) = true)
            (chars pocket))
    /\ (fst r = OK ->
      chars (at_color (snd r) WHITE)
      = map tolower (List.filter isupper (rev (chars pocket)))
      /\ chars (at_color (snd r) BLACK)
         = List.filter (fun c => negb (Ascii.eqb c "-") && negb (isupper c))
             (rev (chars pocket)))) as Hscan.
  { intros stop closing Hs.
    rewrite !chars_app, chars_String.
    rewrite !rev_app_distr. cbn [rev].
    rewrite <- !(assoc_L (++)%list).
    rewrite <- (length_rev (chars closing)), drop_app_length.
    cbn [app].
    assert (stop ∉ rev (chars pocket)) as Hs'.
    { by rewrite elem_of_rev. }
    destruct (pocket_scan_spec v stop (rev (chars pocket)) (rev (chars body))
                "" "" Hs') as [Hok Hsem].
    cbn zeta in Hok, Hsem. split.
    - rewrite Hok. rewrite !Forall_forall.
      split; intros H c Hc; apply H; [by rewrite elem_of_rev|by rewrite <- elem_of_rev].
    - intros H. exact (Hsem H). }
  unfold pocket_delims in *.
  destruct (count_char "/" fenBoard =? nbRanks) eqn:Hcount; cbn [fst snd] in *.
  - eexists. split; [reflexivity|].
    rewrite Hshape at 1 2 3 4.
    exact (Hscan "/"%char "" Hstop).
  - assert (last (chars fenBoard) = Some "]"%char) as ->.
    { rewrite Hshape, !chars_app, chars_String.
      change (chars "]") with ["]"%char].
      rewrite (assoc_L (++)%list). apply last_snoc. }
    cbn [mbind option_bind mret option_ret]. cbv beta.
    rewrite Ascii.eqb_refl. cbn [negb].
    eexists. split; [reflexivity|].
    rewrite Hshape at 1 2 3 4.
    exact (Hscan "["%char "]" Hstop).
Qed.

Lemma check_pocket_info_pocket_witness :
  exists r, check_pocket_info "8/8[Qp-]" 8 chess_variant ("", "") = Some r
  /\ fst r = OK
  /\ chars (at_color (snd r) WHITE) = ["q"%char]
  /\ chars (at_color (snd r) BLACK) = ["p"%char].
Proof.
  destruct (check_pocket_info_pocket chess_variant 8 "8/8[Qp-]" "8/8" "Qp-")
    as (r & Hr & Hok & Hsem).
  - vm_compute; reflexivity.
  - apply (bool_decide_eq_true_1 _). vm_compute; reflexivity.
  - exists r. split; [exact Hr|].
    assert (fst r = OK) as H.
    { apply Hok. repeat constructor; (by left) || (right; vm_compute; reflexivity). }
    split; [exact H|]. exact (Hsem H).
Defined.

(** ** The board a well-formed board field is parsed to *)

Lemma single_digits_prev p q rank :
  isdigit p = false -> isdigit q = false ->
  single_digits p rank = single_digits q rank.
Proof. intros Hp Hq. destruct rank; simpl; [done|]. by rewrite Hp, Hq. Qed.

Lemma neq_eqb_false (c d : ascii) : c <> d -> Ascii.eqb c d = false.
Proof.
  intros H. destruct (Ascii.eqb c d) eqn:He; [|done].
  apply Ascii.eqb_eq in He. congruence.
Qed.

Lemma fill_loop_rank sp v nr nf w i k : forall row done pre post s,
  nr = maxRank v + 1 -> 0 <= i < nr -> 0 < nf -> in_int (nr * nf) = true ->
  w <= nf ->
  single_digits (fs_prevChar s) row = true ->
  Forall (fun c => c <> "/"%char /\ c <> " "%char /\ c <> "["%char) row ->
  Z.of_nat (List.length pre) = (maxRank v - i) * nf ->
  Z.of_nat (List.length done + List.length (expand_rank sp row)) = w ->
  fs_rankIdx s = i ->
  fs_fileIdx s = Z.of_nat (List.length done) ->
  fs_board s
  = mkCharBoard nr nf
      (pre ++ done
       ++ replicate (List.length (expand_rank sp row)) " "%char ++ post)%list ->
  fill_loop sp v (row ++ k)%list s
  = fill_loop sp v k
      (mkFill i w (fold_left (fun _ c => c) row (fs_prevChar s))
         (mkCharBoard nr nf (pre ++ done ++ expand_rank sp row ++ post)%list)).
Proof.
  induction row as [|c row IH]; intros done pre post s Hnr Hi Hnf Hint Hw
    Hsd Hsep Hpre Hlen Hr Hf Hb.
  { cbn [app expand_rank fold_left]. cbn [expand_rank List.length replicate] in *.
    destruct s as [r f p b]. cbn [fs_rankIdx fs_fileIdx fs_prevChar fs_board] in *.
    subst r f b. do 3 f_equal. lia. }
  apply Forall_cons in Hsep as [(Hc1 & Hc2 & Hc3) Hsep].
  cbn [single_digits] in Hsd. apply andb_prop in Hsd as [Hpd Hsd].
  cbn [app fill_loop fold_left]. unfold fill_char.
  rewrite (neq_eqb_false _ _ Hc2), (neq_eqb_false _ _ Hc3). cbn [orb].
  cbn [expand_rank] in Hlen, Hb |- *.
  assert (in_int nf = true) as Hnfi.
  { apply (in_int_between 0 nf (nr * nf)); [done|done|nia]. }
  destruct (isdigit c) eqn:Hd.
  - pose proof (isdigit_value c Hd) as Hv.
    rewrite length_app, length_replicate in Hlen, Hb.
    assert (isdigit (fs_prevChar s) = false) as ->.
    { rewrite andb_true_r in Hpd. by destruct (isdigit (fs_prevChar s)). }
    rewrite Hf.
    rewrite int_of_in
      by (apply (in_int_between 0 _ nf); [done|done|lia]).
    cbn [mbind option_bind]. cbv beta.
    rewrite (IH (done ++ replicate (Z.to_nat (digit_value c)) " "%char)%list
               pre post); cbn [fs_prevChar fs_rankIdx fs_fileIdx fs_board];
      try done.
    + by rewrite <- !(assoc_L (++)%list).
    + rewrite length_app, length_replicate. lia.
    + rewrite length_app, length_replicate. lia.
    + rewrite Hb. f_equal. rewrite replicate_add, <- !(assoc_L (++)%list). done.
  - rewrite (neq_eqb_false _ _ Hc1).
    destruct (contains c sp) eqn:Hsp; cbn [negb].
    + cbn [app] in Hlen, Hb |- *. cbn [mbind option_bind]. cbv beta.
      rewrite (IH done pre post);
        cbn [fs_prevChar fs_rankIdx fs_fileIdx fs_board]; done.
    + cbn [app List.length] in Hlen, Hb |- *.
      rewrite Hf, Hb. cbn [nbFiles].
      rewrite (proj2 (Z.eqb_neq _ _)) by lia.
      unfold set_piece, in_board. cbn [nbFiles nbRanks board].
      rewrite Hr.
      rewrite !length_app. cbn [List.length]. rewrite length_replicate.
      rewrite (proj2 (Z.leb_le _ _)) by lia.
      rewrite (proj2 (Z.ltb_lt _ _)) by lia.
      cbn [andb mbind option_bind]. cbv beta.
      rewrite int_of_in
        by (apply (in_int_between 0 _ nf); [done|done|lia]).
      cbn [mbind option_bind]. cbv beta.
      replace (Z.to_nat ((maxRank v - i) * nf + Z.of_nat (List.length done)))
        with (List.length (pre ++ done)%list + 0)%nat
        by (rewrite length_app; lia).
      rewrite (assoc_L (++)%list pre done), insert_app_r.
      cbn [replicate app]. cbn [insert list_insert].
      rewrite (IH (done ++ [c])%list pre post);
        cbn [fs_prevChar fs_rankIdx fs_fileIdx fs_board]; try done.
      * by rewrite <- !(assoc_L (++)%list).
      * rewrite length_app. cbn [List.length]. lia.
      * rewrite length_app. cbn [List.length]. lia.
      * by rewrite <- !(assoc_L (++)%list).
Qed.

Lemma join_app_last delim row rows lastrow :
  join delim (row :: rows ++ [lastrow])
  = row ++ String delim (join delim (rows ++ [lastrow])).
Proof. by destruct rows. Qed.

Lemma fill_loop_board sp v nr nf w lastrow : forall rows i prev post,
  nr = maxRank v + 1 -> 0 < nf -> in_int (nr * nf) = true ->
  0 <= i -> i + Z.of_nat (List.length rows) + 1 = nr ->
  isdigit prev = false ->
  Forall (fun row =>
            plain_rank row
            /\ Z.of_nat (List.length (expand_rank sp (chars row))) = nf) rows ->
  plain_rank lastrow ->
  Z.of_nat (List.length (expand_rank sp (chars lastrow))) = w -> w <= nf ->
  Z.of_nat (List.length post) = i * nf ->
  exists prev',
    fill_loop sp v (chars (join "/" (rows ++ [lastrow])))
      (mkFill i 0 prev
         (mkCharBoard nr nf
            (replicate (Z.to_nat ((nr - i) * nf)) " "%char ++ post)%list))
    = Some (Break
              (mkFill (nr - 1) w prev'
                 (mkCharBoard nr nf
                    (expand_rank sp (chars lastrow)
                     ++ replicate (Z.to_nat (nf - w)) " "%char
                     ++ concat (rev (map (fun row => expand_rank sp (chars row)) rows))
                     ++ post)%list))).
Proof.
  induction rows as [|row rows IH]; intros i prev post Hnr Hnf Hint Hi Hlen
    Hprev Hrows [Hlsd Hlsep] Hlw Hw Hpost; cbn [List.length] in Hlen.
  - cbn [app join map rev concat].
    exists (fold_left (fun _ c => c) (chars lastrow) prev).
    rewrite <- (app_nil_r (chars lastrow)) at 1.
    rewrite (fill_loop_rank sp v nr nf w i [] (chars lastrow) [] []
               (replicate (Z.to_nat (nf - w)) " "%char ++ post)%list);
      cbn [fs_prevChar fs_rankIdx fs_fileIdx fs_board List.length app];
      try done.
    + cbn [fill_loop]. do 3 f_equal. lia.
    + lia.
    + by rewrite (single_digits_prev prev "/").
    + lia.
    + f_equal. rewrite (assoc_L (++)%list), <- replicate_add. do 2 f_equal. nia.
  - apply Forall_cons in Hrows as [[[Hsd Hsep] Hrw] Hrows].
    cbn [app]. rewrite join_app_last, chars_app, chars_String.
    rewrite (fill_loop_rank sp v nr nf nf i
               ("/"%char :: chars (join "/" (rows ++ [lastrow])))
               (chars row) []
               (replicate (Z.to_nat ((maxRank v - i) * nf)) " "%char) post);
      cbn [fs_prevChar fs_rankIdx fs_fileIdx fs_board List.length app];
      try done.
    + cbn [fill_loop]. unfold fill_char.
      cbn [fs_prevChar fs_rankIdx fs_fileIdx fs_board nbFiles nbRanks].
      change (Ascii.eqb "/" " " || Ascii.eqb "/" "[") with false.
      change (isdigit "/") with false. change (Ascii.eqb "/" "/") with true.
      cbv iota.
      rewrite int_of_in
        by (apply (in_int_between 0 _ (nr * nf)); [done|done|nia]).
      cbn [mbind option_bind]. cbv beta.
      rewrite Z.eqb_refl. cbn [negb].
      rewrite (proj2 (Z.eqb_neq _ _)) by lia.
      destruct (IH (i + 1) "/"%char (expand_rank sp (chars row) ++ post)%list)
        as [prev' Hloop]; try done.
      * lia.
      * lia.
      * rewrite length_app. lia.
      * exists prev'.
        replace (Z.to_nat ((maxRank v - i) * nf))
          with (Z.to_nat ((nr - (i + 1)) * nf)) by (f_equal; nia).
        cbn [mbind option_bind]. cbv beta iota. rewrite Hloop. do 4 f_equal.
        cbn [map rev]. rewrite concat_app. cbn [concat].
        by rewrite app_nil_r, <- !(assoc_L (++)%list).
    + lia.
    + by rewrite (single_digits_prev prev "/").
    + rewrite length_replicate. nia.
    + f_equal. rewrite (assoc_L (++)%list), <- replicate_add. do 2 f_equal. nia.
Qed.

Lemma fill_char_board_last sp v nr nf b0 rows lastrow :
  CharBoard_new nr nf = Some b0 ->
  nr = maxRank v + 1 ->
  Z.of_nat (List.length rows) + 1 = nr ->
  Forall (fun row =>
            plain_rank row
            /\ Z.of_nat (List.length (expand_rank sp (chars row))) = nf) rows ->
  plain_rank lastrow ->
  Z.of_nat (List.length (expand_rank sp (chars lastrow))) <= nf ->
  fill_char_board b0 (join "/" (rows ++ [lastrow])) sp v
  = Some (OK,
          mkCharBoard nr nf
            (expand_rank sp (chars lastrow)
             ++ replicate
                  (Z.to_nat (nf - Z.of_nat (List.length (expand_rank sp (chars lastrow)))))
                  " "%char
             ++ concat (rev (map (fun row => expand_rank sp (chars row)) rows)))%list).
Proof.
  intros Hnew Hnr Hlen Hrows Hlast Hw. unfold CharBoard_new in Hnew.
  destruct ((0 <? nf) && (0 <? nr) && in_int (nr * nf)) eqn:Hc; [|done].
  apply andb_prop in Hc as [Hc Hint]. apply andb_prop in Hc as [Hnf Hnr0].
  apply Z.ltb_lt in Hnf, Hnr0. simplify_eq.
  destruct (fill_loop_board sp v (maxRank v + 1) nf
              (Z.of_nat (List.length (expand_rank sp (chars lastrow)))) lastrow
              rows 0 "?"%char [])
    as [prev' Hloop]; try done.
  unfold fill_char_board.
  rewrite Z.sub_0_r, !app_nil_r in Hloop. rewrite Hloop.
  cbn [mbind option_bind fs_rankIdx fs_board nbRanks]. cbv beta iota.
  rewrite int_of_in
    by (apply (in_int_between 0 _ ((maxRank v + 1) * nf)); [done|done|nia]).
  cbn [mbind option_bind]. cbv beta.
  replace (maxRank v + 1 - 1 + 1 =? maxRank v + 1) with true
    by (symmetry; apply Z.eqb_eq; lia).
  cbn [negb andb]. by destruct (pieceDrops v).
Qed.

(** X21.  [fill_char_board] parses a well-formed board field.  On a fresh board
    of [maxRank + 1] ranks, for a field of that many ranks separated by
    slashes, each rank free of spaces, opening brackets and runs of digits
    and standing for exactly [nbFiles] squares, it returns [OK] and leaves
    the board whose rows are the ranks of the field in reverse order, each
    with its digits expanded to empty squares and its special characters
    dropped. *)
Theorem fill_char_board_parses sp v nr nf b0 rows :
  CharBoard_new nr nf = Some b0 ->
  nr = maxRank v + 1 ->
  Z.of_nat (List.length rows) = nr ->
  Forall (fun row =>
            plain_rank row
            /\ Z.of_nat (List.length (expand_rank sp (chars row))) = nf) rows ->
  fill_char_board b0 (join "/" rows) sp v
  = Some (OK,
          mkCharBoard nr nf
            (concat (rev (map (fun row => expand_rank sp (chars row)) rows)))).
Proof.
  intros Hnew Hnr Hlen Hrows.
  destruct (CharBoard_new_wf _ _ _ Hnew) as [(Hr & _ & _) [Hnr' _]].
  destruct (exists_last (l := rows)) as (init & lastrow & ->).
  { intros ->. cbn [List.length] in Hlen. lia. }
  apply Forall_app in Hrows as [Hinit Hlast].
  apply Forall_cons in Hlast as [[Hlast Hw] _].
  rewrite length_app in Hlen. cbn [List.length] in Hlen.
  rewrite (fill_char_board_last sp v nr nf b0 init lastrow); try done; try lia.
  rewrite Hw, Z.sub_diag. cbn [Z.to_nat replicate app].
  rewrite map_app, rev_app_distr. cbn [map rev app concat]. done.
Qed.

Lemma fill_char_board_parses_witness :
  exists b0, CharBoard_new 8 8 = Some b0
  /\ fill_char_board b0 "rnbqkbnr/pppppppp/8/8/8/8/PPPPPPPP/RNBQKBNR"
       validSpecialCharacters chess_variant
     = Some (OK,
             mkCharBoard 8 8
               (chars "RNBQKBNRPPPPPPPP                                pppppppprnbqkbnr")).
Proof.
  eexists. split; [reflexivity|].
  apply (fill_char_board_parses validSpecialCharacters chess_variant 8 8 _
           ["rnbqkbnr"; "pppppppp"; "8"; "8"; "8"; "8"; "PPPPPPPP"; "RNBQKBNR"]).
  - reflexivity.
  - reflexivity.
  - reflexivity.
  - repeat constructor; try (vm_compute; congruence).
Defined.

(** X22.  The width of the last rank is not checked.  With every other rank as
    in the previous theorem and a last rank that stands for fewer than
    [nbFiles] squares, [fill_char_board] still returns [OK]; row 0 of the
    board holds the squares of the last rank followed by empty squares. *)
Theorem fill_char_board_short_last_rank sp v nr nf b0 rows lastrow :
  CharBoard_new nr nf = Some b0 ->
  nr = maxRank v + 1 ->
  Z.of_nat (List.length rows) + 1 = nr ->
  Forall (fun row =>
            plain_rank row
            /\ Z.of_nat (List.length (expand_rank sp (chars row))) = nf) rows ->
  plain_rank lastrow ->
  Z.of_nat (List.length (expand_rank sp (chars lastrow))) < nf ->
  exists b,
    fill_char_board b0 (join "/" (rows ++ [lastrow])) sp v = Some (OK, b)
    /\ same_shape b0 b
    /\ forall f, 0 <= f < nf ->
         get_piece b 0 f
         = Some (nth (Z.to_nat f) (expand_rank sp (chars lastrow)) " "%char).
Proof.
  intros Hnew Hnr Hlen Hrows Hlast Hw.
  rewrite (fill_char_board_last sp v nr nf b0 rows lastrow); try done; try lia.
  eexists. split; [reflexivity|].
  pose proof Hnew as Hnew'. unfold CharBoard_new in Hnew'.
  destruct ((0 <? nf) && (0 <? nr) && in_int (nr * nf)) eqn:Hc; [|done].
  apply andb_prop in Hc as [Hc Hint]. apply andb_prop in Hc as [Hnf Hnr0].
  apply Z.ltb_lt in Hnf, Hnr0. simplify_eq.
  set (e := expand_rank sp (chars lastrow)) in *.
  assert (Z.of_nat
            (List.length
               (concat (rev (map (fun row => expand_rank sp (chars row)) rows))))
          = Z.of_nat (List.length rows) * nf) as Hrest.
  { clear -Hrows. induction rows as [|row rows IH]; [done|].
    apply Forall_cons in Hrows as [[_ Hrw] Hrows].
    cbn [map rev]. rewrite concat_app, length_app. cbn [concat List.length].
    rewrite app_nil_r. specialize (IH Hrows). nia. }
  split.
  - unfold same_shape. cbn [nbRanks nbFiles board].
    split; [done|]. split; [done|].
    rewrite !length_app, !length_replicate. nia.
  - intros f Hf. unfold get_piece, in_board. cbn [nbFiles board].
    rewrite !length_app, !length_replicate.
    rewrite (proj2 (Z.leb_le _ _)) by lia.
    rewrite (proj2 (Z.ltb_lt _ _)) by nia.
    cbn [andb]. replace (Z.to_nat (0 * nf + f)) with (Z.to_nat f) by lia.
    destruct (decide (Z.to_nat f < List.length e)%nat) as [Hin|Hout].
    + rewrite lookup_app_l by done.
      destruct (lookup_lt_is_Some_2 e _ Hin) as [x Hx]. rewrite Hx. f_equal.
      symmetry. by apply nth_lookup_Some.
    + rewrite lookup_app_r by lia. rewrite lookup_app_l
        by (rewrite length_replicate; lia).
      rewrite nth_overflow by lia.
      apply lookup_replicate_2. lia.
Qed.

Lemma fill_char_board_short_last_rank_witness :
  exists b0 b, CharBoard_new 8 8 = Some b0
  /\ fill_char_board b0 "rnbqkbnr/pppppppp/8/8/8/8/PPPPPPPP/RNBQ"
       validSpecialCharacters chess_variant
     = Some (OK, b).
Proof.
  eexists.
  destruct (fill_char_board_short_last_rank validSpecialCharacters chess_variant
              8 8 (mkCharBoard 8 8 (replicate 64 " "%char))
              ["rnbqkbnr"; "pppppppp"; "8"; "8"; "8"; "8"; "PPPPPPPP"] "RNBQ")
    as (b & Hb & _).
  - reflexivity.
  - reflexivity.
  - reflexivity.
  - repeat constructor; try (vm_compute; congruence).
  - repeat constructor; try (vm_compute; congruence).
  - vm_compute; reflexivity.
  - exists b. split; [reflexivity|exact Hb].
Defined.

(** ** Square names and the long algebraic form *)

Lemma to_string_inj z1 z2 : to_string z1 = to_string z2 -> z1 = z2.
Proof.
  unfold to_string. intros H. apply DecimalZ.to_int_inj.
  assert (forall z, NilZero.int_of_string (NilZero.string_of_int (Z.to_int z))
                    = Some (Z.to_int z)) as Hisi.
  { intros z. apply NilZero.isi; destruct z; cbn; try discriminate;
      intros [= Hnil]; by apply DecimalPos.Unsigned.to_uint_nonnil in Hnil. }
  pose proof (Hisi z1) as H1. rewrite H, Hisi in H1. congruence.
Qed.

Lemma code_char_of z : 0 <= z < 256 -> code (char_of z) = z.
Proof.
  intros Hz. unfold code, char_of. rewrite Z.mod_small by done.
  rewrite N_ascii_embedding by lia. lia.
Qed.

Lemma append_assoc (a b c : string) : (a ++ b) ++ c = a ++ b ++ c.
Proof. apply chars_inj. rewrite !chars_app. by rewrite (assoc_L (++)%list). Qed.

Section square_names.
Context {E : Enumerators} {G : Engine}.

(** X23.  Under the default, SAN and LAN notations, for squares on one of the
    first 26 files, [square] is the lower-case letter of the file ([a] for
    file 0) followed by the decimal of the rank plus one, and two squares
    with the same name have the same file and the same rank. *)
Theorem square_algebraic_injective (pos : Position) (s1 s2 : Square) (n : Notation) :
  n = NOTATION_DEFAULT \/ n = NOTATION_SAN \/ n = NOTATION_LAN ->
  0 <= file_of s1 < 26 -> 0 <= file_of s2 < 26 ->
  (exists c, square pos s1 n = String c (to_string (rank_of s1 + 1))
             /\ islower c = true /\ code c = code "a" + file_of s1)
  /\ (square pos s1 n = square pos s2 n ->
      file_of s1 = file_of s2 /\ rank_of s1 = rank_of s2).
Proof.
  intros Hn H1 H2.
  assert (forall s, 0 <= file_of s < 26 ->
            square pos s n
            = String (char_of (code "a" + file_of s)) (to_string (rank_of s + 1))
            /\ code (char_of (code "a" + file_of s)) = code "a" + file_of s)
    as Hshape.
  { intros s Hs. split.
    - by destruct Hn as [-> | [-> | ->]].
    - apply code_char_of. change (code "a") with 97. lia. }
  destruct (Hshape s1 H1) as [Hs1 Hc1], (Hshape s2 H2) as [Hs2 Hc2]. split.
  - eexists. split; [exact Hs1|]. split; [|exact Hc1].
    unfold islower. rewrite Hc1. change (code "a") with 97.
    apply andb_true_iff. rewrite !Z.leb_le. lia.
  - rewrite Hs1, Hs2. intros [= Hc Hr].
    apply to_string_inj in Hr. split; [|lia].
    apply (f_equal code) in Hc. rewrite Hc1, Hc2 in Hc. lia.
Qed.

(** X24.  The long algebraic form: for a move of type [NORMAL] without gating,
    the text [move_to_san] builds under LAN before the check test is the
    piece letter, the origin square, [x] for a capture and [-] otherwise, and
    the destination square. *)
Theorem san_before_check_lan (pos : Position) (m : Move) :
  move_type m = NORMAL -> is_gating m = false ->
  san_before_check pos m NOTATION_LAN
  = piece pos m NOTATION_LAN
    ++ square pos (from_sq m) NOTATION_LAN
    ++ (if capture pos m then "x" else "-")
    ++ square pos (to_sq m) NOTATION_LAN.
Proof.
  intros Ht Hg. unfold san_before_check, disambiguation_level.
  rewrite Ht, Hg. cbn [MoveType_eqb Notation_eqb orb andb negb is_shogi].
  cbn [disambiguation].
  destruct (capture pos m); by rewrite !append_assoc.
Qed.

End square_names.

Lemma square_algebraic_injective_witness :
  exists c,
    square (G := Sample.engine) (Sample.two_rooks (Some 1)) 13 NOTATION_SAN
    = String c (to_string (Sample.s_rank_of 13 + 1))
    /\ islower c = true /\ code c = code "a" + Sample.s_file_of 13.
Proof.
  refine (proj1 (square_algebraic_injective (G := Sample.engine)
                   (Sample.two_rooks (Some 1)) 13 13 NOTATION_SAN _ _ _)).
  - right. by left.
  - vm_compute. split; [discriminate|reflexivity].
  - vm_compute. split; [discriminate|reflexivity].
Defined.

Lemma san_before_check_lan_witness :
  san_before_check (G := Sample.engine) (Sample.two_rooks (Some 1))
    Sample.rook_a1_b1 NOTATION_LAN = "Ra1-b1".
Proof.
  rewrite (san_before_check_lan (G := Sample.engine)); reflexivity.
Defined.

(** ** Writes past the top rank *)

(** X25.  A board field that opens with a digit larger than the number of files
    followed by a piece character takes [fill_char_board], on a fresh board
    of [maxRank + 1] ranks, to a write behind the end of the vector:
    undefined behaviour, since neither the loop nor [set_piece] checks the
    file index against the width before the write. *)
Theorem fill_char_board_overrun sp v nr nf b0 d c rest :
  CharBoard_new nr nf = Some b0 ->
  nr = maxRank v + 1 ->
  isdigit d = true -> nf < digit_value d ->
  c <> " "%char -> c <> "["%char -> c <> "/"%char ->
  isdigit c = false -> contains c sp = false ->
  fill_char_board b0 (String d (String c rest)) sp v = None.
Proof.
  intros Hnew Hnr Hd Hover Hc1 Hc2 Hc3 Hcd Hsp.
  unfold CharBoard_new in Hnew.
  destruct ((0 <? nf) && (0 <? nr) && in_int (nr * nf)) eqn:Hc; [|done].
  apply andb_prop in Hc as [Hc Hint]. apply andb_prop in Hc as [Hnf Hnr0].
  apply Z.ltb_lt in Hnf, Hnr0. simplify_eq.
  pose proof (isdigit_value d Hd) as Hv.
  set (b0 := mkCharBoard (maxRank v + 1) nf
               (replicate (Z.to_nat ((maxRank v + 1) * nf)) " "%char)).
  assert (fill_char sp v d (mkFill 0 0 "?" b0)
          = Some (Proceed (mkFill 0 (digit_value d) d b0))) as Hfirst.
  { unfold fill_char. cbn [fs_rankIdx fs_fileIdx fs_prevChar fs_board].
    rewrite (isdigit_not_break d Hd), Hd.
    change (isdigit "?") with false. cbv iota.
    rewrite Z.add_0_l.
    rewrite int_of_in by (unfold in_int, INT_MIN, INT_MAX;
      apply andb_true_iff; rewrite !Z.leb_le; lia).
    done. }
  assert (fill_char sp v c (mkFill 0 (digit_value d) d b0) = None) as Hsecond.
  { unfold fill_char. cbn [fs_rankIdx fs_fileIdx fs_prevChar fs_board].
    rewrite (neq_eqb_false _ _ Hc1), (neq_eqb_false _ _ Hc2),
      (neq_eqb_false _ _ Hc3), Hcd, Hsp.
    cbn [orb negb]. unfold b0 at 1. cbn [nbFiles].
    rewrite (proj2 (Z.eqb_neq _ _)) by lia.
    unfold set_piece, in_board, b0. cbn [nbFiles board].
    rewrite length_replicate.
    rewrite (proj2 (Z.ltb_ge _ _)) by nia.
    by rewrite andb_false_r. }
  unfold fill_char_board. rewrite !chars_String. cbn [fill_loop].
  rewrite Hfirst. cbn [mbind option_bind]. cbv beta iota.
  by rewrite Hsecond.
Qed.

Lemma fill_char_board_overrun_witness :
  exists b0, CharBoard_new 8 8 = Some b0
  /\ fill_char_board b0 "9k/8/8/8/8/8/8/K7" validSpecialCharacters chess_variant
     = None.
Proof.
  eexists. split; [reflexivity|].
  apply (fill_char_board_overrun validSpecialCharacters chess_variant 8 8);
    try reflexivity; try discriminate.
Defined.

(** ** All squares of a glyph *)

Lemma NoDup_bind_sorted {A} (f : Z -> list A) (key : A -> Z) (l : list Z) :
  NoDup l -> (forall z x, x ∈ f z -> key x = z) -> (forall z, NoDup (f z)) ->
  NoDup (l ≫= f).
Proof.
  intros Hl Hkey Hf. induction Hl as [|z l Hz Hl IH]; [constructor|].
  cbn. apply NoDup_app. split; [apply Hf|]. split; [|exact IH].
  intros x Hx Hx'. apply list_elem_of_bind in Hx' as (z' & Hx' & Hz').
  apply Hkey in Hx, Hx'. congruence.
Qed.

(** X26.  [get_squares_for_piece] lists each square once, and lists exactly the
    squares within the dimensions of the board that hold the character. *)
Theorem get_squares_for_piece_exact b piece :
  NoDup (get_squares_for_piece b piece)
  /\ forall sq, sq ∈ get_squares_for_piece b piece
       <-> 0 <= rowIdx sq < nbRanks b /\ 0 <= fileIdx sq < nbFiles b
           /\ get_piece b (rowIdx sq) (fileIdx sq) = Some piece.
Proof.
  split.
  - unfold get_squares_for_piece.
    apply (NoDup_bind_sorted _ rowIdx); [apply NoDup_seqZ| |].
    + intros r sq H. apply list_elem_of_bind in H as (c & H & _).
      destruct (piece_at b r c piece); [|by apply elem_of_nil in H].
      apply list_elem_of_singleton in H. by subst.
    + intros r. apply (NoDup_bind_sorted _ fileIdx); [apply NoDup_seqZ| |].
      * intros c sq H.
        destruct (piece_at b r c piece); [|by apply elem_of_nil in H].
        apply list_elem_of_singleton in H. by subst.
      * intros c. destruct (piece_at b r c piece);
          [apply NoDup_singleton|constructor].
  - intros sq. split.
    + intros H. apply get_squares_for_piece_bounds in H as (Hr & Hf & Hp).
      split; [done|]. split; [done|]. by apply piece_at_get_piece.
    + intros (Hr & Hf & Hp). destruct sq as [r f].
      by apply get_squares_for_piece_elem.
Qed.

(** * The kings of the parsed board *)

(** ** Each glyph is written at most as often as the field holds it *)

Lemma count_insert_le (g c : ascii) (l : list ascii) : forall i,
  (List.length (List.filter (Ascii.eqb g) (<[i:=c]> l))
   <= List.length (List.filter (Ascii.eqb g) l)
      + (if Ascii.eqb g c then 1 else 0))%nat.
Proof.
  induction l as [|x l IH]; intros i; [simpl; lia|].
  destruct i as [|i].
  - change (<[0%nat:=c]> (x :: l)) with (c :: l). cbn [List.filter].
    destruct (Ascii.eqb g c), (Ascii.eqb g x); cbn [List.length]; lia.
  - change (<[S i:=c]> (x :: l)) with (x :: <[i:=c]> l). cbn [List.filter].
    specialize (IH i).
    destruct (Ascii.eqb g c), (Ascii.eqb g x); cbn [List.length]; lia.
Qed.

Lemma count_lookup (g : ascii) (l : list ascii) i :
  l !! i = Some g -> (1 <= List.length (List.filter (Ascii.eqb g) l))%nat.
Proof.
  revert i. induction l as [|x l IH]; intros i H; [done|].
  destruct i as [|i]; cbn [List.filter].
  - injection H as ->. rewrite Ascii.eqb_refl. cbn [List.length]. lia.
  - specialize (IH i H). destruct (Ascii.eqb g x); cbn [List.length]; lia.
Qed.

Lemma count_unique (g : ascii) (l : list ascii) : forall i j,
  (List.length (List.filter (Ascii.eqb g) l) <= 1)%nat ->
  l !! i = Some g -> l !! j = Some g -> i = j.
Proof.
  induction l as [|x l IH]; intros i j Hc Hi Hj; [done|].
  cbn [List.filter] in Hc.
  destruct i as [|i], j as [|j]; [done| | |].
  - injection Hi as ->. rewrite Ascii.eqb_refl in Hc. cbn [List.length] in Hc.
    apply (count_lookup g l j) in Hj. lia.
  - injection Hj as ->. rewrite Ascii.eqb_refl in Hc. cbn [List.length] in Hc.
    apply (count_lookup g l i) in Hi. lia.
  - f_equal. apply IH; [|exact Hi|exact Hj].
    destruct (Ascii.eqb g x); cbn [List.length] in Hc; lia.
Qed.

Lemma fill_char_glyphs sp v c s r (g : ascii) :
  fill_char sp v c s = Some r ->
  (List.length (List.filter (Ascii.eqb g) (board (fs_board (ctl_state r))))
   <= List.length (List.filter (Ascii.eqb g) (board (fs_board s)))
      + (if Ascii.eqb g c then 1 else 0))%nat.
Proof.
  unfold fill_char. intros H.
  assert (forall s', fs_board s' = fs_board s ->
            (List.length (List.filter (Ascii.eqb g) (board (fs_board s')))
             <= List.length (List.filter (Ascii.eqb g) (board (fs_board s)))
                + (if Ascii.eqb g c then 1 else 0))%nat) as Hsame.
  { intros s' ->. lia. }
  destruct (Ascii.eqb c " " || Ascii.eqb c "[").
  { injection H as <-. by apply Hsame. }
  destruct (isdigit c).
  { destruct (int_of _) as [f1|]; [|done]. cbn [mbind option_bind] in H.
    destruct (if isdigit (fs_prevChar s) then _ else _) as [f2|]; [|done].
    injection H as <-. by apply Hsame. }
  destruct (Ascii.eqb c "/").
  { destruct (int_of _) as [r1|]; [|done]. cbn [mbind option_bind] in H.
    repeat case_match; injection H as <-; by apply Hsame. }
  destruct (negb (contains c sp)).
  2:{ injection H as <-. by apply Hsame. }
  destruct (fs_fileIdx s =? nbFiles (fs_board s)).
  { injection H as <-. by apply Hsame. }
  destruct (set_piece _ _ _ _) as [b'|] eqn:Hset; [|done].
  cbn [mbind option_bind] in H.
  destruct (int_of _) as [f|]; [|done]. injection H as <-.
  cbn [ctl_state fs_board]. unfold set_piece in Hset.
  destruct (in_board _ _); [|done]. injection Hset as <-. cbn [board].
  apply count_insert_le.
Qed.

Lemma fill_loop_glyphs sp v (g : ascii) cs : forall s r,
  fill_loop sp v cs s = Some r ->
  (List.length (List.filter (Ascii.eqb g) (board (fs_board (ctl_state r))))
   <= List.length (List.filter (Ascii.eqb g) (board (fs_board s)))
      + List.length (List.filter (Ascii.eqb g) cs))%nat.
Proof.
  induction cs as [|c cs IH]; intros s r H; cbn [fill_loop] in H.
  - injection H as <-. cbn [ctl_state]. lia.
  - destruct (fill_char sp v c s) as [r1|] eqn:Hc; [|done].
    cbn [mbind option_bind] in H.
    pose proof (fill_char_glyphs _ _ _ _ _ g Hc) as H1.
    cbn [List.filter].
    assert (List.length (List.filter (Ascii.eqb g) (c :: cs))
            = ((if Ascii.eqb g c then 1 else 0)
               + List.length (List.filter (Ascii.eqb g) cs))%nat) as Hcons.
    { cbn [List.filter]. by destruct (Ascii.eqb g c). }
    change (if Ascii.eqb g c then c :: List.filter (Ascii.eqb g) cs
            else List.filter (Ascii.eqb g) cs)
      with (List.filter (Ascii.eqb g) (c :: cs)).
    rewrite Hcons.
    destruct r1 as [s1|s1|s1]; cbn [ctl_state] in H1.
    + specialize (IH _ _ H). lia.
    + injection H as <-. cbn [ctl_state]. lia.
    + injection H as <-. cbn [ctl_state]. lia.
Qed.

Lemma fill_char_board_glyphs b fenBoard sp v res b' (g : ascii) :
  fill_char_board b fenBoard sp v = Some (res, b') ->
  (List.length (List.filter (Ascii.eqb g) (board b'))
   <= List.length (List.filter (Ascii.eqb g) (board b))
      + List.length (List.filter (Ascii.eqb g) (chars fenBoard)))%nat.
Proof.
  unfold fill_char_board. intros H.
  destruct (fill_loop sp v (chars fenBoard) (mkFill 0 0 "?" b)) as [r|] eqn:Hl;
    [|done].
  pose proof (fill_loop_glyphs _ _ g _ _ _ Hl) as Hg.
  cbn [fs_board] in Hg. cbn [mbind option_bind] in H.
  destruct r as [s|s|s]; cbn [ctl_state] in Hg;
    repeat (first [progress simplify_option_eq | case_match]); done.
Qed.

Lemma CharBoard_new_glyphs nr nf b (g : ascii) :
  CharBoard_new nr nf = Some b -> g <> " "%char ->
  List.length (List.filter (Ascii.eqb g) (board b)) = 0%nat.
Proof.
  unfold CharBoard_new. intros H Hg. case_match; [|done]. simplify_eq.
  cbn [board]. induction (Z.to_nat (nr * nf)) as [|n IH]; [done|].
  cbn [replicate List.filter]. by rewrite (neq_eqb_false _ _ Hg).
Qed.

(** ** The square of a glyph that stands once on the board *)

Lemma get_piece_lookup b r f g :
  0 <= r -> 0 <= f -> get_piece b r f = Some g ->
  board b !! Z.to_nat (r * nbFiles b + f) = Some g.
Proof.
  unfold get_piece. intros Hr Hf H. by destruct (in_board b _).
Qed.

Lemma get_square_for_piece_unique b g r f :
  (List.length (List.filter (Ascii.eqb g) (board b)) <= 1)%nat ->
  stands_on b g r f ->
  get_square_for_piece b g = mkCharSquare r f.
Proof.
  intros Hc (Hr & Hf & Hp).
  pose proof (get_squares_for_piece_elem _ _ _ _ Hr Hf Hp) as Hin.
  unfold get_square_for_piece.
  destruct (get_squares_for_piece b g) as [|sq rest] eqn:Hl;
    [by apply elem_of_nil in Hin|].
  assert (sq ∈ get_squares_for_piece b g) as Hsq by (rewrite Hl; left).
  apply get_squares_for_piece_bounds in Hsq as (Hr' & Hf' & Hp').
  apply piece_at_get_piece in Hp'.
  apply get_piece_lookup in Hp; [|lia|lia].
  apply get_piece_lookup in Hp'; [|lia|lia].
  pose proof (count_unique _ _ _ _ Hc Hp Hp') as He.
  destruct sq as [r' f']. cbn [rowIdx fileIdx] in *.
  assert (r = r') by nia. subst r'. f_equal. nia.
Qed.

Lemma length_chars s : List.length (chars s) = String.length s.
Proof. unfold chars. induction s as [|c s IH]; simpl; [done|]. by rewrite IH. Qed.

Section king_squares.
Context {E : Enumerators}.

Lemma kings_located_counts fen v fenBoard b pockets k :
  reaches_kings fen v fenBoard b pockets ->
  kings_located v fenBoard pockets k ->
  size fenBoard < 2 ^ 32 ->
  count_char (toupper k) fenBoard = 1 /\ count_char (tolower k) fenBoard = 1.
Proof.
  intros _ (_ & _ & Hn & _ & Hs) Hsize. unfold check_number_of_kings in Hn.
  rewrite Hs in Hn. cbn [mbind option_bind] in Hn.
  assert (forall g, 0 <= count_char g fenBoard <= size fenBoard) as Hle.
  { intros g. unfold count_char, size, chars.
    pose proof (filter_length (Ascii.eqb g) (list_ascii_of_string fenBoard)).
    rewrite <- length_chars. unfold chars. lia. }
  assert (forall z, 0 <= z < 2 ^ 32 -> to_int z = 1 -> z = 1) as Hto.
  { intros z Hz. unfold to_int. intros H.
    destruct (Z_lt_dec z (2 ^ 31)).
    - rewrite Z.mod_small in H by lia. lia.
    - replace (z + 2 ^ 31) with (z - 2 ^ 31 + 1 * 2 ^ 32) in H by lia.
      rewrite Z.mod_add, Z.mod_small in H by lia. lia. }
  destruct (to_int (count_char (toupper k) fenBoard) =? 1) eqn:Hw;
    cbn [negb] in Hn; [|done].
  destruct (to_int (count_char (tolower k) fenBoard) =? 1) eqn:Hb;
    cbn [negb] in Hn; [|done].
  apply Z.eqb_eq in Hw, Hb.
  pose proof (Hle (toupper k)). pose proof (Hle (tolower k)).
  split; apply Hto; (lia || done).
Qed.

Lemma reaches_kings_once fen v fenBoard b pockets g :
  reaches_kings fen v fenBoard b pockets ->
  count_char g fenBoard = 1 ->
  (List.length (List.filter (Ascii.eqb g) (board b)) <= 1)%nat.
Proof.
  intros (_ & H0 & _ & (eb & Hnew & Hfill) & _) Hc.
  assert (g <> " "%char) as Hg.
  { intros ->.
    assert (contains " " fenBoard = false) as Hsp.
    { apply (getlines_no_delim " " fen "" false); [done|].
      unfold vector_at in H0. apply list_elem_of_lookup_2 with 0%nat.
      by destruct (0 <=? 0). }
    unfold count_char in Hc. unfold contains in Hsp.
    destruct (List.filter (Ascii.eqb " ") (chars fenBoard)) as [|x l] eqn:Hf;
      [done|].
    assert (In x (List.filter (Ascii.eqb " ") (chars fenBoard))) as Hx
      by (rewrite Hf; left; done).
    apply filter_In in Hx as [Hx Hxe].
    assert (existsb (Ascii.eqb " ") (chars fenBoard) = true) as Hex
      by (apply existsb_exists; eauto).
    congruence. }
  pose proof (fill_char_board_glyphs _ _ _ _ _ _ g Hfill) as Hle.
  rewrite (CharBoard_new_glyphs _ _ _ g Hnew Hg) in Hle.
  unfold count_char in Hc. lia.
Qed.


End king_squares.



(** * Two defects of the king block *)

(** C3.  The standard castling test reads the second and the first rook
    square of the start position for a color that requests rights, before
    it looks at the letters requested: when that color starts with fewer
    than two rooks the read is outside the list and the test is undefined,
    instead of answering [NOK].  So it is for Black in the weak variant of
    variants.ini, whose start position has no black rook: with the castling
    field [KQkq], or [kq], [validate_fen] is undefined on the start position
    of the variant, which it accepts with the field [KQ]. *)
Theorem validate_fen_castling_without_rooks :
  (forall info b kingPositions kingPositionsStart rookPositionsStart c,
      at_color info c <> "" ->
      (c = BLACK -> at_color info WHITE = "") ->
      at_color kingPositions c = at_color kingPositionsStart c ->
      (List.length (at_color rookPositionsStart c) < 2)%nat ->
      check_standard_castling info b kingPositions kingPositionsStart
        rookPositionsStart = None)
  /\ at_color
       (rook_squares
          (board_of "nnnnknnn/pppppppp/2p2p2/1pppppp1/8/8/PPPPPPPP/RNBQKBNR"
             weak_variant)) BLACK = []
  /\ validate_fen
       "nnnnknnn/pppppppp/2p2p2/1pppppp1/8/8/PPPPPPPP/RNBQKBNR w KQkq - 0 1"
       weak_variant = None
  /\ validate_fen
       "nnnnknnn/pppppppp/2p2p2/1pppppp1/8/8/PPPPPPPP/RNBQKBNR w kq - 0 1"
       weak_variant = None
  /\ validate_fen
       "nnnnknnn/pppppppp/2p2p2/1pppppp1/8/8/PPPPPPPP/RNBQKBNR w KQ - 0 1"
       weak_variant = Some FEN_OK.
Proof.
  split; [|split_and!; run].
  intros info b kp kps rps c Hne Hfirst Hking Hrooks.
  assert (vector_at (at_color rps c) 1 = None) as Hread.
  { unfold vector_at. change (0 <=? 1) with true. cbv iota.
    apply lookup_ge_None. change (Z.to_nat 1) with 1%nat. lia. }
  unfold check_standard_castling. destruct c.
  - cbn [for_each]. rewrite (size_nonempty _ Hne), Hking.
    rewrite (proj2 (CharSquare_eqb_eq _ _) eq_refl). cbn [negb for_each].
    by rewrite Hread.
  - cbn [for_each]. rewrite (Hfirst eq_refl).
    change (size (String.EmptyString) =? 0) with true. cbv iota.
    cbn [mbind option_bind]. cbv beta iota.
    rewrite (size_nonempty _ Hne), Hking.
    rewrite (proj2 (CharSquare_eqb_eq _ _) eq_refl). cbn [negb for_each].
    by rewrite Hread.
Qed.

(** C10.  The test whether a king is in a pocket looks for the letter [k],
    not for the king letter of the variant.  With the kings in the pocket,
    crazyhouse skips the tests of the king squares and of the castling
    field and accepts the position.  For the same variant with the king
    written [x], the pockets hold the king letter of each color, the test
    does not see them, and the king squares are tested: both kings are off
    the board and [validate_fen] returns [FEN_TOUCHING_KINGS]. *)
Theorem validate_fen_king_letter_in_pocket :
  validate_fen "rnbq1bnr/pppppppp/8/8/8/8/PPPPPPPP/RNBQ1BNR[Kk] w - - 0 1"
    crazyhouse_variant = Some FEN_OK
  /\ string_at (pieceToChar xking_variant) (Z.of_nat KING) = Some "X"%char
  /\ pocket_stage "rnbq1bnr/pppppppp/8/8/8/8/PPPPPPPP/RNBQ1BNR[Xx]" 8 xking_variant
     = Some (OK, ("x", "x"))
  /\ no_king_piece_in_pockets ("x", "x") = true
  /\ validate_fen "rnbq1bnr/pppppppp/8/8/8/8/PPPPPPPP/RNBQ1BNR[Xx] w - - 0 1"
       xking_variant = Some FEN_TOUCHING_KINGS.
Proof. split_and!; run. Qed.
